(** * Narrative engine: diplomacy state, rule lookup, anti-spiral guard,
      state machine, reply parsing and heuristic analysis

    A shallow embedding of the JavaScript sources.  JS objects used as
    dictionaries are finite maps keyed by strings, JS numbers that the content
    keeps integral are [Z], a missing property ([undefined]) is [None], and a
    function that can throw returns a [result].  Reading an object literal by
    a name that it inherits from [Object.prototype] gives a function and not
    [undefined]: [is_inherited] tells these names, and module [Prototype] has
    the game state with what such reads leave in it. *)

From Stdlib Require Import ZArith Lia Ascii String.
From stdpp Require Import gmap strings list fin_maps.

Open Scope Z_scope.

(** ** Common JavaScript notions *)

(** What a JS call ends with: a returned value or a thrown error. *)
Inductive js_error :=
  | StateNotFound (node : string)
  | NoValidTransition (node : string) (choice : option string)
  | TypeError
  | InvalidResponseStructure
  | MissingAnalysisFields
  | SyntaxError
  | NpcNotFound (npc : string)
  | StackExhausted.

Inductive result (A : Type) :=
  | Returned (a : A)
  | Thrown (e : js_error).
Arguments Returned {A} a.
Arguments Thrown {A} e.

(** [x || 0] on a numeric property that may be missing. *)
Definition or0 (o : option Z) : Z := default 0 o.

(** The property names every object literal inherits from
    [Object.prototype]. *)
Definition inherited_names : list string :=
  [ "constructor"; "__proto__"; "hasOwnProperty"; "isPrototypeOf";
    "propertyIsEnumerable"; "toLocaleString"; "toString"; "valueOf";
    "__defineGetter__"; "__defineSetter__"; "__lookupGetter__"; "__lookupSetter__" ].

(** [o[k]] for such a name that [o] does not have itself reads a function
    (the prototype object for [__proto__]) and not [undefined]. *)
Definition is_inherited (k : string) : bool := bool_decide (k ∈ inherited_names).

(** [o[k] || 0] where a number is needed, on an object whose own values are
    numbers: the own value, 0 for a name the object neither has nor inherits,
    and [None] for an inherited name, where the read gives a function or an
    object. *)
Definition number_or0 (o : gmap string Z) (k : string) : option Z :=
  match o !! k with
  | Some v => Some v
  | None => if is_inherited k then None else Some 0
  end.

(** [Object.entries(o)]: the own properties of [o], each key once.  JS lists
    them in insertion order; the loops below update one key per entry, so
    their result does not depend on that order (see [foldl_keyed_lookup]). *)
Definition entries {V} (o : gmap string V) : list (string * V) := map_to_list o.

(** The shape of a loop body that rewrites the one key of its entry from the
    old value at that key and the entry's value. *)
Definition keyed_step {V} (g : option V → V → V) (m : gmap string V)
    (kv : string * V) : gmap string V :=
  <[kv.1 := g (m !! kv.1) kv.2]> m.

(** ** Diplomacy engine (src/data/diplomacy_engine.js) *)

Module DiplomacyEngine.

(** A flag is a boolean or a string. *)
Inductive flag_value :=
  | FlagBool (b : bool)
  | FlagStr (s : string).

(** An effects object: each of the four sub-maps may be missing. *)
Record Effects := mkEffects {
  eff_factions : option (gmap string Z);
  eff_player_traits : option (gmap string Z);
  eff_npc_opinions : option (gmap string Z);
  eff_flags : option (gmap string flag_value)
}.

Record GameState := mkGameState {
  factions : gmap string Z;
  player_traits : gmap string Z;
  npc_opinions : gmap string Z;
  flags : gmap string flag_value
}.

Definition prologueNPCs : list string := ["trepov"; "kf"; "samsonov"; "sokolov"].

(** [initializeGameState]: [factionIds] is
    [Object.keys(this.diplomacyCore.factions)]. *)
Definition initializeGameState (factionIds : list string) : GameState :=
  {| factions := foldl (λ m factionId, <[factionId := 0]> m) ∅ factionIds;
     player_traits := <["NEUTRALITY" := 0]> (<["INDEPENDENCE" := 0]> ∅);
     npc_opinions := foldl (λ m npcId, <[npcId := 0]> m) ∅ prologueNPCs;
     flags := ∅ |}.

(** [Math.max(-100, Math.min(100, v))] *)
Definition clamp100 (v : Z) : Z := Z.max (-100) (Z.min 100 v).

(** Body of the factions loop and of the NPC opinions loop: add, store,
    read back, clamp, store.  This is the body on a key that the map has
    itself or that is no inherited name, where every value involved is a
    number; [Prototype.add_clamped] is the body on every key. *)
Definition add_clamped (m : gmap string Z) (kv : string * Z) : gmap string Z :=
  let m1 := <[kv.1 := or0 (m !! kv.1) + kv.2]> m in
  <[kv.1 := clamp100 (or0 (m1 !! kv.1))]> m1.

(** Body of the player traits loop: add and store, nothing else.  The sum
    is the exact one, which is what a JS number holds as long as it stays
    within 2^53 in size; on the keys as for [add_clamped]. *)
Definition add_plain (m : gmap string Z) (kv : string * Z) : gmap string Z :=
  <[kv.1 := or0 (m !! kv.1) + kv.2]> m.

(** [Object.assign(target, source)]: every property of [source] overwrites. *)
Definition object_assign {V} (target source : gmap string V) : gmap string V :=
  source ∪ target.

Definition applyEffects (gs : GameState) (effects : Effects) : GameState :=
  {| factions :=
       match eff_factions effects with
       | Some d => foldl add_clamped (factions gs) (entries d)
       | None => factions gs
       end;
     player_traits :=
       match eff_player_traits effects with
       | Some d => foldl add_plain (player_traits gs) (entries d)
       | None => player_traits gs
       end;
     npc_opinions :=
       match eff_npc_opinions effects with
       | Some d => foldl add_clamped (npc_opinions gs) (entries d)
       | None => npc_opinions gs
       end;
     flags :=
       match eff_flags effects with
       | Some d => object_assign (flags gs) d
       | None => flags gs
       end |}.

(** The state after a sequence of [applyEffects] calls. *)
Definition applyAll (gs : GameState) (calls : list Effects) : GameState :=
  foldl applyEffects gs calls.

(** Every value of a numeric map lies in [-100, 100]. *)
Definition bounded (m : gmap string Z) : Prop :=
  ∀ k v, m !! k = Some v → -100 ≤ v ≤ 100.

(** The invariant carried through a playthrough. *)
Definition in_bounds (gs : GameState) : Prop :=
  bounded (factions gs) ∧ bounded (npc_opinions gs).

(** [getRelationshipTier]: [npcId] comes from the caller.  For an id that
    has no recorded opinion and names an inherited property, [opinion] is a
    function or an object, every comparison with it is false and the last
    [return] is reached. *)
Definition getRelationshipTier (gs : GameState) (npcId : string) : string :=
  match number_or0 (npc_opinions gs) npcId with
  | Some opinion =>
      if opinion <=? -50 then "HOSTILE"
      else if opinion <=? -10 then "COLD"
      else if opinion <=? 9 then "NEUTRAL"
      else if opinion <=? 49 then "FRIENDLY"
      else "ALLY"
  | None => "ALLY"
  end.

End DiplomacyEngine.

(** ** Diplomacy engine on every property name
       (src/data/diplomacy_engine.js) *)

(** [initializeGameState] and [applyEffects] once more, with what the game
    state holds when a faction, trait or character is called like a property
    that object literals inherit: the read [m[k] || 0] is then a function or
    an object, the sum with the delta a string, and the clamped value NaN.
    On all other names this is [DiplomacyEngine.applyEffects]. *)
Module Prototype.

(** What a numeric property of the game state can hold: a number, NaN, or a
    string that is no numeral (a function's or an object's text with digits
    appended). *)
Inductive value :=
  | Num (z : Z)
  | NaN
  | Text.

Record GameState := mkGameState {
  factions : gmap string value;
  player_traits : gmap string value;
  npc_opinions : gmap string value;
  flags : gmap string DiplomacyEngine.flag_value
}.

(** The value of [m[k] || 0]: a number, or something else that is truthy (a
    function, an object, a non-empty string). *)
Inductive operand :=
  | Number (z : Z)
  | Other.

(** From the own property under [k], if there is one. *)
Definition operand_of (k : string) (own : option value) : operand :=
  match own with
  | Some (Num v) => Number v
  | Some NaN => Number 0
  | Some Text => Other
  | None => if is_inherited k then Other else Number 0
  end.

Definition read_or0 (m : gmap string value) (k : string) : operand :=
  operand_of k (m !! k).

(** [a + x] for a number [x]: a sum, or a concatenation.  The sum is the
    exact one; a JS number rounds it once it is beyond 2^53 in size, which
    the clamp that follows in the factions and opinions loops does not see
    (a sum of that size is clamped to 100 or -100 either way). *)
Definition plus (a : operand) (x : Z) : value :=
  match a with
  | Number v => Num (v + x)
  | Other => Text
  end.

(** [m[k] = v] for a [v] that is no object: [k] becomes an own property,
    except that [__proto__], unless the object has it itself, goes to the
    inherited setter, which ignores such a [v]. *)
Definition assign {V} (k : string) (v : V) (m : gmap string V) : gmap string V :=
  if String.eqb k "__proto__" && negb (bool_decide (is_Some (m !! k)))
  then m
  else <[k := v]> m.

(** The own property under [k] once [m[k] = v] has run. *)
Definition assigned {V} (k : string) (own : option V) (v : V) : option V :=
  if String.eqb k "__proto__" && negb (bool_decide (is_Some own))
  then None
  else Some v.

(** [Math.max(-100, Math.min(100, v))]: NaN for whatever is no number. *)
Definition clamp (v : value) : value :=
  match v with
  | Num z => Num (DiplomacyEngine.clamp100 z)
  | _ => NaN
  end.

(** The same on [m[k]], which without an own property is [undefined] or an
    inherited object. *)
Definition clamped (m : gmap string value) (k : string) : value :=
  match m !! k with
  | Some v => clamp v
  | None => NaN
  end.

Definition initializeGameState (factionIds : list string) : GameState :=
  {| factions := foldl (λ m factionId, assign factionId (Num 0) m) ∅ factionIds;
     player_traits := <["NEUTRALITY" := Num 0]> (<["INDEPENDENCE" := Num 0]> ∅);
     npc_opinions :=
       foldl (λ m npcId, assign npcId (Num 0) m) ∅ DiplomacyEngine.prologueNPCs;
     flags := ∅ |}.

Definition add_clamped (m : gmap string value) (kv : string * Z) : gmap string value :=
  let m1 := assign kv.1 (plus (read_or0 m kv.1) kv.2) m in
  assign kv.1 (clamped m1 kv.1) m1.

Definition add_plain (m : gmap string value) (kv : string * Z) : gmap string value :=
  assign kv.1 (plus (read_or0 m kv.1) kv.2) m.

(** [Object.assign(target, source)] sets every own property of [source] on
    [target], as [assign] does. *)
Definition object_assign {V} (target source : gmap string V) : gmap string V :=
  foldl (λ t kv, assign kv.1 kv.2 t) target (entries source).

Definition applyEffects (gs : GameState) (effects : DiplomacyEngine.Effects) : GameState :=
  {| factions :=
       match DiplomacyEngine.eff_factions effects with
       | Some d => foldl add_clamped (factions gs) (entries d)
       | None => factions gs
       end;
     player_traits :=
       match DiplomacyEngine.eff_player_traits effects with
       | Some d => foldl add_plain (player_traits gs) (entries d)
       | None => player_traits gs
       end;
     npc_opinions :=
       match DiplomacyEngine.eff_npc_opinions effects with
       | Some d => foldl add_clamped (npc_opinions gs) (entries d)
       | None => npc_opinions gs
       end;
     flags :=
       match DiplomacyEngine.eff_flags effects with
       | Some d => object_assign (flags gs) d
       | None => flags gs
       end |}.

(** A game state whose numeric properties all hold numbers. *)
Definition of_state (gs : DiplomacyEngine.GameState) : GameState :=
  {| factions := Num <$> DiplomacyEngine.factions gs;
     player_traits := Num <$> DiplomacyEngine.player_traits gs;
     npc_opinions := Num <$> DiplomacyEngine.npc_opinions gs;
     flags := DiplomacyEngine.flags gs |}.

(** No key of the object is an inherited name. *)
Definition plain_keys {V} (o : gmap string V) : bool :=
  forallb (λ kv, negb (is_inherited kv.1)) (entries o).

(** An effects object that names no inherited property. *)
Definition plain_effects (e : DiplomacyEngine.Effects) : bool :=
  plain_keys (default ∅ (DiplomacyEngine.eff_factions e))
  && plain_keys (default ∅ (DiplomacyEngine.eff_player_traits e))
  && plain_keys (default ∅ (DiplomacyEngine.eff_npc_opinions e))
  && plain_keys (default ∅ (DiplomacyEngine.eff_flags e)).

(** A value that is a number of [-100, 100], or NaN under an inherited
    name. *)
Definition number_or_NaN (k : string) (v : value) : Prop :=
  match v with
  | Num z => -100 ≤ z ≤ 100
  | NaN => is_inherited k = true
  | Text => False
  end.

Definition settled (m : gmap string value) : Prop :=
  ∀ k v, m !! k = Some v → number_or_NaN k v.

(** The invariant of a playthrough as the code keeps it. *)
Definition settled_state (gs : GameState) : Prop :=
  settled (factions gs) ∧ settled (npc_opinions gs).

(** The state after a sequence of [applyEffects] calls. *)
Definition applyAll (gs : GameState) (calls : list DiplomacyEngine.Effects) : GameState :=
  foldl applyEffects gs calls.

End Prototype.

(** ** AI worker (src/unnamed/part_002): rule lookup and anti-spiral guard *)

Module AIWorker.
Import DiplomacyEngine.

(** What a condition expects for one analysis field: an array of values or
    a single value. *)
Inductive expected :=
  | ExpectedList (values : list string)
  | ExpectedValue (value : string).

(** The value of one analysis field: an array of labels or a single label.
    A field the analysis does not have is [None] in the map lookup. *)
Inductive actual :=
  | ActualList (values : list string)
  | ActualValue (value : string).

Record Mapping := mkMapping {
  condition : gmap string expected;
  effects : Effects
}.

Record AiDialogue := mkAiDialogue { effects_mapping : list Mapping }.

Record Act := mkAct {
  scene : string;
  ai_dialogue : option AiDialogue
}.

Record NpcRules := mkNpcRules { fallback_rule : option string }.

(** The callback of [expectedValues.some(...)]. *)
Definition some_callback (actualValue : option actual) (expected : string) : bool :=
  match actualValue with
  | Some (ActualList vs) => existsb (λ v, String.eqb v expected) vs
  | Some (ActualValue v) => String.eqb v expected
  | None => false
  end.

(** One turn of the loop of [matchesCondition]: [true] when the loop goes
    on, [false] when it returns false. *)
Definition key_passes (actualValue : option actual) (expectedValues : expected) : bool :=
  match expectedValues with
  | ExpectedList es => existsb (some_callback actualValue) es
  | ExpectedValue e =>
      match actualValue with
      | Some (ActualValue v) => String.eqb v e
      | _ => false
      end
  end.

(** [matchesCondition], the same text in part_002 and in
    diplomacy_engine.js. *)
Definition matchesCondition (condition : gmap string expected)
    (analysis : gmap string actual) : bool :=
  forallb (λ kv, key_passes (analysis !! kv.1) kv.2) (entries condition).

Definition getDefaultEffects : Effects :=
  {| eff_factions := Some ∅;
     eff_player_traits := Some ∅;
     eff_npc_opinions := Some ∅;
     eff_flags := Some ∅ |}.

(** The object literal returned for a matching mapping: [x || {}] for each
    of the four sub-maps. *)
Definition with_defaults (e : Effects) : Effects :=
  {| eff_factions := Some (default ∅ (eff_factions e));
     eff_player_traits := Some (default ∅ (eff_player_traits e));
     eff_npc_opinions := Some (default ∅ (eff_npc_opinions e));
     eff_flags := Some (default ∅ (eff_flags e)) |}.

(** The loop over the mappings; [None] when it runs to its end. *)
Fixpoint scan_mappings (mappings : list Mapping) (analysis : gmap string actual)
    : option Effects :=
  match mappings with
  | [] => None
  | mapping :: rest =>
      if matchesCondition (condition mapping) analysis
      then Some (with_defaults (effects mapping))
      else scan_mappings rest analysis
  end.

Definition calculateDiplomacyEffects (acts : list Act) (npcId sceneId : string)
    (analysis : gmap string actual) (gameState : GameState) : Effects :=
  match find (λ a, String.eqb (scene a) sceneId) acts with
  | None => getDefaultEffects
  | Some sc =>
      match ai_dialogue sc with
      | None => getDefaultEffects
      | Some ad =>
          match scan_mappings (effects_mapping ad) analysis with
          | Some e => e
          | None => getDefaultEffects
          end
      end
  end.

Definition softLockThreshold : Z := -40.
Definition hardLockThreshold : Z := -80.

(** [if (o[k] < 0) o[k] = f(o[k])]; a missing entry is not below zero. *)
Definition rewrite_negative (f : Z → Z) (k : string) (o : gmap string Z) : gmap string Z :=
  match o !! k with
  | Some d => if d <? 0 then <[k := f d]> o else o
  | None => o
  end.

(** The two tests of [applyFallbackProtections] once the predicted opinion
    is the number [currentOpinion + opinionDelta]. *)
Definition soften_and_neutralize (npcId : string) (effects : Effects)
    (opinions : gmap string Z) (currentOpinion opinionDelta : Z) : Effects :=
  let predictedOpinion := currentOpinion + opinionDelta in
  let softened :=
    if predictedOpinion <? softLockThreshold
    then rewrite_negative (λ d, Z.max d (-3)) npcId opinions
    else opinions in
  let neutralized :=
    if predictedOpinion <? hardLockThreshold
    then rewrite_negative (λ _, 0) npcId softened
    else softened in
  {| eff_factions := eff_factions effects;
     eff_player_traits := eff_player_traits effects;
     eff_npc_opinions := Some neutralized;
     eff_flags := eff_flags effects |}.

(** [applyFallbackProtections] changes [effects] in place; the changed
    object is returned here.  [npc_rules] is
    [this.diplomacyRules.npc_rules].

    [npcRules] is truthy for an id with an entry in the table.  It is truthy
    also for an id without an entry that names an inherited property
    ([npc_rules[npcId]] is then a function or an object, without
    [fallback_rule]): the function goes on, and where the opinion or the
    component is not recorded either, the predicted opinion is no number and
    both tests fail. *)
Definition applyFallbackProtections (npc_rules : gmap string NpcRules)
    (npcId : string) (effects : Effects) (gameState : GameState) : result Effects :=
  match npc_rules !! npcId with
  | None =>
      if is_inherited npcId then
        match eff_npc_opinions effects with
        | None => Thrown TypeError
        | Some opinions =>
            match number_or0 (npc_opinions gameState) npcId,
                  number_or0 opinions npcId with
            | Some currentOpinion, Some opinionDelta =>
                Returned (soften_and_neutralize npcId effects opinions
                            currentOpinion opinionDelta)
            | _, _ => Returned effects
            end
        end
      else Returned effects
  | Some npcRules =>
      match eff_npc_opinions effects with
      | None => Thrown TypeError
      | Some opinions =>
          let currentOpinion := or0 (npc_opinions gameState !! npcId) in
          let opinionDelta := or0 (opinions !! npcId) in
          Returned (soften_and_neutralize npcId effects opinions
                      currentOpinion opinionDelta)
      end
  end.

(** [calculateDiplomacyEffects] hands out the sub-objects of the matching
    mapping themselves ([mapping.effects.npc_opinions || {}]), so what
    [applyFallbackProtections] writes into [effects.npc_opinions] it writes
    into the scene table.  [store_in_mappings] is the list of mappings after
    the call has left [opinions] there: the first matching mapping has them,
    unless it had no [npc_opinions], in which case the delta got a fresh
    object and the table is as before. *)
Fixpoint store_in_mappings (mappings : list Mapping) (analysis : gmap string actual)
    (opinions : gmap string Z) : list Mapping :=
  match mappings with
  | [] => []
  | mapping :: rest =>
      if matchesCondition (condition mapping) analysis then
        match eff_npc_opinions (effects mapping) with
        | Some _ =>
            {| condition := condition mapping;
               effects := {| eff_factions := eff_factions (effects mapping);
                             eff_player_traits := eff_player_traits (effects mapping);
                             eff_npc_opinions := Some opinions;
                             eff_flags := eff_flags (effects mapping) |} |} :: rest
        | None => mapping :: rest
        end
      else mapping :: store_in_mappings rest analysis opinions
  end.

(** The scene table after the call: the scene that
    [calculateDiplomacyEffects] found is the one written to. *)
Fixpoint store_opinions (acts : list Act) (sceneId : string)
    (analysis : gmap string actual) (opinions : gmap string Z) : list Act :=
  match acts with
  | [] => []
  | a :: rest =>
      if String.eqb (scene a) sceneId then
        match ai_dialogue a with
        | Some ad =>
            {| scene := scene a;
               ai_dialogue :=
                 Some {| effects_mapping :=
                           store_in_mappings (effects_mapping ad) analysis opinions |} |}
            :: rest
        | None => a :: rest
        end
      else a :: store_opinions rest sceneId analysis opinions
  end.

(** The opinion of [npcId] once the engine has applied the guarded delta
    ([this.diplomacy.applyEffects(result.diplomacyEffects)]). *)
Definition opinion_after (gameState : GameState) (guarded : Effects) (npcId : string)
    : option Z :=
  npc_opinions (applyEffects gameState guarded) !! npcId.

(** The delta's opinion component for one character. *)
Definition opinion_component (e : Effects) (npcId : string) : option Z :=
  eff_npc_opinions e ≫= (λ o, o !! npcId).

End AIWorker.

(** ** Diplomacy engine, the scene tables (src/data/diplomacy_engine.js) *)

Module DiplomacyRules.
Import DiplomacyEngine AIWorker.

(** One entry of a scene's [choices] or [linear_choices]; [ce_effects] is
    [None] when the entry has no [effects] property. *)
Record ChoiceEffects := mkChoiceEffects {
  ce_id : string;
  ce_effects : option Effects
}.

(** One entry of [moduleDiplomacy.acts]. *)
Record SceneEntry := mkSceneEntry {
  se_scene : string;
  se_choices : option (list ChoiceEffects);
  se_linear_choices : option (list ChoiceEffects);
  se_ai_dialogue : option AiDialogue
}.

Definition find_scene (acts : list SceneEntry) (sceneId : string) : option SceneEntry :=
  find (λ a, String.eqb (se_scene a) sceneId) acts.

Definition find_choice (cs : list ChoiceEffects) (choiceId : string)
    : option ChoiceEffects :=
  find (λ c, String.eqb (ce_id c) choiceId) cs.

(** [applyChoice]; the state after the call is returned.  A choice found
    without [effects] makes [applyEffects] read a property of [undefined]. *)
Definition applyChoice (acts : list SceneEntry) (sceneId choiceId : string)
    (gs : GameState) : result GameState :=
  match find_scene acts sceneId with
  | None => Returned gs
  | Some sc =>
      let choice :=
        match se_choices sc with
        | Some cs => find_choice cs choiceId
        | None =>
            match se_linear_choices sc with
            | Some ls => find_choice ls choiceId
            | None => None
            end
        end in
      match choice with
      | None => Returned gs
      | Some c =>
          match ce_effects c with
          | Some e => Returned (applyEffects gs e)
          | None => Thrown TypeError
          end
      end
  end.

(** The loop of [applyAIDialogue] over the mappings. *)
Fixpoint apply_first_match (mappings : list Mapping) (analysis : gmap string actual)
    (gs : GameState) : GameState :=
  match mappings with
  | [] => gs
  | mapping :: rest =>
      if matchesCondition (condition mapping) analysis
      then applyEffects gs (effects mapping)
      else apply_first_match rest analysis gs
  end.

(** [applyAIDialogue]; [matchesCondition] has the text of the worker's. *)
Definition applyAIDialogue (acts : list SceneEntry) (sceneId : string)
    (analysis : gmap string actual) (gs : GameState) : GameState :=
  match find_scene acts sceneId with
  | None => gs
  | Some sc =>
      match se_ai_dialogue sc with
      | None => gs
      | Some ad => apply_first_match (effects_mapping ad) analysis gs
      end
  end.

(** What the AI worker reads of a scene entry. *)
Definition as_act (e : SceneEntry) : Act :=
  {| scene := se_scene e; ai_dialogue := se_ai_dialogue e |}.

(** One call on the engine that changes the game state. *)
Inductive call :=
  | CallChoice (sceneId choiceId : string)
  | CallAIDialogue (sceneId : string) (analysis : gmap string actual)
  | CallEffects (effects : Effects).

(** The state after a call; a call that throws has changed nothing. *)
Definition after_call (acts : list SceneEntry) (gs : GameState) (c : call) : GameState :=
  match c with
  | CallChoice sceneId choiceId =>
      match applyChoice acts sceneId choiceId gs with
      | Returned gs' => gs'
      | Thrown _ => gs
      end
  | CallAIDialogue sceneId analysis => applyAIDialogue acts sceneId analysis gs
  | CallEffects effects => applyEffects gs effects
  end.

(** The five tiers from the lowest to the highest. *)
Definition tier_rank (tier : string) : nat :=
  if String.eqb tier "HOSTILE" then 0
  else if String.eqb tier "COLD" then 1
  else if String.eqb tier "NEUTRAL" then 2
  else if String.eqb tier "FRIENDLY" then 3
  else 4.

End DiplomacyRules.

(** ** Diplomacy engine, the scene tables, on every property name *)

(** [applyChoice] and [applyAIDialogue] over the game state of
    [Prototype]. *)
Module PrototypeRules.
Import AIWorker DiplomacyRules.

Definition applyChoice (acts : list SceneEntry) (sceneId choiceId : string)
    (gs : Prototype.GameState) : result Prototype.GameState :=
  match find_scene acts sceneId with
  | None => Returned gs
  | Some sc =>
      let choice :=
        match se_choices sc with
        | Some cs => find_choice cs choiceId
        | None =>
            match se_linear_choices sc with
            | Some ls => find_choice ls choiceId
            | None => None
            end
        end in
      match choice with
      | None => Returned gs
      | Some c =>
          match ce_effects c with
          | Some e => Returned (Prototype.applyEffects gs e)
          | None => Thrown TypeError
          end
      end
  end.

Fixpoint apply_first_match (mappings : list Mapping) (analysis : gmap string actual)
    (gs : Prototype.GameState) : Prototype.GameState :=
  match mappings with
  | [] => gs
  | mapping :: rest =>
      if matchesCondition (condition mapping) analysis
      then Prototype.applyEffects gs (effects mapping)
      else apply_first_match rest analysis gs
  end.

Definition applyAIDialogue (acts : list SceneEntry) (sceneId : string)
    (analysis : gmap string actual) (gs : Prototype.GameState) : Prototype.GameState :=
  match find_scene acts sceneId with
  | None => gs
  | Some sc =>
      match se_ai_dialogue sc with
      | None => gs
      | Some ad => apply_first_match (effects_mapping ad) analysis gs
      end
  end.

(** The state after a call; a call that throws has changed nothing. *)
Definition after_call (acts : list SceneEntry) (gs : Prototype.GameState) (c : call)
    : Prototype.GameState :=
  match c with
  | CallChoice sceneId choiceId =>
      match applyChoice acts sceneId choiceId gs with
      | Returned gs' => gs'
      | Thrown _ => gs
      end
  | CallAIDialogue sceneId analysis => applyAIDialogue acts sceneId analysis gs
  | CallEffects effects => Prototype.applyEffects gs effects
  end.

End PrototypeRules.

(** ** AI worker (src/unnamed/part_002): profiles and the dialogue turn *)

Module Dialogue.
Import DiplomacyEngine AIWorker.

(** What a call of the worker can throw. *)
Inductive worker_error :=
  | Js (e : js_error)
  | NpcDataNotLoaded
  | NpcDataMalformed
  | NpcMissing (npcId : string)
  | NpcNotAvailable (npcId sceneId : string)
  | AiAnalysisFailed.

Inductive attempt (A : Type) :=
  | Done (a : A)
  | Failed (e : worker_error).
Arguments Done {A} a.
Arguments Failed {A} e.

(** A document that should list characters: an object with an [npcs] array,
    a bare array, or something with neither. *)
Inductive listing (A : Type) :=
  | Wrapped (items : list A)
  | Bare (items : list A)
  | NotAList.
Arguments Wrapped {A} items.
Arguments Bare {A} items.
Arguments NotAList {A}.

Section values.
(** The values of the free-form fields of a character record, with their
    truthiness. *)
Variable value : Type.
Variable truthy_value : value → bool.

(** A character record of npcs.json or of the AI profiles: its [id], its
    [scene_scope] when it has one, and its other properties. *)
Record Npc := mkNpc {
  npc_id : string;
  scene_scope : option (list string);
  npc_fields : gmap string value
}.

Record Worker := mkWorker {
  npcs : option (listing Npc);
  aiProfiles : option (listing Npc);
  npc_rules : gmap string NpcRules;
  acts : list Act;
  npcCache : gmap string Npc
}.

Definition with_cache (w : Worker) (cache : gmap string Npc) : Worker :=
  {| npcs := npcs w; aiProfiles := aiProfiles w; npc_rules := npc_rules w;
     acts := acts w; npcCache := cache |}.

Definition with_acts (w : Worker) (table : list Act) : Worker :=
  {| npcs := npcs w; aiProfiles := aiProfiles w; npc_rules := npc_rules w;
     acts := table; npcCache := npcCache w |}.

(** [src.npcs || src] when that is an array. *)
Definition array_of {A} (src : listing A) : option (list A) :=
  match src with
  | Wrapped items => Some items
  | Bare items => Some items
  | NotAList => None
  end.

Definition find_npc (items : list Npc) (npcId : string) : option Npc :=
  find (λ n, String.eqb (npc_id n) npcId) items.

(** [aiProfile?.k || baseProfile.k] *)
Definition prefer (aiProfile : option Npc) (baseProfile : Npc) (k : string) : option value :=
  match aiProfile ≫= (λ a, npc_fields a !! k) with
  | Some v => if truthy_value v then Some v else npc_fields baseProfile !! k
  | None => npc_fields baseProfile !! k
  end.

(** [o[k] = v] in an object literal, where a property set to [undefined]
    reads like a missing one. *)
Definition set_field (k : string) (v : option value) (o : gmap string value)
    : gmap string value :=
  match v with
  | Some x => <[k := x]> o
  | None => delete k o
  end.

(** The object literal [fullProfile]: the two spreads, then the three
    properties named after them. *)
Definition fullProfile (baseProfile : Npc) (aiProfile : option Npc) : Npc :=
  let spread :=
    match aiProfile with
    | Some a =>
        {| npc_id := npc_id a;
           scene_scope := match scene_scope a with
                          | Some sc => Some sc
                          | None => scene_scope baseProfile
                          end;
           npc_fields := npc_fields a ∪ npc_fields baseProfile |}
    | None => baseProfile
    end in
  {| npc_id := npc_id spread;
     scene_scope := scene_scope spread;
     npc_fields :=
       set_field "dialogue_output_rules"
         (prefer aiProfile baseProfile "dialogue_output_rules")
         (set_field "alignment_behavior"
            (prefer aiProfile baseProfile "alignment_behavior")
            (set_field "persona" (prefer aiProfile baseProfile "persona")
               (npc_fields spread))) |}.

(** [getNPCProfile]: the profile or the error, and the worker with its cache
    as the call leaves it. *)
Definition getNPCProfile (w : Worker) (npcId : string) : attempt Npc * Worker :=
  match npcCache w !! npcId with
  | Some cached => (Done cached, w)
  | None =>
      match npcs w with
      | None => (Failed NpcDataNotLoaded, w)
      | Some src =>
          match array_of src with
          | None => (Failed NpcDataMalformed, w)
          | Some npcList =>
              match find_npc npcList npcId with
              | None => (Failed (NpcMissing npcId), w)
              | Some baseProfile =>
                  let aiProfile :=
                    match aiProfiles w with
                    | Some aiSrc =>
                        match array_of aiSrc with
                        | Some aiProfileList => find_npc aiProfileList npcId
                        | None => None
                        end
                    | None => None
                    end in
                  let profile := fullProfile baseProfile aiProfile in
                  (Done profile, with_cache w (<[npcId := profile]> (npcCache w)))
              end
          end
      end
  end.

(** [isNPCAllowedInScene]: it reads [this.aiProfiles.npcs] and
    [aiProfile.scene_scope] without a test. *)
Definition isNPCAllowedInScene (w : Worker) (npcId sceneId : string) : attempt bool :=
  match aiProfiles w with
  | Some (Wrapped items) =>
      match find_npc items npcId with
      | None => Done false
      | Some aiProfile =>
          match scene_scope aiProfile with
          | Some scope => Done (existsb (String.eqb sceneId) scope)
          | None => Failed (Js TypeError)
          end
      end
  | _ => Failed (Js TypeError)
  end.

(** What [startDialogue] returns. *)
Record DialogueResult := mkDialogueResult {
  npcResponse : string;
  analysis : gmap string actual;
  diplomacyEffects : Effects;
  profile_id : string;
  profile_name : option value
}.

(** [startDialogue]; [aiResult] is what [aiClient.analyzeDialogue] gives when
    it is reached: the reply with its analysis, or [None] when it throws.
    The worker is returned as the call leaves it: with the profile cached,
    and with the opinions of the delta, as the guard has left them, in the
    mapping of the scene table they were taken from. *)
Definition startDialogue (w : Worker) (npcId sceneId : string)
    (aiResult : option (string * gmap string actual)) (gameState : GameState)
    : attempt DialogueResult * Worker :=
  match getNPCProfile w npcId with
  | (Failed e, w') => (Failed e, w')
  | (Done npcProfile, w') =>
      match isNPCAllowedInScene w' npcId sceneId with
      | Failed e => (Failed e, w')
      | Done false => (Failed (NpcNotAvailable npcId sceneId), w')
      | Done true =>
          match aiResult with
          | None => (Failed AiAnalysisFailed, w')
          | Some (response, analysis) =>
              let computed :=
                calculateDiplomacyEffects (acts w') npcId sceneId analysis gameState in
              match applyFallbackProtections (npc_rules w') npcId computed gameState with
              | Thrown e => (Failed (Js e), w')
              | Returned guarded =>
                  (Done {| npcResponse := response;
                           analysis := analysis;
                           diplomacyEffects := guarded;
                           profile_id := npcId;
                           profile_name := npc_fields npcProfile !! "name" |},
                   with_acts w'
                     (store_opinions (acts w') sceneId analysis
                        (default ∅ (eff_npc_opinions guarded))))
              end
          end
      end
  end.

(** One turn of free dialogue as the engine runs it
    ([handleAIDialogueSubmit]): [startDialogue], then [applyEffects] on the
    delta it returns; when it throws nothing is applied. *)
Definition dialogue_turn (npcId sceneId : string)
    (state : Worker * GameState) (aiResult : option (string * gmap string actual))
    : Worker * GameState :=
  match startDialogue state.1 npcId sceneId aiResult state.2 with
  | (Done r, w') => (w', applyEffects state.2 (diplomacyEffects r))
  | (Failed _, w') => (w', state.2)
  end.

End values.

Arguments mkNpc {value}.
Arguments npc_id {value}.
Arguments scene_scope {value}.
Arguments npc_fields {value}.
Arguments mkWorker {value}.
Arguments npcs {value}.
Arguments aiProfiles {value}.
Arguments npc_rules {value}.
Arguments acts {value}.
Arguments npcCache {value}.
Arguments with_cache {value}.
Arguments with_acts {value}.
Arguments find_npc {value}.
Arguments getNPCProfile {value}.
Arguments isNPCAllowedInScene {value}.
Arguments npcResponse {value}.
Arguments analysis {value}.
Arguments diplomacyEffects {value}.
Arguments profile_id {value}.
Arguments profile_name {value}.
Arguments startDialogue {value}.
Arguments dialogue_turn {value}.

End Dialogue.

(** ** Narrative state machine (src/state_machine.js) *)

Module StateMachine.

(** One entry of [state.choices]; [c_next] is [None] when the choice has no
    [next] property. *)
Record Choice := mkChoice {
  c_id : string;
  c_next : option string
}.

(** One entry of [state.transitions]. *)
Record Transition := mkTransition { t_to : option string }.

(** A node of the graph.  [choices] and [transitions] are [None] when the
    node has no such property (an empty array is present, hence truthy);
    [ai_dialogue] holds the [npc_id] of the descriptor. *)
Record State := mkState {
  s_type : string;
  choices : option (list Choice);
  transitions : option (list Transition);
  ai_dialogue : option string
}.

Record HistoryRecord := mkHistoryRecord {
  h_from : string;
  h_to : string;
  h_choice : option string;
  h_timestamp : Z
}.

Record Machine := mkMachine {
  states : gmap string State;
  currentState : string;
  exitState : string;
  history : list HistoryRecord
}.

(** The constructor; [states], [entry_state], [exit_state] come from the
    state-machine document. *)
Definition new (states : gmap string State) (entry_state exit_state : string) : Machine :=
  {| states := states; currentState := entry_state; exitState := exit_state;
     history := [] |}.

(** [getCurrentState]: the node under the cursor, [None] when the graph has
    no node of that name. *)
Definition getCurrentState (sm : Machine) : option State :=
  states sm !! currentState sm.

(** Truthiness of a value that is a string, [null] or [undefined]. *)
Definition truthy (v : option string) : bool :=
  match v with
  | Some s => negb (String.eqb s "")
  | None => false
  end.

(** Truthiness of a property that holds an array or object when present. *)
Definition present {A} (v : option A) : bool :=
  match v with
  | Some _ => true
  | None => false
  end.

(** [c.id === choiceId] *)
Definition choice_is (choiceId : option string) (c : Choice) : bool :=
  match choiceId with
  | Some i => String.eqb (c_id c) i
  | None => false
  end.

(** [state.transitions[0].to]: a TypeError on an empty or missing array. *)
Definition first_to (ts : option (list Transition)) : result (option string) :=
  match ts with
  | Some (t :: _) => Returned (t_to t)
  | _ => Thrown TypeError
  end.

(** The value of [nextState] when the chain of tests is over. *)
Definition nextState_of (state : State) (choiceId : option string)
    : result (option string) :=
  if String.eqb (s_type state) "scene" && present (choices state) then
    match find (choice_is choiceId) (default [] (choices state)) with
    | Some choice => Returned (c_next choice)
    | None =>
        if negb (truthy choiceId) && present (transitions state)
        then first_to (transitions state)
        else Returned None
    end
  else if String.eqb (s_type state) "hub" && present (transitions state) then
    if negb (truthy choiceId)
       && (0 <? Z.of_nat (length (default [] (transitions state))))
    then first_to (transitions state)
    else Returned None
  else if String.eqb (s_type state) "ai_dialogue" && present (transitions state) then
    first_to (transitions state)
  else if String.eqb (s_type state) "system" && present (transitions state) then
    first_to (transitions state)
  else Returned None.

(** [transition(choiceId)]; [now] is the reading of [Date.now()].  The
    machine is returned next to the outcome, so that a throw shows the state
    it leaves behind.  With the cursor on a name that is no node but an
    inherited property, [state] is a function or an object without [type]:
    no branch is taken and the second error is thrown. *)
Definition transition (now : Z) (choiceId : option string) (sm : Machine)
    : result (option State) * Machine :=
  match getCurrentState sm with
  | None =>
      if is_inherited (currentState sm)
      then (Thrown (NoValidTransition (currentState sm) choiceId), sm)
      else (Thrown (StateNotFound (currentState sm)), sm)
  | Some state =>
      match nextState_of state choiceId with
      | Thrown e => (Thrown e, sm)
      | Returned nextState =>
          if negb (truthy nextState)
          then (Thrown (NoValidTransition (currentState sm) choiceId), sm)
          else
            let target := default "" nextState in
            let sm' :=
              {| states := states sm;
                 currentState := target;
                 exitState := exitState sm;
                 history := history sm ++
                   [ {| h_from := currentState sm; h_to := target;
                        h_choice := choiceId; h_timestamp := now |} ] |} in
            (Returned (getCurrentState sm'), sm')
      end
  end.

Definition isFinished (sm : Machine) : bool :=
  String.eqb (currentState sm) (exitState sm).

Definition getHistory (sm : Machine) : list HistoryRecord := history sm.

End StateMachine.

(** ** Game engine (src/unnamed/part_003): going back *)

Module GameEngine.
Import StateMachine.

(** What the engine sees of its collaborators: whether the AI worker and the
    AI client were created, the global switch, and whether the worker can
    load the profile of a character ([getNPCProfile] throws when not).  The
    renderer only draws; its calls return and leave the machine alone. *)
Record Env := mkEnv {
  aiWorker : bool;
  aiClient : bool;
  AI_PROXY_ENABLED : bool;
  profile_loads : string → bool
}.

(** [history.pop()]: the array without its last element, and that element. *)
Fixpoint pop {A} (l : list A) : option (list A * A) :=
  match l with
  | [] => None
  | [x] => Some ([], x)
  | x :: rest =>
      match pop rest with
      | Some (init, lastElement) => Some (x :: init, lastElement)
      | None => None
      end
  end.

(** [state.choices?.[0]?.next || state.transitions?.[0]?.to] *)
Definition nextTransition (state : State) : option string :=
  let viaChoice :=
    match choices state with
    | Some (c :: _) => c_next c
    | _ => None
    end in
  if truthy viaChoice then viaChoice
  else match transitions state with
       | Some (t :: _) => t_to t
       | _ => None
       end.

(** [handleSceneState]: draws the scene and registers callbacks; the one
    thing that can throw is loading the profile shown ahead of a hub. *)
Definition handleSceneState (env : Env) (sm : Machine) (state : State) : result unit :=
  let next := nextTransition state in
  if truthy next && aiWorker env then
    match states sm !! default "" next with
    | Some nextState =>
        match ai_dialogue nextState with
        | Some npc_id =>
            if String.eqb (s_type nextState) "hub" && negb (profile_loads env npc_id)
            then Thrown (NpcNotFound npc_id)
            else Returned tt
        | None => Returned tt
        end
    | None => Returned tt
    end
  else Returned tt.

(** Whether [processCurrentState] moves on from this node at once: system
    and ai_dialogue nodes always, a hub when there is no AI dialogue to offer
    or when offering it throws. *)
Definition moves_on (env : Env) (state : State) : bool :=
  String.eqb (s_type state) "system"
  || String.eqb (s_type state) "ai_dialogue"
  || (String.eqb (s_type state) "hub"
      && match ai_dialogue state with
         | Some npc_id =>
             negb (AI_PROXY_ENABLED env && aiWorker env && aiClient env)
             || negb (profile_loads env npc_id)
         | None => true
         end).

(** [processCurrentState], as far as the machine is concerned.  Each
    automatic [transition()] takes the next reading of the clock; the list of
    readings bounds the depth of the recursion, which JS bounds by its call
    stack. *)
Fixpoint processCurrentState (env : Env) (clock : list Z) (sm : Machine)
    : result unit * Machine :=
  match getCurrentState sm with
  | None => (Thrown TypeError, sm)
  | Some state =>
      if moves_on env state then
        match clock with
        | [] => (Thrown StackExhausted, sm)
        | now :: later =>
            match transition now None sm with
            | (Thrown e, sm') => (Thrown e, sm')
            | (Returned _, sm') => processCurrentState env later sm'
            end
        end
      else if String.eqb (s_type state) "scene"
      then (handleSceneState env sm state, sm)
      else (Returned tt, sm)
  end.

(** [navigateBack] *)
Definition navigateBack (env : Env) (clock : list Z) (sm : Machine)
    : result unit * Machine :=
  match pop (history sm) with
  | None => (Returned tt, sm)
  | Some (rest, lastTransition) =>
      processCurrentState env clock
        {| states := states sm;
           currentState := h_from lastTransition;
           exitState := exitState sm;
           history := rest |}
  end.

End GameEngine.

(** ** Game engine (src/unnamed/part_003): a choice, and runs of the machine *)

Module Play.
Import DiplomacyEngine DiplomacyRules StateMachine GameEngine.

(** The records of a history lead from [start] to [finish], each one
    beginning where the one before ended. *)
Fixpoint linked (start : string) (h : list HistoryRecord) (finish : string) : Prop :=
  match h with
  | [] => finish = start
  | r :: rest => h_from r = start ∧ linked (h_to r) rest finish
  end.

(** The machine after a series of [transition] calls, each with its clock
    reading and its choice id; a call that throws is passed over. *)
Definition run (sm : Machine) (calls : list (Z * option string)) : Machine :=
  foldl (λ sm call, (transition call.1 call.2 sm).2) sm calls.

(** [handleChoice]: the diplomacy effects of the choice, the transition,
    then the processing of the node reached.  [now] is the clock reading of
    the transition, [clock] those of the automatic transitions after it. *)
Definition handleChoice (acts : list SceneEntry) (env : Env) (now : Z) (clock : list Z)
    (sceneId choiceId : string) (world : GameState * Machine)
    : result unit * (GameState * Machine) :=
  match applyChoice acts sceneId choiceId world.1 with
  | Thrown e => (Thrown e, world)
  | Returned gs' =>
      match transition now (Some choiceId) world.2 with
      | (Thrown e, sm') => (Thrown e, (gs', sm'))
      | (Returned _, sm') =>
          let (r, sm'') := processCurrentState env clock sm' in
          (r, (gs', sm''))
      end
  end.

End Play.

(** ** AI client (src/ai_client.js): parsing the model's reply *)

Module AIClient.

Section host.
(** The JS numbers a JSON text can hold, with the test for 0 and -0. *)
Variable number : Type.
Variable is_zero : number → bool.

(** A value produced by [JSON.parse]; an object lists each key once. *)
#[warnings="-register-all"]
Inductive json :=
  | JNull
  | JBool (b : bool)
  | JNumber (n : number)
  | JString (s : string)
  | JArray (items : list json)
  | JObject (fields : list (string * json)).

(** Built-ins of the host: [String.prototype.trim], the two [replace] calls
    with the patterns for a json code fence and for a bare code fence (each
    with the white space after it, every occurrence), and [JSON.parse],
    [None] when it throws a SyntaxError. *)
Variable trim : string → string.
Variable replace_json_fence : string → string.
Variable replace_fence : string → string.
Variable JSON_parse : string → option json.

Fixpoint assoc (key : string) (fields : list (string * json)) : option json :=
  match fields with
  | [] => None
  | (k, v) :: rest => if String.eqb k key then Some v else assoc key rest
  end.

(** [v.key]: a TypeError on [null], [undefined] on a value that has no such
    property (strings, numbers, booleans and arrays have none of the names
    read here). *)
Definition get (v : json) (key : string) : result (option json) :=
  match v with
  | JNull => Thrown TypeError
  | JObject fields => Returned (assoc key fields)
  | _ => Returned None
  end.

(** Truthiness of a property that was read. *)
Definition truthy (v : option json) : bool :=
  match v with
  | None => false
  | Some JNull => false
  | Some (JBool b) => b
  | Some (JNumber n) => negb (is_zero n)
  | Some (JString s) => negb (String.eqb s "")
  | Some (JArray _) => true
  | Some (JObject _) => true
  end.

Definition cleanText (responseText : string) : string :=
  trim (replace_fence (replace_json_fence (trim responseText))).

(** [throw] inside the [try] block. *)
Definition check (ok : bool) (e : js_error) : result unit :=
  if ok then Returned tt else Thrown e.

Definition and_then {A B} (r : result A) (k : A → result B) : result B :=
  match r with
  | Returned a => k a
  | Thrown e => Thrown e
  end.

(** The body of the [try] block. *)
Definition parse_and_validate (responseText : string) : result json :=
  match JSON_parse (cleanText responseText) with
  | None => Thrown SyntaxError
  | Some parsed =>
      and_then (get parsed "response") (λ response,
      and_then (check (truthy response) InvalidResponseStructure) (λ _,
      and_then (get parsed "analysis") (λ analysis,
      and_then (check (truthy analysis) InvalidResponseStructure) (λ _,
      and_then (get (default JNull analysis) "overall_tone") (λ overall_tone,
      and_then (check (truthy overall_tone) MissingAnalysisFields) (λ _,
      and_then (get (default JNull analysis) "detected_stance_towards_russia") (λ stance,
      and_then (check (truthy stance) MissingAnalysisFields) (λ _,
      Returned parsed))))))))
  end.

(** The object returned by the [catch] block. *)
Definition fallback : json :=
  JObject
    [ ("response", JString "Anteeksi, en voi nyt keskustella. Jatketaan myöhemmin.");
      ("analysis",
       JObject [ ("overall_tone", JArray [JString "neutral"]);
                 ("detected_stance_towards_russia", JString "neutral");
                 ("cooperativeness", JString "medium") ]) ].

(** [parseResponse]: the [try] block, and the [catch] that turns whatever
    was thrown into the fallback. *)
Definition parseResponse (responseText : string) : result json :=
  match parse_and_validate responseText with
  | Returned parsed => Returned parsed
  | Thrown _ => Returned fallback
  end.

(** The property [key] of [v], for the statement of what a reply lacks. *)
Definition field (v : json) (key : string) : option json :=
  match v with
  | JObject fields => assoc key fields
  | _ => None
  end.

End host.

Arguments JNull {number}.
Arguments JBool {number} b.
Arguments JNumber {number} n.
Arguments JString {number} s.
Arguments JArray {number} items.
Arguments JObject {number} fields.
Arguments fallback {number}.
Arguments field {number} v key.

End AIClient.

(** ** AI worker, safe version (src/unnamed/part_000): heuristic analysis *)

Module AIWorkerSafe.

Record Analysis := mkAnalysis {
  tone : string;
  themes : list string;
  sentiment : string
}.

(** Whether [kw] occurs in [s] as a run of consecutive characters. *)
Fixpoint includes (kw s : string) : bool :=
  String.prefix kw s
  || match s with
     | EmptyString => false
     | String _ rest => includes kw rest
     end.

(** [s.match(/k1|k2|.../)] for keywords free of pattern characters: truthy
    when some keyword occurs in [s]. *)
Definition matches (keywords : list string) (s : string) : bool :=
  existsb (λ kw, includes kw s) keywords.

Definition duty_terms : list string := ["velvollisuus"; "käsky"; "palvelen"; "totelen"].
Definition caution_terms : list string := ["epäilen"; "huolestun"; "riski"; "vaara"].
Definition refusal_terms : list string := ["kieltäy"; "en voi"; "vastustan"].
Definition agreement_terms : list string := ["ymmärrän"; "selvä"; "hyvä"].

Section host.
(** [String.prototype.toLowerCase] of the host. *)
Variable toLowerCase : string → string.

(** [analyzePlayerResponse]; the profile argument is not read. *)
Definition analyzePlayerResponse (playerText : string) : Analysis :=
  let lowerText := toLowerCase playerText in
  if matches duty_terms lowerText then
    {| tone := "loyal"; themes := ["duty"]; sentiment := "positive" |}
  else if matches caution_terms lowerText then
    {| tone := "concerned"; themes := ["caution"]; sentiment := "neutral" |}
  else if matches refusal_terms lowerText then
    {| tone := "defiant"; themes := ["resistance"]; sentiment := "negative" |}
  else if matches agreement_terms lowerText then
    {| tone := "cooperative"; themes := ["agreement"]; sentiment := "positive" |}
  else
    {| tone := "neutral"; themes := []; sentiment := "neutral" |}.

End host.

(** A keyword occurs in a text. *)
Definition occurs (kw s : string) : Prop :=
  ∃ before after, s = before +:+ kw +:+ after.

(** A text matches a family when one of the family's keywords occurs in it. *)
Definition in_family (keywords : list string) (s : string) : Prop :=
  ∃ kw, kw ∈ keywords ∧ occurs kw s.

(** A lowercasing for the examples: the letters A to Z only. *)
Definition ascii_lower (c : ascii) : ascii :=
  let n := nat_of_ascii c in
  if ((65 <=? n) && (n <=? 90))%nat then ascii_of_nat (n + 32) else c.

Fixpoint lower_ascii (s : string) : string :=
  match s with
  | EmptyString => EmptyString
  | String c rest => String (ascii_lower c) (lower_ascii rest)
  end.

End AIWorkerSafe.

(** ** AI client (src/ai_client.js): the checks of a reply, in one test *)

Module ReplyChecks.
Import AIClient.

Section host.
Variable number : Type.
Variable is_zero : number → bool.

(** The four tests of [parseResponse] on a parsed value: [response],
    [analysis], [analysis.overall_tone] and
    [analysis.detected_stance_towards_russia] all truthy. *)
Definition passes (parsed : json number) : bool :=
  truthy number is_zero (field parsed "response")
  && match field parsed "analysis" with
     | Some analysis =>
         truthy number is_zero (Some analysis)
         && truthy number is_zero (field analysis "overall_tone")
         && truthy number is_zero (field analysis "detected_stance_towards_russia")
     | None => false
     end.

End host.
End ReplyChecks.

(** ** AI client (src/ai_client.js): the active alignment behaviours *)

Module Alignments.
Import DiplomacyEngine.

(** One entry of a behaviour's [condition]: under the key [player_traits]
    an object of thresholds per trait, under any other key, read as a faction
    id, one threshold.  A threshold is the [min] property, [None] when there
    is none. *)
Inductive requirement :=
  | TraitThresholds (reqs : list (string * option Z))
  | FactionThreshold (faction : string) (min : option Z).

Record Behavior := mkBehavior {
  condition : list requirement;
  effect_on_tone : list (string * string);
  dialogue_bias : list string
}.

Record ActiveAlignment := mkActiveAlignment {
  description : string;
  effect : option string;
  bias : list string
}.

(** [actual >= (min || 0)]; a comparison with [undefined] is false. *)
Definition at_least (actual : option Z) (min : option Z) : bool :=
  match actual with
  | Some v => or0 min <=? v
  | None => false
  end.

(** One turn of the loop over the entries of the condition, on the flag
    [conditionMet]. *)
Definition check_entry (gameState : GameState) (conditionMet : bool) (r : requirement)
    : bool :=
  match r with
  | TraitThresholds reqs =>
      foldl (λ met req,
               if at_least (player_traits gameState !! req.1) req.2 then true else met)
        conditionMet reqs
  | FactionThreshold faction min =>
      if at_least (factions gameState !! faction) min then true else conditionMet
  end.

Definition conditionMet (gameState : GameState) (behavior : Behavior) : bool :=
  foldl (check_entry gameState) false (condition behavior).

Definition key_of (r : requirement) : string :=
  match r with
  | TraitThresholds _ => "player_traits"
  | FactionThreshold faction _ => faction
  end.

(** The object pushed for a behaviour whose condition is met. *)
Definition active_item (behavior : Behavior) : ActiveAlignment :=
  {| description :=
       match condition behavior with
       | r :: _ => key_of r +:+ " condition met"
       | [] => "undefined condition met"
       end;
     effect :=
       match effect_on_tone behavior with
       | kv :: _ => Some kv.2
       | [] => None
       end;
     bias := dialogue_bias behavior |}.

(** [getActiveAlignments] *)
Definition getActiveAlignments (alignmentBehavior : list Behavior) (gameState : GameState)
    : list ActiveAlignment :=
  foldl (λ active behavior,
           if conditionMet gameState behavior
           then active ++ [active_item behavior]
           else active)
    [] alignmentBehavior.

(** The selection made by [buildPrompt]: [.slice(0, 2)]. *)
Definition activeAlignments (alignmentBehavior : list Behavior) (gameState : GameState)
    : list ActiveAlignment :=
  take 2 (getActiveAlignments alignmentBehavior gameState).

(** A threshold of the entry is met in the game state. *)
Definition requirement_met (gameState : GameState) (r : requirement) : Prop :=
  match r with
  | TraitThresholds reqs =>
      ∃ trait min v,
        (trait, min) ∈ reqs ∧ player_traits gameState !! trait = Some v ∧ or0 min ≤ v
  | FactionThreshold faction min =>
      ∃ v, factions gameState !! faction = Some v ∧ or0 min ≤ v
  end.

(** Every value recorded in [m] is recorded in [m'], not lower. *)
Definition raised (m m' : gmap string Z) : Prop :=
  ∀ k v, m !! k = Some v → ∃ v', m' !! k = Some v' ∧ v ≤ v'.

End Alignments.

(** ** AI worker, safe version (src/unnamed/part_000): effects of an analysis *)

Module SafeEffects.
Import DiplomacyEngine AIWorkerSafe.

(** The property names every object literal inherits. *)
Definition inherited : list string := inherited_names.

(** [opinionChange[sentiment] || 0] on the table positive 5, neutral 0,
    negative -5: the table's number, 0 for a name the table does not know,
    and [None] for an inherited name, which reads a function or an object and
    not a number. *)
Definition opinionChange (sentiment : string) : option Z :=
  if String.eqb sentiment "positive" then Some 5
  else if String.eqb sentiment "neutral" then Some 0
  else if String.eqb sentiment "negative" then Some (-5)
  else if bool_decide (sentiment ∈ inherited) then None
  else Some 0.

(** [calculateDiplomacyEffects] of the safe worker: an effects object
    without [flags]; [None] stands for an opinion component that is not a
    number.  [npcId] is taken to be another name than [__proto__], the one
    name under which the assignment of the component leaves no property. *)
Definition calculateDiplomacyEffects (npcId sceneId : string) (analysis : Analysis)
    : option Effects :=
  match opinionChange (sentiment analysis) with
  | None => None
  | Some change =>
      Some {| eff_factions :=
                Some (if String.eqb (tone analysis) "loyal"
                      then {[ "RUS" := 3 ]} else ∅);
              eff_player_traits :=
                Some (if String.eqb (tone analysis) "loyal" then ∅
                      else if String.eqb (tone analysis) "defiant"
                           then {[ "INDEPENDENCE" := 3 ]}
                      else if String.eqb (tone analysis) "concerned"
                           then {[ "NEUTRALITY" := 2 ]}
                      else ∅);
              eff_npc_opinions := Some {[ npcId := change ]};
              eff_flags := None |}
  end.

Section host.
Variable toLowerCase : string → string.

(** The effects the safe worker's [startDialogue] returns for an utterance
    once the AI request has succeeded. *)
Definition effects_of_utterance (npcId sceneId playerText : string) : option Effects :=
  calculateDiplomacyEffects npcId sceneId (analyzePlayerResponse toLowerCase playerText).

(** One turn with the safe worker, as the engine runs it: the effects of the
    utterance handed to [applyEffects]. *)
Definition safe_turn (npcId sceneId : string) (gs : GameState) (playerText : string)
    : GameState :=
  match effects_of_utterance npcId sceneId playerText with
  | Some e => applyEffects gs e
  | None => gs
  end.

End host.

(** An utterance that the analyzer files under refusal. *)
Definition refuses (lowerText : string) : Prop :=
  ¬ in_family duty_terms lowerText
  ∧ ¬ in_family caution_terms lowerText
  ∧ in_family refusal_terms lowerText.

End SafeEffects.

(** ** AI worker, safe version (src/unnamed/part_000): the profile resolver *)

Module SafeProfiles.
Import AIWorkerSafe.

Section host.
(** [toLowerCase] and [toUpperCase] of the host, and the values an AI profile
    may hold besides texts and lists of texts, with their truthiness. *)
Variable toLowerCase : string → string.
Variable toUpperCase : string → string.
Variable value : Type.
Variable truthy_value : value → bool.

(** A property of a profile. *)
Inductive field :=
  | Text (s : string)
  | Items (l : list string)
  | Foreign (v : value).

Definition truthy_field (f : option field) : bool :=
  match f with
  | Some (Text s) => negb (String.eqb s "")
  | Some (Items _) => true
  | Some (Foreign v) => truthy_value v
  | None => false
  end.

(** A record of npcs.json, with its Finnish field names; each field is a
    text or is missing. *)
Record NpcData := mkNpcData {
  Nimi : option string;
  Tausta : option string;
  Motivaatiot : option string;
  Puhetapa : option string;
  Rooli : option string;
  Kasikirjoituksen_vaihe : option string
}.

(** A record of the AI profiles: its [id] and its other properties. *)
Record AiProfile := mkAiProfile {
  ai_id : string;
  ai_fields : gmap string field
}.

(** [x || d] on a text that may be missing. *)
Definition or_text (x : option string) (d : string) : string :=
  match x with
  | Some s => if String.eqb s "" then d else s
  | None => d
  end.

(** [getNPCName]: the table, else the id in upper case; [None] for an id
    that names an inherited property of the table, where the result is not a
    text. *)
Definition getNPCName (npcId : string) : option string :=
  if String.eqb npcId "trepov" then Some "Dmitri Trepov"
  else if String.eqb npcId "kf" then Some "K.F."
  else if String.eqb npcId "samsonov" then Some "Samsonov"
  else if String.eqb npcId "sokolov" then Some "Sokolov"
  else if bool_decide (npcId ∈ SafeEffects.inherited) then None
  else Some (toUpperCase npcId).

Definition fallbackProfile (npcId name : string) : gmap string field :=
  <["role" := Text "Official"]>
    (<["background" := Text "Russian official"]>
       (<["goals" := Items ["complete mission"]]>
          (<["personality" := Text "formal, diplomatic"]>
             (<["name" := Text name]> (<["id" := Text npcId]> ∅))))).

(** The callback of [npcList.find]. *)
Definition name_matches (searchName : string) (n : NpcData) : bool :=
  match Nimi n with
  | Some nimi =>
      if String.eqb nimi "" then false
      else
        let name := toLowerCase nimi in
        let search := toLowerCase searchName in
        String.eqb name search || includes search name || includes name search
  | None => false
  end.

(** The object literal [baseProfile] built from the record found. *)
Definition baseProfile (npcId : string) (npcData : NpcData) : gmap string field :=
  <["phase" := Text (or_text (Kasikirjoituksen_vaihe npcData) "")]>
    (<["role" := Text (or_text (Rooli npcData) "Official")]>
       (<["speech_style" := Text (or_text (Puhetapa npcData) "formal, diplomatic")]>
          (<["motivations" := Text (or_text (Motivaatiot npcData) "")]>
             (<["background" := Text (or_text (Tausta npcData) "Russian official")]>
                (<["name" := Text (default "" (Nimi npcData))]>
                   (<["id" := Text npcId]> ∅)))))).

(** The personality taken from the speech style when there is none. *)
Definition with_personality (profile : gmap string field) : gmap string field :=
  if negb (truthy_field (profile !! "personality"))
     && truthy_field (profile !! "speech_style")
  then match profile !! "speech_style" with
       | Some style => <["personality" := style]> profile
       | None => profile
       end
  else profile.

(** The body of the [try] block; [None] when it throws.  A document is
    [None] when it was not loaded, [Some (Some l)] when the list read from it
    is the array [l] (the document itself, its [npcs], or the empty array put
    for a missing [npcs]), and [Some None] when what is read as the list is
    not an array, so that the call of [find] throws. *)
Definition resolve (npcs : option (option (list NpcData)))
    (aiProfiles : option (option (list AiProfile))) (npcId name : string)
    : option (gmap string field) :=
  match npcs with
  | Some None => None
  | _ =>
      let base :=
        match npcs with
        | Some (Some npcList) => baseProfile npcId <$> find (name_matches name) npcList
        | _ => None
        end in
      match aiProfiles with
      | Some None => None
      | _ =>
          let ai :=
            match aiProfiles with
            | Some (Some aiList) =>
                ai_fields <$> find (λ n, String.eqb (ai_id n) npcId) aiList
            | _ => None
            end in
          Some (with_personality
                  (default ∅ ai ∪ (default ∅ base ∪ fallbackProfile npcId name)))
      end
  end.

(** [getNPCProfile] of the safe worker: the profile and the cache after the
    call; [None] only for an id naming an inherited property. *)
Definition getNPCProfile (npcs : option (option (list NpcData)))
    (aiProfiles : option (option (list AiProfile)))
    (npcCache : gmap string (gmap string field)) (npcId : string)
    : option (gmap string field * gmap string (gmap string field)) :=
  match npcCache !! npcId with
  | Some cached => Some (cached, npcCache)
  | None =>
      match getNPCName npcId with
      | None => None
      | Some name =>
          let profile :=
            match resolve npcs aiProfiles npcId name with
            | Some profile => profile
            | None => fallbackProfile npcId name
            end in
          Some (profile, <[npcId := profile]> npcCache)
      end
  end.

(** The personality the AI profile of the character gives, if any. *)
Definition ai_personality (aiProfiles : option (option (list AiProfile)))
    (npcId : string) : option field :=
  match aiProfiles with
  | Some (Some aiList) =>
      find (λ n, String.eqb (ai_id n) npcId) aiList ≫= (λ a, ai_fields a !! "personality")
  | _ => None
  end.

End host.

Arguments Text {value} s.
Arguments Items {value} l.
Arguments Foreign {value} v.
Arguments mkAiProfile {value}.
Arguments ai_id {value}.
Arguments ai_fields {value}.

End SafeProfiles.

(** ** The rule lookup and the guard as the specification words them *)

Module Stated.
Import DiplomacyEngine AIWorker.

(** The expected values of a key, as a set: a single expected value is the
    set holding it. *)
Definition expected_set (ev : expected) : list string :=
  match ev with
  | ExpectedList es => es
  | ExpectedValue e => [e]
  end.

(** A key matches when the analysis value equals any expected value; a
    list-valued analysis value matches when any of its elements does. *)
Definition key_matches_as_stated (a : option actual) (ev : expected) : Prop :=
  match a with
  | Some (ActualValue v) => v ∈ expected_set ev
  | Some (ActualList vs) => ∃ v, v ∈ vs ∧ v ∈ expected_set ev
  | None => False
  end.

(** What the code does: the list-any rule holds against an expected list;
    a single expected value is met only by that same single value. *)
Definition key_matches (a : option actual) (ev : expected) : Prop :=
  match ev with
  | ExpectedList es => key_matches_as_stated a (ExpectedList es)
  | ExpectedValue e => a = Some (ActualValue e)
  end.

(** AND across the keys of the condition. *)
Definition all_keys (key_ok : option actual → expected → Prop)
    (c : gmap string expected) (analysis : gmap string actual) : Prop :=
  ∀ key ev, c !! key = Some ev → key_ok (analysis !! key) ev.

(** First match in document order wins, no match gives the neutral effect. *)
Definition first_match_rule (key_ok : option actual → expected → Prop) : Prop :=
  ∀ acts npcId sceneId analysis gameState sc ad,
    find (λ a, String.eqb (scene a) sceneId) acts = Some sc →
    ai_dialogue sc = Some ad →
    (∀ pre m post,
        effects_mapping ad = pre ++ m :: post →
        Forall (λ m', ¬ all_keys key_ok (condition m') analysis) pre →
        all_keys key_ok (condition m) analysis →
        calculateDiplomacyEffects acts npcId sceneId analysis gameState
          = with_defaults (effects m))
    ∧ (Forall (λ m, ¬ all_keys key_ok (condition m) analysis) (effects_mapping ad) →
        calculateDiplomacyEffects acts npcId sceneId analysis gameState
          = getDefaultEffects).

(** The soft-lock rule read for every character, with or without an entry
    in the rules table. *)
Definition soft_lock_for_every_character : Prop :=
  ∀ (npc_rules : gmap string NpcRules) npcId effects gameState d,
    opinion_component effects npcId = Some d →
    d < 0 →
    or0 (npc_opinions gameState !! npcId) + d < -40 →
    ∃ guarded d',
      applyFallbackProtections npc_rules npcId effects gameState = Returned guarded
      ∧ opinion_component guarded npcId = Some d'
      ∧ -3 ≤ d'.

(** The hard-lock rule read for every character. *)
Definition hard_lock_for_every_character : Prop :=
  ∀ (npc_rules : gmap string NpcRules) npcId effects gameState d,
    opinion_component effects npcId = Some d →
    d < 0 →
    or0 (npc_opinions gameState !! npcId) + d < -80 →
    ∃ guarded,
      applyFallbackProtections npc_rules npcId effects gameState = Returned guarded
      ∧ opinion_component guarded npcId = Some 0.

(** The component the guard leaves for a character with a rules entry,
    from the current opinion and the computed component. *)
Definition guarded_component (currentOpinion d : Z) : Z :=
  let predictedOpinion := currentOpinion + d in
  let softened :=
    if (predictedOpinion <? -40) && (d <? 0) then Z.max d (-3) else d in
  if (predictedOpinion <? -80) && (softened <? 0) then 0 else softened.

End Stated.

(** ** Inputs used in the examples *)

Module Samples.
Import DiplomacyEngine AIWorker.

(** One call that pushes a faction, an opinion and a trait far up. *)
Definition big_push : Effects :=
  {| eff_factions := Some {[ "RUS" := 250 ]};
     eff_player_traits := Some {[ "INDEPENDENCE" := 250 ]};
     eff_npc_opinions := Some {[ "trepov" := -250 ]};
     eff_flags := Some {[ "met_trepov" := FlagBool true ]} |}.

Definition opinion_state (npcId : string) (opinion : Z) : GameState :=
  {| factions := ∅; player_traits := ∅;
     npc_opinions := {[ npcId := opinion ]}; flags := ∅ |}.

Definition opinion_delta (npcId : string) (d : Z) : Effects :=
  {| eff_factions := Some {[ "RUS" := 2 ]};
     eff_player_traits := Some ∅;
     eff_npc_opinions := Some {[ npcId := d ]};
     eff_flags := Some ∅ |}.

(** An effect on a faction called like an inherited property. *)
Definition constructor_push : Effects :=
  {| eff_factions := Some {[ "constructor" := 5 ]};
     eff_player_traits := None;
     eff_npc_opinions := None;
     eff_flags := None |}.

Definition trepov_rules : gmap string NpcRules :=
  {[ "trepov" := {| fallback_rule := Some "offer_reconciliation" |} ]}.

Definition loyal_effects : Effects :=
  {| eff_factions := Some {[ "RUS" := 3 ]};
     eff_player_traits := None;
     eff_npc_opinions := Some {[ "trepov" := 5 ]};
     eff_flags := None |}.

Definition other_effects : Effects :=
  {| eff_factions := None;
     eff_player_traits := Some {[ "NEUTRALITY" := 1 ]};
     eff_npc_opinions := None;
     eff_flags := None |}.

Definition meeting (first_condition : gmap string expected) : list Act :=
  [ {| scene := "1_arrival"; ai_dialogue := None |};
    {| scene := "2_trepov_meeting";
       ai_dialogue := Some {| effects_mapping :=
         [ {| condition := first_condition; effects := loyal_effects |};
           {| condition := {[ "overall_tone" := ExpectedList ["loyal"] ]};
              effects := other_effects |} ] |} |} ].

Definition tone_list : gmap string expected :=
  {[ "overall_tone" := ExpectedList ["loyal"; "neutral"] ]}.

Definition tone_single : gmap string expected :=
  {[ "overall_tone" := ExpectedValue "loyal" ]}.

Definition analysis_of (tones : list string) : gmap string actual :=
  {[ "overall_tone" := ActualList tones;
     "detected_stance_towards_russia" := ActualValue "neutral";
     "cooperativeness" := ActualValue "medium" ]}.

End Samples.

Module SampleGraph.
Import StateMachine GameEngine.

(** A scene with the two choices a -> X and b -> Y and no transitions. *)
Definition crossroads : State :=
  {| s_type := "scene";
     choices := Some [ {| c_id := "a"; c_next := Some "X" |};
                       {| c_id := "b"; c_next := Some "Y" |} ];
     transitions := None;
     ai_dialogue := None |}.

Definition ending : State :=
  {| s_type := "scene"; choices := Some []; transitions := None;
     ai_dialogue := None |}.

Definition at_crossroads : Machine :=
  new {[ "original" := crossroads; "X" := ending; "Y" := ending ]} "original" "Y".

(** A graph that opens on a system node, as a prologue does: the start node
    moves on to the first scene by itself. *)
Definition start_node : State :=
  {| s_type := "system"; choices := None;
     transitions := Some [ {| t_to := Some "scene_1" |} ];
     ai_dialogue := None |}.

Definition opening : Machine :=
  new {[ "start" := start_node; "scene_1" := crossroads; "X" := ending; "Y" := ending ]}
      "start" "Y".

Definition no_ai : Env :=
  {| aiWorker := false; aiClient := false; AI_PROXY_ENABLED := false;
     profile_loads := λ _, false |}.

End SampleGraph.

Module SampleRules.
Import DiplomacyEngine AIWorker DiplomacyRules.

(** A scene whose [choices] array is empty while [linear_choices] knows the
    choice "a". *)
Definition shadowed_scene : SceneEntry :=
  {| se_scene := "3_orders";
     se_choices := Some [];
     se_linear_choices :=
       Some [ {| ce_id := "a"; ce_effects := Some Samples.big_push |} ];
     se_ai_dialogue := None |}.

Definition linear_scene : SceneEntry :=
  {| se_scene := "4_departure";
     se_choices := None;
     se_linear_choices :=
       Some [ {| ce_id := "a"; ce_effects := Some Samples.big_push |} ];
     se_ai_dialogue := None |}.

End SampleRules.

Module SampleCast.
Import DiplomacyEngine AIWorker Dialogue.

(** Field values for the examples: plain strings, the empty one falsy. *)
Definition text_truthy (v : string) : bool := negb (String.eqb v "").

Definition trepov_base : Npc string :=
  {| npc_id := "trepov"; scene_scope := None;
     npc_fields := {[ "name" := "Dmitri Trepov"; "persona" := "stern" ]} |}.

Definition trepov_ai : Npc string :=
  {| npc_id := "trepov"; scene_scope := Some ["2_trepov_meeting"];
     npc_fields := {[ "persona" := ""; "role" := "governor" ]} |}.

(** A scene whose only mapping takes 10 from Trepov's opinion on a critical
    tone. *)
Definition harsh_meeting : list Act :=
  [ {| scene := "2_trepov_meeting";
       ai_dialogue := Some {| effects_mapping :=
         [ {| condition := {[ "overall_tone" := ExpectedList ["critical"] ]};
              effects := Samples.opinion_delta "trepov" (-10) |} ] |} |} ].

Definition worker : Worker string :=
  {| npcs := Some (Wrapped [trepov_base]);
     aiProfiles := Some (Wrapped [trepov_ai]);
     npc_rules := Samples.trepov_rules;
     acts := harsh_meeting;
     npcCache := ∅ |}.

(** The same worker when the AI profiles come as a bare array. *)
Definition worker_bare : Worker string :=
  {| npcs := Some (Wrapped [trepov_base]);
     aiProfiles := Some (Bare [trepov_ai]);
     npc_rules := Samples.trepov_rules;
     acts := harsh_meeting;
     npcCache := ∅ |}.

(** A scene whose second mapping has an empty condition, followed by
    [later]. *)
Definition with_catch_all (later : list Mapping) : list Act :=
  [ {| scene := "5_hub";
       ai_dialogue := Some {| effects_mapping :=
         [ {| condition := {[ "overall_tone" := ExpectedList ["critical"] ]};
              effects := Samples.opinion_delta "trepov" (-10) |} ]
         ++ {| condition := ∅; effects := Samples.other_effects |} :: later |} |} ].

Definition critical_reply : option (string * gmap string actual) :=
  Some ("Varokaa sanojanne.", Samples.analysis_of ["critical"]).

End SampleCast.

Module SampleHub.
Import StateMachine GameEngine.

(** A hub offering a talk with Trepov, with one way on. *)
Definition trepov_hub : State :=
  {| s_type := "hub"; choices := None;
     transitions := Some [ {| t_to := Some "X" |} ];
     ai_dialogue := Some "trepov" |}.

Definition at_hub : Machine :=
  new {[ "hub_1" := trepov_hub; "X" := SampleGraph.ending ]} "hub_1" "X".

(** A scene whose choice leads nowhere. *)
Definition dead_end : State :=
  {| s_type := "scene";
     choices := Some [ {| c_id := "a"; c_next := None |} ];
     transitions := None;
     ai_dialogue := None |}.

Definition at_dead_end : Machine := new {[ "3_orders" := dead_end ]} "3_orders" "X".

End SampleHub.

Module SampleAlignments.
Import DiplomacyEngine Alignments.

(** Two behaviours: one waits for RUS at 5, the other for INDEPENDENCE at 2
    or NEUTRALITY at any level from 0. *)
Definition behaviours : list Behavior :=
  [ {| condition := [FactionThreshold "RUS" (Some 5)];
       effect_on_tone := [("warmth", "warmer")];
       dialogue_bias := ["Puhu lämpimämmin."] |};
    {| condition := [TraitThresholds [("INDEPENDENCE", Some 2); ("NEUTRALITY", None)]];
       effect_on_tone := [("distance", "cooler")];
       dialogue_bias := ["Ole varautunut."] |} ].

Definition nothing_yet : GameState :=
  {| factions := ∅; player_traits := ∅; npc_opinions := ∅; flags := ∅ |}.

Definition well_regarded : GameState :=
  {| factions := {[ "RUS" := 7 ]}; player_traits := {[ "INDEPENDENCE" := 1 ]};
     npc_opinions := ∅; flags := ∅ |}.

(** The same game later: RUS raised from 7 to 9, INDEPENDENCE from 1
    to 3. *)
Definition held_in_esteem : GameState :=
  {| factions := {[ "RUS" := 9 ]}; player_traits := {[ "INDEPENDENCE" := 3 ]};
     npc_opinions := ∅; flags := ∅ |}.

End SampleAlignments.

Module SampleResolver.
Import SafeProfiles.

Definition trepov_data : NpcData :=
  {| Nimi := Some "Dmitri Trepov"; Tausta := Some "Pietarin kenraalikuvernööri";
     Motivaatiot := None; Puhetapa := Some "lyhytsanainen"; Rooli := None;
     Kasikirjoituksen_vaihe := None |}.

Definition any_value (v : unit) : bool := true.

Definition same (s : string) : string := s.

End SampleResolver.

Module SampleHost.
Import AIClient.

(** A host for the examples: a parser that knows two texts and rejects the
    others. *)
Definition parse_two (s : string) : option (json Z) :=
  if String.eqb s "{}" then Some (JObject [])
  else if String.eqb s "null" then Some JNull
  else None.

Definition no_change (s : string) : string := s.

End SampleHost.

(** * Theorems *)

Section keyed_folds.
Context {V : Type}.
Variable g : option V → V → V.

(** A loop that rewrites one key per entry: with distinct keys, the final
    value at [k] is decided by the entry for [k] alone. *)
Lemma foldl_keyed_lookup (l : list (string * V)) (m : gmap string V) (k : string) :
  NoDup l.*1 →
  foldl (keyed_step g) m l !! k =
    match (list_to_map l : gmap string V) !! k with
    | Some d => Some (g (m !! k) d)
    | None => m !! k
    end.
Proof.
  revert m. induction l as [|[k' d'] l IH]; intros m Hnd.
  - by rewrite list_to_map_nil, lookup_empty.
  - rewrite fmap_cons in Hnd. apply NoDup_cons in Hnd as [Hk' Hnd].
    cbn [foldl]. rewrite IH by done.
    change (keyed_step g m (k', d')) with (<[k' := g (m !! k') d']> m).
    rewrite list_to_map_cons.
    destruct (decide (k' = k)) as [->|Hne].
    + rewrite !lookup_insert_eq.
      by rewrite (not_elem_of_list_to_map_1 (M:=gmap string) l k Hk').
    + rewrite !(lookup_insert_ne _ k' k) by done.
      by destruct (list_to_map l !! k).
Qed.

Lemma foldl_keyed_entries (d m : gmap string V) (k : string) :
  foldl (keyed_step g) m (entries d) !! k =
    match d !! k with
    | Some x => Some (g (m !! k) x)
    | None => m !! k
    end.
Proof.
  unfold entries. rewrite foldl_keyed_lookup by apply NoDup_fst_map_to_list.
  by rewrite list_to_map_to_list.
Qed.
End keyed_folds.

(** ** Diplomacy state: bounds *)

Section diplomacy_bounds.
Import DiplomacyEngine.

Lemma clamp100_range (v : Z) : -100 ≤ clamp100 v ≤ 100.
Proof. unfold clamp100. lia. Qed.

Lemma clamp100_id (v : Z) : -100 ≤ v ≤ 100 → clamp100 v = v.
Proof. unfold clamp100. lia. Qed.

Lemma add_clamped_keyed (m : gmap string Z) (kv : string * Z) :
  add_clamped m kv = keyed_step (λ o d, clamp100 (or0 o + d)) m kv.
Proof.
  unfold add_clamped, keyed_step. cbv zeta.
  by rewrite lookup_insert_eq, insert_insert_eq.
Qed.

Lemma add_clamped_bounded (m : gmap string Z) (kv : string * Z) :
  bounded m → bounded (add_clamped m kv).
Proof.
  intros Hm k v. rewrite add_clamped_keyed. unfold keyed_step.
  rewrite lookup_insert. case_decide as Hk.
  - intros [= <-]. apply clamp100_range.
  - apply Hm.
Qed.

Lemma foldl_add_clamped_bounded (l : list (string * Z)) (m : gmap string Z) :
  bounded m → bounded (foldl add_clamped m l).
Proof.
  revert m. induction l as [|kv l IH]; intros m Hm; [done|].
  apply IH, add_clamped_bounded, Hm.
Qed.

Lemma foldl_zero_bounded (ids : list string) (m : gmap string Z) :
  bounded m → bounded (foldl (λ m id, <[id := 0]> m) m ids).
Proof.
  revert m. induction ids as [|id ids IH]; intros m Hm; [done|].
  apply IH. intros k v. rewrite lookup_insert. case_decide.
  - intros [= <-]. lia.
  - apply Hm.
Qed.

Lemma initializeGameState_in_bounds (factionIds : list string) :
  in_bounds (initializeGameState factionIds).
Proof.
  split; apply foldl_zero_bounded; intros k v; by rewrite lookup_empty.
Qed.

Lemma applyEffects_in_bounds (gs : GameState) (effects : Effects) :
  in_bounds gs → in_bounds (applyEffects gs effects).
Proof.
  intros [Hf Ho]. split; simpl.
  - destruct (eff_factions effects); [by apply foldl_add_clamped_bounded|done].
  - destruct (eff_npc_opinions effects); [by apply foldl_add_clamped_bounded|done].
Qed.

Lemma applyAll_in_bounds (calls : list Effects) (gs : GameState) :
  in_bounds gs → in_bounds (applyAll gs calls).
Proof.
  revert gs. induction calls as [|e calls IH]; intros gs Hgs; [done|].
  apply IH, applyEffects_in_bounds, Hgs.
Qed.

Lemma applyEffects_trait (gs : GameState) (effects : Effects)
    (d : gmap string Z) (t : string) :
  eff_player_traits effects = Some d →
  player_traits (applyEffects gs effects) !! t =
    match d !! t with
    | Some x => Some (or0 (player_traits gs !! t) + x)
    | None => player_traits gs !! t
    end.
Proof.
  intros Hd. simpl. rewrite Hd.
  apply (foldl_keyed_entries (λ o x, or0 o + x)).
Qed.

Lemma applyEffects_flag (gs : GameState) (effects : Effects)
    (d : gmap string flag_value) (f : string) :
  eff_flags effects = Some d →
  flags (applyEffects gs effects) !! f =
    match d !! f with
    | Some v => Some v
    | None => flags gs !! f
    end.
Proof.
  intros Hd. simpl. rewrite Hd. unfold object_assign.
  rewrite lookup_union. by destruct (d !! f), (flags gs !! f).
Qed.

Example applyEffects_big_push :
  let gs := applyEffects (initializeGameState ["RUS"; "BRIT"]) Samples.big_push in
  factions gs !! "RUS" = Some 100
  ∧ factions gs !! "BRIT" = Some 0
  ∧ npc_opinions gs !! "trepov" = Some (-100)
  ∧ player_traits gs !! "INDEPENDENCE" = Some 250.
Proof. vm_compute. done. Qed.
End diplomacy_bounds.

(** ** Diplomacy state: names inherited from Object.prototype *)

Section own_key_folds.
Context {V D : Type}.
Variable f : gmap string V → string * D → gmap string V.
Variable h : string → option V → D → option V.
Hypothesis f_own : ∀ m kv, f m kv !! kv.1 = h kv.1 (m !! kv.1) kv.2.
Hypothesis f_other : ∀ m kv k, kv.1 ≠ k → f m kv !! k = m !! k.

(** A loop whose body changes nothing but the key of its entry, and that
    key from what it held: with distinct keys, what ends up under [k] is
    decided by the entry for [k] alone. *)
Lemma foldl_own_key_lookup (l : list (string * D)) (m : gmap string V) (k : string) :
  NoDup l.*1 →
  foldl f m l !! k =
    match (list_to_map l : gmap string D) !! k with
    | Some d => h k (m !! k) d
    | None => m !! k
    end.
Proof.
  revert m. induction l as [|[k' d'] l IH]; intros m Hnd.
  - by rewrite list_to_map_nil, lookup_empty.
  - rewrite fmap_cons in Hnd. apply NoDup_cons in Hnd as [Hk' Hnd].
    cbn [foldl]. rewrite IH by done. rewrite list_to_map_cons.
    destruct (decide (k' = k)) as [->|Hne].
    + rewrite lookup_insert_eq.
      rewrite (not_elem_of_list_to_map_1 (M:=gmap string) l k Hk').
      apply (f_own m (k, d')).
    + rewrite (lookup_insert_ne _ k' k) by done.
      by rewrite (f_other m (k', d') k Hne).
Qed.

Lemma foldl_own_key_any_order (d : gmap string D) (l : list (string * D))
    (m : gmap string V) (k : string) :
  l ≡ₚ entries d →
  foldl f m l !! k =
    match d !! k with
    | Some x => h k (m !! k) x
    | None => m !! k
    end.
Proof.
  intros Hp. unfold entries in Hp.
  assert (NoDup l.*1) as Hnd.
  { rewrite Hp. apply NoDup_fst_map_to_list. }
  rewrite foldl_own_key_lookup by done.
  assert ((list_to_map l : gmap string D) = d) as ->; [|done].
  rewrite <- (list_to_map_to_list d). by apply list_to_map_proper.
Qed.
End own_key_folds.

Section inherited_names.
Import DiplomacyEngine.

Lemma is_inherited_proto (k : string) :
  is_inherited k = false → String.eqb k "__proto__" = false.
Proof.
  intros H. destruct (String.eqb_spec k "__proto__") as [->|]; [|done].
  by vm_compute in H.
Qed.

Lemma assign_plain {V} (k : string) (v : V) (m : gmap string V) :
  is_inherited k = false → Prototype.assign k v m = <[k := v]> m.
Proof. intros H. unfold Prototype.assign. by rewrite (is_inherited_proto k H). Qed.

Lemma assigned_plain {V} (k : string) (own : option V) (v : V) :
  is_inherited k = false → Prototype.assigned k own v = Some v.
Proof. intros H. unfold Prototype.assigned. by rewrite (is_inherited_proto k H). Qed.

Lemma assigned_own {V} (k : string) (own : option V) (v : V) :
  is_Some own → Prototype.assigned k own v = Some v.
Proof.
  intros H. unfold Prototype.assigned. rewrite bool_decide_true by done.
  by rewrite andb_false_r.
Qed.

Lemma assign_lookup_ne {V} (k k' : string) (v : V) (m : gmap string V) :
  k ≠ k' → Prototype.assign k v m !! k' = m !! k'.
Proof.
  intros Hne. unfold Prototype.assign.
  destruct (_ && _); [done|by apply lookup_insert_ne].
Qed.

Lemma assign_lookup_eq {V} (k : string) (v : V) (m : gmap string V) :
  Prototype.assign k v m !! k = Prototype.assigned k (m !! k) v.
Proof.
  unfold Prototype.assign, Prototype.assigned.
  destruct (String.eqb k "__proto__"); simpl; [|apply lookup_insert_eq].
  case_bool_decide as Hk; simpl; [apply lookup_insert_eq|].
  by apply eq_None_not_Some.
Qed.

(** What the loop bodies and [Object.assign] leave under the key of their
    entry, and that they leave every other key alone. *)
Lemma add_plain_own (m : gmap string Prototype.value) (kv : string * Z) :
  Prototype.add_plain m kv !! kv.1 =
    Prototype.assigned kv.1 (m !! kv.1)
      (Prototype.plus (Prototype.operand_of kv.1 (m !! kv.1)) kv.2).
Proof. unfold Prototype.add_plain. by rewrite assign_lookup_eq. Qed.

Lemma add_plain_other (m : gmap string Prototype.value) (kv : string * Z) (k : string) :
  kv.1 ≠ k → Prototype.add_plain m kv !! k = m !! k.
Proof. intros Hne. unfold Prototype.add_plain. by rewrite assign_lookup_ne. Qed.

Lemma add_clamped_own (m : gmap string Prototype.value) (kv : string * Z) :
  Prototype.add_clamped m kv !! kv.1 =
    Prototype.assigned kv.1 (m !! kv.1)
      (Prototype.clamp (Prototype.plus (Prototype.operand_of kv.1 (m !! kv.1)) kv.2)).
Proof.
  unfold Prototype.add_clamped. cbv zeta. rewrite assign_lookup_eq.
  unfold Prototype.clamped. rewrite assign_lookup_eq.
  unfold Prototype.read_or0, Prototype.assigned.
  destruct (String.eqb kv.1 "__proto__"); simpl; [|done].
  by destruct (bool_decide (is_Some (m !! kv.1))).
Qed.

Lemma add_clamped_other (m : gmap string Prototype.value) (kv : string * Z) (k : string) :
  kv.1 ≠ k → Prototype.add_clamped m kv !! k = m !! k.
Proof.
  intros Hne. unfold Prototype.add_clamped. cbv zeta.
  by rewrite !assign_lookup_ne.
Qed.

(** The loop over the entries gives the same values in whatever order the
    entries come. *)
Lemma foldl_add_clamped_own_key_any_order (d : gmap string Z)
    (m : gmap string Prototype.value) (l : list (string * Z)) (k : string) :
  l ≡ₚ entries d →
  foldl Prototype.add_clamped m l !! k =
    match d !! k with
    | Some x =>
        Prototype.assigned k (m !! k)
          (Prototype.clamp (Prototype.plus (Prototype.operand_of k (m !! k)) x))
    | None => m !! k
    end.
Proof.
  apply (foldl_own_key_any_order Prototype.add_clamped
           (λ k own x, Prototype.assigned k own
                         (Prototype.clamp (Prototype.plus (Prototype.operand_of k own) x))));
    [apply add_clamped_own|apply add_clamped_other].
Qed.

Lemma foldl_add_clamped_own_key (d : gmap string Z) (m : gmap string Prototype.value)
    (k : string) :
  foldl Prototype.add_clamped m (entries d) !! k =
    match d !! k with
    | Some x =>
        Prototype.assigned k (m !! k)
          (Prototype.clamp (Prototype.plus (Prototype.operand_of k (m !! k)) x))
    | None => m !! k
    end.
Proof. by apply foldl_add_clamped_own_key_any_order. Qed.

Lemma foldl_add_plain_own_key (d : gmap string Z) (m : gmap string Prototype.value)
    (k : string) :
  foldl Prototype.add_plain m (entries d) !! k =
    match d !! k with
    | Some x =>
        Prototype.assigned k (m !! k) (Prototype.plus (Prototype.operand_of k (m !! k)) x)
    | None => m !! k
    end.
Proof.
  apply (foldl_own_key_any_order Prototype.add_plain
           (λ k own x, Prototype.assigned k own
                         (Prototype.plus (Prototype.operand_of k own) x)));
    [apply add_plain_own|apply add_plain_other|done].
Qed.

Lemma object_assign_own_key {V} (target source : gmap string V) (k : string) :
  Prototype.object_assign target source !! k =
    match source !! k with
    | Some v => Prototype.assigned k (target !! k) v
    | None => target !! k
    end.
Proof.
  unfold Prototype.object_assign.
  apply (foldl_own_key_any_order (λ t kv, Prototype.assign kv.1 kv.2 t)
           (λ k own v, Prototype.assigned k own v)); [| |done].
  - intros m kv. apply assign_lookup_eq.
  - intros m kv k' Hne. by apply assign_lookup_ne.
Qed.

(** On a name that is not inherited the loop bodies are those of
    [DiplomacyEngine]. *)
Lemma add_clamped_plain (m : gmap string Z) (kv : string * Z) :
  is_inherited kv.1 = false →
  Prototype.add_clamped (Prototype.Num <$> m) kv = Prototype.Num <$> add_clamped m kv.
Proof.
  intros H. unfold Prototype.add_clamped, add_clamped. cbv zeta.
  rewrite !(assign_plain _ _ _ H).
  unfold Prototype.clamped, Prototype.read_or0, Prototype.operand_of.
  rewrite !lookup_insert_eq, lookup_fmap, H, !fmap_insert.
  by destruct (m !! kv.1).
Qed.

Lemma add_plain_plain (m : gmap string Z) (kv : string * Z) :
  is_inherited kv.1 = false →
  Prototype.add_plain (Prototype.Num <$> m) kv = Prototype.Num <$> add_plain m kv.
Proof.
  intros H. unfold Prototype.add_plain, add_plain.
  rewrite (assign_plain _ _ _ H). unfold Prototype.read_or0, Prototype.operand_of.
  rewrite lookup_fmap, H, fmap_insert.
  by destruct (m !! kv.1).
Qed.

Lemma foldl_plain {A B} (f : A → string * B → A) (g : A → string * B → A)
    (l : list (string * B)) (a : A) :
  (∀ a kv, is_inherited kv.1 = false → f a kv = g a kv) →
  forallb (λ kv, negb (is_inherited kv.1)) l = true →
  foldl f a l = foldl g a l.
Proof.
  intros Hfg. revert a. induction l as [|kv l IH]; intros a Hl; [done|].
  simpl in Hl. apply andb_true_iff in Hl as [Hkv Hl]. apply negb_true_iff in Hkv.
  cbn [foldl]. rewrite (Hfg a kv Hkv). by apply IH.
Qed.

Lemma foldl_add_clamped_plain (d m : gmap string Z) :
  Prototype.plain_keys d = true →
  foldl Prototype.add_clamped (Prototype.Num <$> m) (entries d)
    = Prototype.Num <$> foldl add_clamped m (entries d).
Proof.
  unfold Prototype.plain_keys. generalize (entries d). intros l. revert m.
  induction l as [|kv l IH]; intros m Hl; [done|].
  simpl in Hl. apply andb_true_iff in Hl as [Hkv Hl]. apply negb_true_iff in Hkv.
  cbn [foldl]. rewrite (add_clamped_plain m kv Hkv). by apply IH.
Qed.

Lemma foldl_add_plain_plain (d m : gmap string Z) :
  Prototype.plain_keys d = true →
  foldl Prototype.add_plain (Prototype.Num <$> m) (entries d)
    = Prototype.Num <$> foldl add_plain m (entries d).
Proof.
  unfold Prototype.plain_keys. generalize (entries d). intros l. revert m.
  induction l as [|kv l IH]; intros m Hl; [done|].
  simpl in Hl. apply andb_true_iff in Hl as [Hkv Hl]. apply negb_true_iff in Hkv.
  cbn [foldl]. rewrite (add_plain_plain m kv Hkv). by apply IH.
Qed.

Lemma object_assign_plain {V} (target source : gmap string V) :
  Prototype.plain_keys source = true →
  Prototype.object_assign target source = object_assign target source.
Proof.
  intros Hp. unfold Prototype.object_assign, object_assign.
  rewrite (foldl_plain _ (keyed_step (λ _ v, v)) (entries source) target);
    [|by intros a kv Hkv; apply assign_plain|exact Hp].
  apply map_eq. intros k. rewrite foldl_keyed_entries, lookup_union.
  by destruct (source !! k), (target !! k).
Qed.

(** The game state that [DiplomacyEngine.applyEffects] gives is the one the
    code leaves, as long as the effects name no inherited property. *)
Lemma applyEffects_on_plain_names (gs : GameState) (e : Effects) :
  Prototype.plain_effects e = true →
  Prototype.applyEffects (Prototype.of_state gs) e
    = Prototype.of_state (applyEffects gs e).
Proof.
  unfold Prototype.plain_effects. intros H.
  apply andb_true_iff in H as [H Hfl]. apply andb_true_iff in H as [H Ho].
  apply andb_true_iff in H as [Hf Ht].
  unfold Prototype.applyEffects, Prototype.of_state, applyEffects. simpl.
  destruct e as [[f|] [t|] [o|] [fl|]]; simpl in *;
    rewrite ?foldl_add_clamped_plain, ?foldl_add_plain_plain, ?object_assign_plain by done;
    reflexivity.
Qed.

(** On every name: a faction or opinion value is a number of [-100, 100],
    or NaN under an inherited name. *)
Lemma assign_settled (m : gmap string Prototype.value) (k : string)
    (v : Prototype.value) :
  Prototype.settled m → Prototype.number_or_NaN k v →
  Prototype.settled (Prototype.assign k v m).
Proof.
  intros Hm Hv k' v'. destruct (decide (k = k')) as [<-|Hne].
  - rewrite assign_lookup_eq. unfold Prototype.assigned.
    destruct (_ && _); [done|]. by intros [= <-].
  - rewrite assign_lookup_ne by done. apply Hm.
Qed.

Lemma add_clamped_settled (m : gmap string Prototype.value) (kv : string * Z) :
  Prototype.settled m → Prototype.settled (Prototype.add_clamped m kv).
Proof.
  intros Hm k' v'.
  destruct (decide (kv.1 = k')) as [<-|Hne];
    [|rewrite add_clamped_other by done; apply Hm].
  rewrite add_clamped_own. unfold Prototype.assigned.
  destruct (_ && _); [done|]. intros [= <-].
  unfold Prototype.operand_of.
  destruct (m !! kv.1) as [[z| |]|] eqn:Hk; simpl;
    try apply clamp100_range.
  - destruct (Hm _ _ Hk).
  - destruct (is_inherited kv.1) eqn:Hi; simpl; [done|apply clamp100_range].
Qed.

Lemma foldl_add_clamped_settled (l : list (string * Z)) (m : gmap string Prototype.value) :
  Prototype.settled m → Prototype.settled (foldl Prototype.add_clamped m l).
Proof.
  revert m. induction l as [|kv l IH]; intros m Hm; [done|].
  apply IH, add_clamped_settled, Hm.
Qed.

Lemma foldl_zero_settled (ids : list string) (m : gmap string Prototype.value) :
  Prototype.settled m →
  Prototype.settled (foldl (λ m id, Prototype.assign id (Prototype.Num 0) m) m ids).
Proof.
  revert m. induction ids as [|id ids IH]; intros m Hm; [done|].
  apply IH, assign_settled; [done|]. simpl. lia.
Qed.

Lemma initializeGameState_settled (factionIds : list string) :
  Prototype.settled_state (Prototype.initializeGameState factionIds).
Proof. split; apply foldl_zero_settled; intros k v; by rewrite lookup_empty. Qed.

Lemma applyEffects_settled (gs : Prototype.GameState) (e : Effects) :
  Prototype.settled_state gs → Prototype.settled_state (Prototype.applyEffects gs e).
Proof.
  intros [Hf Ho]. split; simpl.
  - destruct (eff_factions e); [by apply foldl_add_clamped_settled|done].
  - destruct (eff_npc_opinions e); [by apply foldl_add_clamped_settled|done].
Qed.

(** What holds of the code on every input: after each call of any sequence
    of [applyEffects] calls on the initialized state, every faction and
    opinion value is a number of [-100, 100], or NaN under a name that object
    literals inherit. *)
Lemma applyAll_settled (factionIds : list string) (calls : list Effects) :
  Prototype.settled_state (Prototype.applyAll (Prototype.initializeGameState factionIds) calls).
Proof.
  unfold Prototype.applyAll.
  generalize (initializeGameState_settled factionIds).
  generalize (Prototype.initializeGameState factionIds).
  induction calls as [|e calls IH]; intros gs Hgs; [done|].
  cbn [foldl]. by apply IH, applyEffects_settled.
Qed.

(** C1 fails in the code for a faction called like an inherited property.
    On the initialized state, [applyEffects] with the one effect
    [factions: { constructor: 5 }] reads the inherited function for the old
    value, stores its text with 5 appended, and the clamp then stores NaN:
    the faction value lies outside [-100, 100].  A faction with a plain name
    is where it was. *)
Theorem applyEffects_stores_NaN_under_inherited_name :
  let gs := Prototype.applyEffects (Prototype.initializeGameState ["RUS"])
              Samples.constructor_push in
  Prototype.factions gs !! "constructor" = Some Prototype.NaN
  ∧ Prototype.factions gs !! "RUS" = Some (Prototype.Num 0).
Proof. vm_compute. done. Qed.

(** The next effect on that faction reads NaN as 0 and stores a number
    again; an effect on a faction called [__proto__] stores nothing. *)
Example applyEffects_after_NaN :
  let gs := Prototype.applyAll (Prototype.initializeGameState ["RUS"])
              [Samples.constructor_push; Samples.constructor_push] in
  Prototype.factions gs !! "constructor" = Some (Prototype.Num 5).
Proof. vm_compute. done. Qed.

Example applyEffects_under_proto :
  let gs := Prototype.applyEffects (Prototype.initializeGameState ["RUS"])
              {| eff_factions := Some {[ "__proto__" := 5 ]};
                 eff_player_traits := None;
                 eff_npc_opinions := None;
                 eff_flags := None |} in
  Prototype.factions gs = Prototype.factions (Prototype.initializeGameState ["RUS"]).
Proof. vm_compute. done. Qed.
End inherited_names.

(** ** Rule lookup for an AI dialogue *)

Section rule_lookup.
Import DiplomacyEngine AIWorker Stated.

Lemma existsb_eqb_elem_of (vs : list string) (e : string) :
  existsb (λ v, String.eqb v e) vs = true ↔ e ∈ vs.
Proof.
  rewrite existsb_exists. split.
  - intros (v & Hin & Heq). apply String.eqb_eq in Heq as ->.
    by apply list_elem_of_In.
  - intros Hin. exists e. split; [by apply list_elem_of_In|apply String.eqb_refl].
Qed.

Lemma some_callback_iff (a : option actual) (e : string) :
  some_callback a e = true ↔ key_matches_as_stated a (ExpectedValue e).
Proof.
  destruct a as [[vs|v]|]; simpl.
  - rewrite existsb_eqb_elem_of. split.
    + intros Hin. exists e. split; [done|apply list_elem_of_singleton; done].
    + intros (v & Hv & He). by apply list_elem_of_singleton in He as ->.
  - rewrite String.eqb_eq, list_elem_of_singleton. done.
  - split; [done|intros []].
Qed.

Lemma key_passes_iff (a : option actual) (ev : expected) :
  key_passes a ev = true ↔ key_matches a ev.
Proof.
  destruct ev as [es|e]; simpl.
  - rewrite existsb_exists. split.
    + intros (e & Hin & Hcb). apply list_elem_of_In in Hin.
      apply some_callback_iff in Hcb.
      destruct a as [[vs|v]|]; simpl in *.
      * destruct Hcb as (v & Hv & He). apply list_elem_of_singleton in He as ->.
        by exists e.
      * by apply list_elem_of_singleton in Hcb as ->.
      * done.
    + intros Hm. destruct a as [[vs|v]|]; simpl in Hm.
      * destruct Hm as (v & Hv & He). exists v. split; [by apply list_elem_of_In|].
        apply some_callback_iff. exists v. split; [done|by apply list_elem_of_singleton].
      * exists v. split; [by apply list_elem_of_In|].
        apply some_callback_iff. simpl. by apply list_elem_of_singleton.
      * done.
  - destruct a as [[vs|v]|]; try (split; [done|intros [=]]).
    rewrite String.eqb_eq. split; [by intros ->|by intros [= ->]].
Qed.

Lemma matchesCondition_iff (c : gmap string expected) (analysis : gmap string actual) :
  matchesCondition c analysis = true ↔ all_keys key_matches c analysis.
Proof.
  unfold matchesCondition, all_keys, entries. rewrite forallb_forall. split.
  - intros H key ev Hc. apply key_passes_iff.
    apply (H (key, ev)), list_elem_of_In, elem_of_map_to_list, Hc.
  - intros H [key ev] Hin. apply key_passes_iff, H.
    by apply elem_of_map_to_list, list_elem_of_In.
Qed.

Lemma matchesCondition_false (c : gmap string expected) (analysis : gmap string actual) :
  ¬ all_keys key_matches c analysis → matchesCondition c analysis = false.
Proof.
  intros Hn. destruct (matchesCondition c analysis) eqn:E; [|done].
  by apply matchesCondition_iff in E.
Qed.

Lemma scan_mappings_first (pre post : list Mapping) (m : Mapping)
    (analysis : gmap string actual) :
  Forall (λ m', ¬ all_keys key_matches (condition m') analysis) pre →
  all_keys key_matches (condition m) analysis →
  scan_mappings (pre ++ m :: post) analysis = Some (with_defaults (effects m)).
Proof.
  intros Hpre Hm. induction Hpre as [|m' pre Hm' _ IH]; simpl.
  - by rewrite (proj2 (matchesCondition_iff _ _) Hm).
  - by rewrite (matchesCondition_false _ _ Hm').
Qed.

Lemma scan_mappings_none (mappings : list Mapping) (analysis : gmap string actual) :
  Forall (λ m, ¬ all_keys key_matches (condition m) analysis) mappings →
  scan_mappings mappings analysis = None.
Proof.
  induction 1 as [|m ms Hm _ IH]; simpl; [done|].
  by rewrite (matchesCondition_false _ _ Hm).
Qed.

(** Every computed delta has its four sub-maps. *)
Lemma calculateDiplomacyEffects_complete (acts : list Act) (npcId sceneId : string)
    (analysis : gmap string actual) (gameState : GameState) :
  ∃ f t o fl,
    calculateDiplomacyEffects acts npcId sceneId analysis gameState =
      {| eff_factions := Some f; eff_player_traits := Some t;
         eff_npc_opinions := Some o; eff_flags := Some fl |}.
Proof.
  unfold calculateDiplomacyEffects.
  destruct (find _ acts) as [sc|]; [|by repeat eexists].
  destruct (ai_dialogue sc) as [ad|]; [|by repeat eexists].
  induction (effects_mapping ad) as [|m ms IH]; simpl; [by repeat eexists|].
  destruct (matchesCondition _ _); [by repeat eexists|exact IH].
Qed.

Lemma first_match_rule_holds : first_match_rule key_matches.
Proof.
  intros acts npcId sceneId analysis gameState sc ad Hsc Had.
  unfold calculateDiplomacyEffects. rewrite Hsc, Had. split.
  - intros pre m post -> Hpre Hm. by rewrite scan_mappings_first.
  - intros Hnone. by rewrite scan_mappings_none.
Qed.

(** C2, as the code has it.  For a scene with an ordered list of mappings,
    the lookup returns the effects (missing sub-maps read as empty) of the
    first mapping in document order whose condition matches; a condition
    matches iff every key matches; a key with an expected list matches iff
    the analysis value is one of the expected values or, when the analysis
    value is a list, one of its elements is; a key with a single expected
    value matches iff the analysis value is that same single value; when no
    mapping matches, the result is the neutral effect with four empty
    sub-maps. *)
Theorem calculateDiplomacyEffects_first_match
    (acts : list Act) (npcId sceneId : string) (analysis : gmap string actual)
    (gameState : GameState) (sc : Act) (ad : AiDialogue) :
  find (λ a, String.eqb (scene a) sceneId) acts = Some sc →
  ai_dialogue sc = Some ad →
  (∀ c, matchesCondition c analysis = true ↔
        ∀ key ev, c !! key = Some ev → key_matches (analysis !! key) ev)
  ∧ (∀ pre m post,
        effects_mapping ad = pre ++ m :: post →
        Forall (λ m', matchesCondition (condition m') analysis = false) pre →
        matchesCondition (condition m) analysis = true →
        calculateDiplomacyEffects acts npcId sceneId analysis gameState
          = with_defaults (effects m))
  ∧ (Forall (λ m, matchesCondition (condition m) analysis = false) (effects_mapping ad) →
        calculateDiplomacyEffects acts npcId sceneId analysis gameState
          = {| eff_factions := Some ∅; eff_player_traits := Some ∅;
               eff_npc_opinions := Some ∅; eff_flags := Some ∅ |}).
Proof.
  intros Hsc Had.
  destruct (first_match_rule_holds acts npcId sceneId analysis gameState sc ad Hsc Had)
    as [Hfirst Hnone].
  assert (∀ ms, Forall (λ m, matchesCondition (condition m) analysis = false) ms →
                Forall (λ m, ¬ all_keys key_matches (condition m) analysis) ms) as Hneg.
  { intros ms Hms. eapply Forall_impl; [exact Hms|]. intros m Hf Hm.
    apply matchesCondition_iff in Hm. congruence. }
  split; [|split].
  - intros c. apply matchesCondition_iff.
  - intros pre m post Heq Hpre Hm.
    apply (Hfirst pre m post Heq (Hneg _ Hpre)). by apply matchesCondition_iff.
  - intros Hall. apply Hnone, Hneg, Hall.
Qed.

Lemma calculateDiplomacyEffects_first_match_witness :
  calculateDiplomacyEffects (Samples.meeting Samples.tone_list) "trepov"
    "2_trepov_meeting" (Samples.analysis_of ["loyal"])
    (Samples.opinion_state "trepov" 0)
  = with_defaults Samples.loyal_effects
  ∧ matchesCondition Samples.tone_list (Samples.analysis_of ["critical"]) = false.
Proof.
  split; [|by vm_compute].
  refine (proj1 (proj2 (calculateDiplomacyEffects_first_match
    (Samples.meeting Samples.tone_list) "trepov" "2_trepov_meeting"
    (Samples.analysis_of ["loyal"]) (Samples.opinion_state "trepov" 0)
    _ _ eq_refl eq_refl)) [] _ _ eq_refl _ _).
  - constructor.
  - by vm_compute.
Defined.

(** C2 as stated fails: against the single expected value "loyal", the
    list-valued analysis value ["loyal"] does not match in the code, so the
    lookup passes over the first mapping and returns the second one's
    effects. *)
Lemma first_match_rule_as_stated_fails : ¬ first_match_rule key_matches_as_stated.
Proof.
  intros H.
  destruct (H (Samples.meeting Samples.tone_single) "trepov" "2_trepov_meeting"
              (Samples.analysis_of ["loyal"]) (Samples.opinion_state "trepov" 0)
              _ _ eq_refl eq_refl) as [Hfirst _].
  specialize (Hfirst [] _ _ eq_refl (Forall_nil_2 _)).
  assert (calculateDiplomacyEffects (Samples.meeting Samples.tone_single) "trepov"
            "2_trepov_meeting" (Samples.analysis_of ["loyal"])
            (Samples.opinion_state "trepov" 0)
          = with_defaults Samples.other_effects) as Hcode by (by vm_compute).
  rewrite Hcode in Hfirst.
  assert (with_defaults Samples.other_effects ≠ with_defaults Samples.loyal_effects)
    as Hne.
  { intros Heq.
    apply (f_equal (λ e, eff_factions e ≫= (λ m : gmap string Z, m !! "RUS"))) in Heq.
    vm_compute in Heq. discriminate. }
  apply Hne, Hfirst. intros key ev Hc. simpl in Hc. unfold Samples.tone_single in Hc.
  apply lookup_singleton_Some in Hc as [<- <-].
  exists "loyal". split; by apply list_elem_of_singleton.
Qed.
End rule_lookup.

(** ** The anti-spiral guard *)

Section guard.
Import DiplomacyEngine AIWorker Stated.

Lemma foldl_add_clamped_lookup (d m : gmap string Z) (k : string) :
  foldl add_clamped m (entries d) !! k =
    match d !! k with
    | Some x => Some (clamp100 (or0 (m !! k) + x))
    | None => m !! k
    end.
Proof.
  rewrite <- (foldl_keyed_entries (λ o x, clamp100 (or0 o + x))).
  f_equal. generalize (entries d). intros l. revert m.
  induction l as [|kv l IH]; intros m; [done|].
  cbn [foldl]. by rewrite add_clamped_keyed, IH.
Qed.

Lemma opinion_after_spec (gameState : GameState) (e : Effects)
    (o : gmap string Z) (x : Z) (npcId : string) :
  eff_npc_opinions e = Some o → o !! npcId = Some x →
  opinion_after gameState e npcId
    = Some (clamp100 (or0 (npc_opinions gameState !! npcId) + x)).
Proof.
  intros He Ho. unfold opinion_after. simpl. rewrite He.
  by rewrite foldl_add_clamped_lookup, Ho.
Qed.

Lemma opinion_component_Some (e : Effects) (npcId : string) (d : Z) :
  opinion_component e npcId = Some d ↔
  ∃ o, eff_npc_opinions e = Some o ∧ o !! npcId = Some d.
Proof.
  unfold opinion_component. destruct (eff_npc_opinions e) as [o|]; simpl.
  - split; [by exists o|by intros (? & [= <-] & ?)].
  - split; [done|by intros (? & ? & ?)].
Qed.

Lemma rewrite_negative_Some (f : Z → Z) (k : string) (o : gmap string Z) (d : Z) :
  o !! k = Some d →
  rewrite_negative f k o = <[k := if d <? 0 then f d else d]> o.
Proof.
  intros Ho. unfold rewrite_negative. rewrite Ho.
  destruct (d <? 0); [done|by rewrite insert_id].
Qed.

Lemma rewrite_negative_None (f : Z → Z) (k : string) (o : gmap string Z) :
  o !! k = None → rewrite_negative f k o = o.
Proof. intros Ho. unfold rewrite_negative. by rewrite Ho. Qed.

(** With a rules entry, the guard rewrites the one component by
    [guarded_component] and nothing else. *)
Lemma soften_and_neutralize_component (npcId : string) (effects : Effects)
    (o : gmap string Z) (cur d : Z) :
  o !! npcId = Some d →
  soften_and_neutralize npcId effects o cur d =
    {| eff_factions := eff_factions effects;
       eff_player_traits := eff_player_traits effects;
       eff_npc_opinions := Some (<[npcId := guarded_component cur d]> o);
       eff_flags := eff_flags effects |}.
Proof.
  intros Ho. unfold soften_and_neutralize. cbv zeta. do 2 f_equal.
  unfold guarded_component, softLockThreshold, hardLockThreshold. cbv zeta.
  set (p := cur + d).
  destruct (p <? -40) eqn:Hsoft; destruct (p <? -80) eqn:Hhard; simpl andb.
  - rewrite (rewrite_negative_Some _ _ _ _ Ho).
    erewrite rewrite_negative_Some by apply lookup_insert_eq.
    by rewrite insert_insert_eq.
  - by rewrite (rewrite_negative_Some _ _ _ _ Ho).
  - rewrite (rewrite_negative_Some _ _ _ _ Ho). done.
  - by rewrite insert_id.
Qed.

Lemma guard_with_rules (npc_rules : gmap string NpcRules) (npcId : string)
    (rules : NpcRules) (effects : Effects) (gameState : GameState)
    (o : gmap string Z) (d : Z) :
  npc_rules !! npcId = Some rules →
  eff_npc_opinions effects = Some o →
  o !! npcId = Some d →
  applyFallbackProtections npc_rules npcId effects gameState =
    Returned {| eff_factions := eff_factions effects;
                eff_player_traits := eff_player_traits effects;
                eff_npc_opinions :=
                  Some (<[npcId :=
                          guarded_component (or0 (npc_opinions gameState !! npcId)) d]> o);
                eff_flags := eff_flags effects |}.
Proof.
  intros Hr He Ho. unfold applyFallbackProtections. rewrite Hr, He. cbv zeta.
  rewrite Ho. change (or0 (Some d)) with d.
  by rewrite (soften_and_neutralize_component _ _ _ _ _ Ho).
Qed.

(** An id without a rules entry that names an inherited property: the guard
    runs when the opinion and the component are both recorded, and leaves the
    delta alone when one of them is not. *)
Lemma guard_inherited (npc_rules : gmap string NpcRules) (npcId : string)
    (effects : Effects) (gameState : GameState) (o : gmap string Z) :
  npc_rules !! npcId = None →
  is_inherited npcId = true →
  eff_npc_opinions effects = Some o →
  applyFallbackProtections npc_rules npcId effects gameState =
    match npc_opinions gameState !! npcId, o !! npcId with
    | Some cur, Some d =>
        Returned {| eff_factions := eff_factions effects;
                    eff_player_traits := eff_player_traits effects;
                    eff_npc_opinions := Some (<[npcId := guarded_component cur d]> o);
                    eff_flags := eff_flags effects |}
    | _, _ => Returned effects
    end.
Proof.
  intros Hr Hi He. unfold applyFallbackProtections, number_or0.
  rewrite Hr, Hi, He.
  destruct (npc_opinions gameState !! npcId) as [cur|];
    destruct (o !! npcId) as [d|] eqn:Ho; try done.
  by rewrite (soften_and_neutralize_component _ _ _ _ _ Ho).
Qed.

Lemma guard_plain (npc_rules : gmap string NpcRules) (npcId : string)
    (effects : Effects) (gameState : GameState) :
  npc_rules !! npcId = None →
  is_inherited npcId = false →
  applyFallbackProtections npc_rules npcId effects gameState = Returned effects.
Proof. intros Hr Hi. unfold applyFallbackProtections. by rewrite Hr, Hi. Qed.

Lemma guard_without_component (npc_rules : gmap string NpcRules) (npcId : string)
    (effects : Effects) (gameState : GameState) (o : gmap string Z) :
  eff_npc_opinions effects = Some o →
  o !! npcId = None →
  applyFallbackProtections npc_rules npcId effects gameState = Returned effects.
Proof.
  intros He Ho. unfold applyFallbackProtections, soften_and_neutralize.
  destruct (npc_rules !! npcId).
  - rewrite He. cbv zeta. destruct effects; simpl in *; subst.
    repeat destruct (_ <? _); by rewrite ?(rewrite_negative_None _ _ o Ho).
  - destruct (is_inherited npcId) eqn:Hi; [|done]. rewrite He.
    assert (number_or0 o npcId = None) as -> by (unfold number_or0; by rewrite Ho, Hi).
    by destruct (number_or0 _ _).
Qed.

Lemma guarded_component_spec (cur d : Z) :
  let d' := guarded_component cur d in
  d ≤ d' ∧ (d < 0 → d' ≤ 0) ∧ (0 ≤ d → d' = d)
  ∧ (-40 ≤ cur + d → d' = d)
  ∧ (d < 0 → cur + d < -40 → -3 ≤ d')
  ∧ (d < 0 → cur + d < -40 → -80 ≤ cur + d → d' = Z.max d (-3))
  ∧ (d < 0 → cur + d < -80 → d' = 0).
Proof.
  unfold guarded_component. cbv zeta.
  destruct (Z.ltb_spec (cur + d) (-40)); destruct (Z.ltb_spec d 0);
    destruct (Z.ltb_spec (cur + d) (-80)); simpl andb; cbv iota;
    try destruct (Z.ltb_spec (Z.max d (-3)) 0);
    try destruct (Z.ltb_spec d 0); simpl andb; cbv iota; lia.
Qed.







(** C5.  On a delta that has its opinions sub-map, the guard returns a
    delta with the same factions, player traits and flags sub-maps and the
    same opinion components for every other character; the component of the
    dialogue character, when there is one, is never lowered, a negative one
    stays at or below 0, and a zero or positive one is unchanged.  With
    current opinion 10 and component -5 the delta is returned as it is. *)
Theorem applyFallbackProtections_frame
    (npc_rules : gmap string NpcRules) (npcId : string)
    (effects : Effects) (gameState : GameState) (o : gmap string Z) :
  eff_npc_opinions effects = Some o →
  ∃ o',
    applyFallbackProtections npc_rules npcId effects gameState =
      Returned {| eff_factions := eff_factions effects;
                  eff_player_traits := eff_player_traits effects;
                  eff_npc_opinions := Some o';
                  eff_flags := eff_flags effects |}
    ∧ (∀ k, k ≠ npcId → o' !! k = o !! k)
    ∧ match o !! npcId with
      | None => o' !! npcId = None
      | Some d =>
          ∃ d', o' !! npcId = Some d'
                ∧ d ≤ d' ∧ (d < 0 → d' ≤ 0) ∧ (0 ≤ d → d' = d)
      end
    ∧ (or0 (npc_opinions gameState !! npcId) = 10 → o !! npcId = Some (-5) →
        applyFallbackProtections npc_rules npcId effects gameState = Returned effects).
Proof.
  intros He.
  assert (effects = {| eff_factions := eff_factions effects;
                       eff_player_traits := eff_player_traits effects;
                       eff_npc_opinions := Some o;
                       eff_flags := eff_flags effects |}) as Heff.
  { destruct effects; simpl in *; by subst. }
  destruct (npc_rules !! npcId) as [rules|] eqn:Hr; [destruct (o !! npcId) as [d|] eqn:Ho|].
  - set (cur := or0 (npc_opinions gameState !! npcId)).
    destruct (guarded_component_spec cur d) as (Hle & Hneg & Hpos & Hsafe & _).
    exists (<[npcId := guarded_component cur d]> o).
    split; [by apply (guard_with_rules _ _ rules)|].
    split; [by intros k Hk; rewrite lookup_insert_ne|].
    split.
    + exists (guarded_component cur d). by rewrite lookup_insert_eq.
    + intros Hcur [= ->]. rewrite (guard_with_rules _ _ rules _ _ o (-5)) by done.
      fold cur. rewrite Hsafe by lia. rewrite insert_id by done. by rewrite <- Heff.
  - exists o. rewrite (guard_without_component _ _ _ _ o) by done.
    split; [by rewrite <- Heff|]. by repeat split.
  - assert (match o !! npcId with
            | Some d => ∃ d', o !! npcId = Some d'
                              ∧ d ≤ d' ∧ (d < 0 → d' ≤ 0) ∧ (0 ≤ d → d' = d)
            | None => o !! npcId = None
            end) as Hsame.
    { destruct (o !! npcId) as [d|]; [|done]. exists d. repeat split; [done|lia]. }
    destruct (is_inherited npcId) eqn:Hi.
    + rewrite (guard_inherited _ _ _ _ o Hr Hi He).
      destruct (npc_opinions gameState !! npcId) as [cur|] eqn:Hcur;
        [destruct (o !! npcId) as [d|] eqn:Ho|].
      * destruct (guarded_component_spec cur d) as (Hle & Hneg & Hpos & Hsafe & _).
        exists (<[npcId := guarded_component cur d]> o).
        split; [done|]. split; [by intros k Hk; rewrite lookup_insert_ne|].
        split; [exists (guarded_component cur d); by rewrite lookup_insert_eq|].
        simpl. intros -> [= ->]. rewrite Hsafe by lia. rewrite insert_id by done.
        by rewrite <- Heff.
      * exists o. split; [by rewrite <- Heff|]. by repeat split.
      * exists o. split; [by rewrite <- Heff|]. by repeat split.
    + exists o. rewrite (guard_plain _ _ _ _ Hr Hi).
      split; [by rewrite <- Heff|]. by repeat split.
Qed.

Lemma applyFallbackProtections_frame_witness :
  applyFallbackProtections Samples.trepov_rules "trepov"
    (Samples.opinion_delta "trepov" (-5)) (Samples.opinion_state "trepov" 10)
  = Returned (Samples.opinion_delta "trepov" (-5)).
Proof.
  destruct (applyFallbackProtections_frame Samples.trepov_rules "trepov"
              (Samples.opinion_delta "trepov" (-5)) (Samples.opinion_state "trepov" 10)
              {[ "trepov" := -5 ]} eq_refl) as (o' & _ & _ & _ & Hsame).
  apply Hsame; reflexivity.
Defined.

(** C10 fails in the code for an id that names an inherited property.  The
    rules table is empty, so the character "constructor" has no entry in it;
    with the recorded opinion -75 and the component -10 the predicted opinion
    is -85, and the guard, instead of returning at once, sets the component
    to 0. *)
Theorem applyFallbackProtections_runs_for_inherited_name :
  (∅ : gmap string NpcRules) !! "constructor" = None
  ∧ applyFallbackProtections ∅ "constructor"
      (Samples.opinion_delta "constructor" (-10))
      (Samples.opinion_state "constructor" (-75))
    = Returned (Samples.opinion_delta "constructor" 0).
Proof.
  split; [apply lookup_empty|].
  rewrite (guard_inherited ∅ "constructor" _ _ {[ "constructor" := -10 ]});
    [|apply lookup_empty|reflexivity|reflexivity].
  unfold Samples.opinion_state, Samples.opinion_delta. simpl.
  rewrite !lookup_singleton_eq, insert_singleton_eq. reflexivity.
Qed.

(** For every other id without an entry the guard returns at once and the
    delta is entirely unchanged, whatever the predicted opinion. *)
Lemma applyFallbackProtections_without_rules
    (npc_rules : gmap string NpcRules) (npcId : string)
    (effects : Effects) (gameState : GameState) :
  npc_rules !! npcId = None →
  is_inherited npcId = false →
  applyFallbackProtections npc_rules npcId effects gameState = Returned effects.
Proof. apply guard_plain. Qed.

Example applyFallbackProtections_without_rules_kf :
  or0 (npc_opinions (Samples.opinion_state "kf" (-75)) !! "kf") + -10 < -80
  ∧ applyFallbackProtections Samples.trepov_rules "kf"
      (Samples.opinion_delta "kf" (-10)) (Samples.opinion_state "kf" (-75))
    = Returned (Samples.opinion_delta "kf" (-10)).
Proof.
  split; [vm_compute; reflexivity|].
  apply (guard_plain Samples.trepov_rules "kf"); reflexivity.
Qed.
End guard.

(** ** Narrative state machine *)

Section state_machine.
Import StateMachine GameEngine.

Lemma machine_eta (sm : Machine) :
  {| states := states sm; currentState := currentState sm;
     exitState := exitState sm; history := history sm |} = sm.
Proof. by destruct sm. Qed.

Lemma truthy_Some (s : string) : s ≠ "" → truthy (Some s) = true.
Proof.
  intros Hs. simpl. destruct (String.eqb s "") eqn:E; [|done].
  by apply String.eqb_eq in E.
Qed.

(** A scene with choices and a choice found: the move to its target. *)
Lemma transition_choice_found (now : Z) (choiceId : option string) (sm : Machine)
    (st : State) (cs : list Choice) (c : Choice) (target : string) :
  getCurrentState sm = Some st →
  s_type st = "scene" →
  choices st = Some cs →
  find (choice_is choiceId) cs = Some c →
  c_next c = Some target →
  target ≠ "" →
  transition now choiceId sm =
    (Returned (states sm !! target),
     {| states := states sm;
        currentState := target;
        exitState := exitState sm;
        history := history sm ++
          [ {| h_from := currentState sm; h_to := target;
               h_choice := choiceId; h_timestamp := now |} ] |}).
Proof.
  intros Hst Hty Hcs Hfind Hnext Htarget.
  unfold transition, nextState_of. rewrite Hst, Hty, Hcs. simpl.
  rewrite Hfind, Hnext, (truthy_Some _ Htarget). done.
Qed.

(** C6.  On a scene node with choices: [transition] with a choice id that
    some choice carries, the first such choice having a non-empty target,
    moves the cursor to that target and appends exactly one history record,
    whose from is the node before the move, whose to is the target and whose
    choice is the id supplied; [transition] with an id no choice carries, on
    a node without transitions (or with a non-empty id, for which the
    transitions are not tried), throws the no-valid-transition error and
    leaves the cursor and the history as they were. *)
Theorem transition_on_scene_with_choices
    (now : Z) (sm : Machine) (st : State) (cs : list Choice) :
  getCurrentState sm = Some st →
  s_type st = "scene" →
  choices st = Some cs →
  (∀ (choiceId : string) (c : Choice) (target : string),
      find (choice_is (Some choiceId)) cs = Some c →
      c_next c = Some target →
      target ≠ "" →
      transition now (Some choiceId) sm =
        (Returned (states sm !! target),
         {| states := states sm;
            currentState := target;
            exitState := exitState sm;
            history := history sm ++
              [ {| h_from := currentState sm; h_to := target;
                   h_choice := Some choiceId; h_timestamp := now |} ] |}))
  ∧ (∀ (choiceId : option string),
      find (choice_is choiceId) cs = None →
      transitions st = None ∨ truthy choiceId = true →
      transition now choiceId sm =
        (Thrown (NoValidTransition (currentState sm) choiceId), sm)).
Proof.
  intros Hst Hty Hcs. split.
  - intros choiceId c target. by apply (transition_choice_found _ _ _ st cs).
  - intros choiceId Hfind Hno.
    unfold transition, nextState_of. rewrite Hst, Hty, Hcs. simpl.
    rewrite Hfind. destruct Hno as [-> | ->]; simpl.
    + by rewrite andb_false_r.
    + done.
Qed.

Lemma transition_on_scene_with_choices_witness :
  transition 1000 (Some "b") SampleGraph.at_crossroads =
    (Returned (Some SampleGraph.ending),
     {| states := states SampleGraph.at_crossroads;
        currentState := "Y";
        exitState := "Y";
        history := [ {| h_from := "original"; h_to := "Y";
                        h_choice := Some "b"; h_timestamp := 1000 |} ] |})
  ∧ transition 1000 (Some "z") SampleGraph.at_crossroads =
      (Thrown (NoValidTransition "original" (Some "z")), SampleGraph.at_crossroads).
Proof.
  destruct (transition_on_scene_with_choices 1000 SampleGraph.at_crossroads
              SampleGraph.crossroads _ eq_refl eq_refl eq_refl) as [Hmove Hfail].
  split.
  - exact (Hmove "b" {| c_id := "b"; c_next := Some "Y" |} "Y" eq_refl eq_refl
             ltac:(discriminate)).
  - exact (Hfail (Some "z") eq_refl (or_introl eq_refl)).
Defined.
End state_machine.

(** ** Going back *)

Section going_back.
Import StateMachine GameEngine.

Lemma pop_snoc {A} (l : list A) (x : A) : pop (l ++ [x]) = Some (l, x).
Proof.
  induction l as [|y l IH]; [done|].
  cbn [app pop]. rewrite IH. by destruct l.
Qed.

Lemma pop_nil {A} (l : list A) : pop l = None ↔ l = [].
Proof.
  split; [|by intros ->].
  induction l as [|y l IH]; [done|].
  cbn [pop]. destruct l as [|z l]; [done|].
  destruct (pop (z :: l)) as [[i x]|]; [done|]. intros _. by specialize (IH eq_refl).
Qed.

Lemma moves_on_scene (env : Env) (st : State) :
  s_type st = "scene" → moves_on env st = false.
Proof. intros Hty. unfold moves_on. by rewrite Hty. Qed.

(** On a scene node the engine draws and waits: the machine stays as it is. *)
Lemma processCurrentState_scene (env : Env) (clock : list Z) (sm : Machine) (st : State) :
  getCurrentState sm = Some st →
  s_type st = "scene" →
  processCurrentState env clock sm = (handleSceneState env sm st, sm).
Proof.
  intros Hst Hty. destruct clock; cbn [processCurrentState];
    by rewrite Hst, (moves_on_scene _ _ Hty), Hty.
Qed.

Lemma navigateBack_onto_scene (env : Env) (clock : list Z) (sm : Machine)
    (rest : list HistoryRecord) (lastTransition : HistoryRecord) (st : State) :
  history sm = rest ++ [lastTransition] →
  states sm !! h_from lastTransition = Some st →
  s_type st = "scene" →
  (navigateBack env clock sm).2 =
    {| states := states sm;
       currentState := h_from lastTransition;
       exitState := exitState sm;
       history := rest |}.
Proof.
  intros Hh Hst Hty. unfold navigateBack. rewrite Hh, pop_snoc.
  by rewrite (processCurrentState_scene _ _ _ st).
Qed.

(** C7, as the code has it.  [navigateBack] removes the most recent history
    record and sets the current node id to that record's from field; when
    the node gone back to is a scene, which the engine only draws, no history
    record is appended, so after one forward transition chosen on a scene
    node, going back restores the machine exactly: the original current node
    id and the original history, empty if it was empty.  On an empty history
    [navigateBack] returns without an error and changes nothing. *)
Theorem navigateBack_restores_scene :
  (∀ env clock sm rest lastTransition st,
      history sm = rest ++ [lastTransition] →
      states sm !! h_from lastTransition = Some st →
      s_type st = "scene" →
      (navigateBack env clock sm).2 =
        {| states := states sm;
           currentState := h_from lastTransition;
           exitState := exitState sm;
           history := rest |})
  ∧ (∀ env clock now sm st cs choiceId c target,
      getCurrentState sm = Some st →
      s_type st = "scene" →
      choices st = Some cs →
      find (choice_is (Some choiceId)) cs = Some c →
      c_next c = Some target →
      target ≠ "" →
      (navigateBack env clock (transition now (Some choiceId) sm).2).2 = sm)
  ∧ (∀ env clock sm,
      history sm = [] →
      navigateBack env clock sm = (Returned tt, sm)).
Proof.
  split; [|split].
  - apply navigateBack_onto_scene.
  - intros env clock now sm st cs choiceId c target Hst Hty Hcs Hfind Hnext Htarget.
    rewrite (transition_choice_found now (Some choiceId) sm st cs c target) by done.
    cbn [snd].
    erewrite navigateBack_onto_scene; [|reflexivity|exact Hst|exact Hty].
    cbn [states exitState h_from]. apply machine_eta.
  - intros env clock sm Hh. unfold navigateBack. by rewrite Hh.
Qed.

Lemma navigateBack_restores_scene_witness :
  (navigateBack SampleGraph.no_ai []
     (transition 1000 (Some "b") SampleGraph.at_crossroads).2).2
    = SampleGraph.at_crossroads
  ∧ navigateBack SampleGraph.no_ai [] SampleGraph.at_crossroads
    = (Returned tt, SampleGraph.at_crossroads).
Proof.
  destruct navigateBack_restores_scene as (_ & Hround & Hempty).
  split.
  - exact (Hround SampleGraph.no_ai [] 1000 SampleGraph.at_crossroads
             SampleGraph.crossroads _ "b" {| c_id := "b"; c_next := Some "Y" |} "Y"
             eq_refl eq_refl eq_refl eq_refl eq_refl ltac:(discriminate)).
  - exact (Hempty SampleGraph.no_ai [] SampleGraph.at_crossroads eq_refl).
Defined.

(** C7 as stated fails twice.  From the opening system node one forward
    transition leads to the first scene; going back from there returns to the
    system node, which moves on again at once: the cursor is on the first
    scene, not on the original node, and the history holds a new record.
    And on an empty history going back does not fail: it returns normally. *)
Lemma navigateBack_as_stated_fails :
  let forward := (transition 1000 None SampleGraph.opening).2 in
  let back := navigateBack SampleGraph.no_ai [2000; 3000] forward in
  currentState SampleGraph.opening = "start"
  ∧ history SampleGraph.opening = []
  ∧ history forward = [ {| h_from := "start"; h_to := "scene_1";
                           h_choice := None; h_timestamp := 1000 |} ]
  ∧ back.1 = Returned tt
  ∧ currentState back.2 = "scene_1"
  ∧ history back.2 = [ {| h_from := "start"; h_to := "scene_1";
                          h_choice := None; h_timestamp := 2000 |} ]
  ∧ navigateBack SampleGraph.no_ai [2000; 3000] SampleGraph.opening
    = (Returned tt, SampleGraph.opening).
Proof. vm_compute. repeat split. Qed.
End going_back.

(** ** Parsing the model's reply *)

Section parse_response.
Import AIClient.
Context {number : Type} (is_zero : number → bool).
Context (trim replace_json_fence replace_fence : string → string).
Context (JSON_parse : string → option (json number)).

Local Abbreviation parseResponse :=
  (AIClient.parseResponse number is_zero trim replace_json_fence replace_fence JSON_parse).
Local Abbreviation parse_and_validate :=
  (AIClient.parse_and_validate number is_zero trim replace_json_fence replace_fence
     JSON_parse).
Local Abbreviation cleanText := (AIClient.cleanText trim replace_json_fence replace_fence).
Local Abbreviation truthy := (AIClient.truthy number is_zero).

Lemma get_Returned (v : json number) (key : string) (o : option (json number)) :
  get number v key = Returned o → o = field v key.
Proof. destruct v; simpl; congruence. Qed.

Lemma check_Returned (ok : bool) (e : js_error) (u : unit) :
  check ok e = Returned u → ok = true.
Proof. by destruct ok. Qed.

Lemma and_then_Returned {A B} (r : result A) (k : A → result B) (b : B) :
  and_then r k = Returned b → ∃ a, r = Returned a ∧ k a = Returned b.
Proof. destruct r as [a|e]; simpl; [by exists a|done]. Qed.

(** What the [try] block has checked when it reaches its [return]. *)
Lemma parse_and_validate_Returned (responseText : string) (parsed : json number) :
  parse_and_validate responseText = Returned parsed →
  JSON_parse (cleanText responseText) = Some parsed
  ∧ truthy (field parsed "response") = true
  ∧ ∃ analysis,
      field parsed "analysis" = Some analysis
      ∧ truthy (Some analysis) = true
      ∧ truthy (field analysis "overall_tone") = true
      ∧ truthy (field analysis "detected_stance_towards_russia") = true.
Proof.
  unfold AIClient.parse_and_validate.
  destruct (JSON_parse _) as [p|]; [|done]. intros H.
  apply and_then_Returned in H as (response & Hresponse & H).
  apply and_then_Returned in H as ([] & Hc1 & H).
  apply and_then_Returned in H as (analysis & Hanalysis & H).
  apply and_then_Returned in H as ([] & Hc2 & H).
  apply and_then_Returned in H as (overall_tone & Htone & H).
  apply and_then_Returned in H as ([] & Hc3 & H).
  apply and_then_Returned in H as (stance & Hstance & H).
  apply and_then_Returned in H as ([] & Hc4 & [= <-]).
  apply get_Returned in Hresponse as ->. apply get_Returned in Hanalysis as ->.
  apply check_Returned in Hc1, Hc2, Hc3, Hc4.
  destruct (field p "analysis") as [a|]; [|done]. simpl in Htone, Hstance.
  apply get_Returned in Htone as ->. apply get_Returned in Hstance as ->.
  split; [done|]. split; [done|]. by exists a.
Qed.

(** C8.  For every reply text [parseResponse] returns and never throws; when
    the text, with the code-fence markers stripped, is not valid JSON, or
    the parsed value lacks [response], [analysis], [analysis.overall_tone]
    or [analysis.detected_stance_towards_russia], what it returns is the
    fixed fallback reply, whose analysis is overall_tone ["neutral"],
    detected_stance_towards_russia "neutral", cooperativeness "medium". *)
Theorem parseResponse_never_throws (responseText : string) :
  (∃ reply, parseResponse responseText = Returned reply)
  ∧ (JSON_parse (cleanText responseText) = None →
      parseResponse responseText = Returned fallback)
  ∧ (∀ parsed,
      JSON_parse (cleanText responseText) = Some parsed →
      field parsed "response" = None
      ∨ field parsed "analysis" = None
      ∨ (∃ analysis,
           field parsed "analysis" = Some analysis
           ∧ (field analysis "overall_tone" = None
              ∨ field analysis "detected_stance_towards_russia" = None)) →
      parseResponse responseText = Returned fallback)
  ∧ field (number:=number) fallback "analysis" =
      Some (JObject [ ("overall_tone", JArray [JString "neutral"]);
                      ("detected_stance_towards_russia", JString "neutral");
                      ("cooperativeness", JString "medium") ]).
Proof.
  split; [|split; [|split]].
  - unfold AIClient.parseResponse. destruct parse_and_validate; eauto.
  - intros Hparse. unfold AIClient.parseResponse, AIClient.parse_and_validate.
    by rewrite Hparse.
  - intros parsed Hparse Hlacks. unfold AIClient.parseResponse.
    destruct parse_and_validate as [p|e] eqn:Htry; [|done].
    apply parse_and_validate_Returned in Htry
      as (Hp & Hresponse & a & Ha & _ & Htone & Hstance).
    rewrite Hparse in Hp. injection Hp as <-.
    destruct Hlacks as [Hl | [Hl | (a' & Ha' & [Hl | Hl])]].
    + by rewrite Hl in Hresponse.
    + by rewrite Hl in Ha.
    + rewrite Ha in Ha'. injection Ha' as <-. by rewrite Hl in Htone.
    + rewrite Ha in Ha'. injection Ha' as <-. by rewrite Hl in Hstance.
  - reflexivity.
Qed.

(** A reply that passes every check is returned as parsed. *)
Lemma parseResponse_valid (responseText : string) (parsed analysis : json number) :
  JSON_parse (cleanText responseText) = Some parsed →
  truthy (field parsed "response") = true →
  field parsed "analysis" = Some analysis →
  truthy (Some analysis) = true →
  truthy (field analysis "overall_tone") = true →
  truthy (field analysis "detected_stance_towards_russia") = true →
  parseResponse responseText = Returned parsed.
Proof.
  intros Hparse Hr Ha Hat Htone Hstance.
  unfold AIClient.parseResponse, AIClient.parse_and_validate. rewrite Hparse.
  destruct parsed; try done. simpl in *. rewrite Hr, Ha. simpl. rewrite Hat. simpl.
  destruct analysis; try done. simpl in *. by rewrite Htone, Hstance.
Qed.
End parse_response.

Lemma parseResponse_never_throws_witness :
  AIClient.parseResponse Z (Z.eqb 0) SampleHost.no_change SampleHost.no_change
    SampleHost.no_change SampleHost.parse_two "Hyvaa paivaa, herra eversti."
  = Returned AIClient.fallback
  ∧ AIClient.parseResponse Z (Z.eqb 0) SampleHost.no_change SampleHost.no_change
      SampleHost.no_change SampleHost.parse_two "{}"
    = Returned AIClient.fallback.
Proof.
  split.
  - exact (proj1 (proj2 (parseResponse_never_throws (Z.eqb 0) SampleHost.no_change
             SampleHost.no_change SampleHost.no_change SampleHost.parse_two
             "Hyvaa paivaa, herra eversti.")) eq_refl).
  - exact (proj1 (proj2 (proj2 (parseResponse_never_throws (Z.eqb 0) SampleHost.no_change
             SampleHost.no_change SampleHost.no_change SampleHost.parse_two "{}")))
             (AIClient.JObject []) eq_refl (or_introl eq_refl)).
Defined.

(** ** Heuristic analysis of the player's utterance *)

Section heuristic_analysis.
Import AIWorkerSafe.
Context (toLowerCase : string → string).

Lemma prefix_iff (kw s : string) :
  String.prefix kw s = true ↔ ∃ after, s = kw +:+ after.
Proof.
  revert s. induction kw as [|a kw IH]; intros [|b s]; simpl.
  - split; [by exists ""|done].
  - split; [by exists (String b s)|done].
  - split; [done|by intros (after & ?)].
  - destruct (ascii_dec a b) as [->|Hne].
    + rewrite IH. split.
      * intros (after & ->). by exists after.
      * intros (after & [= ->]). by exists after.
    + split; [done|]. intros (after & [= -> _]). done.
Qed.

Lemma includes_iff (kw s : string) : includes kw s = true ↔ occurs kw s.
Proof.
  unfold occurs. induction s as [|b s IH]; cbn [includes].
  - rewrite orb_false_r, prefix_iff. split.
    + intros (after & ->). by exists "", after.
    + intros ([|c before] & after & H); [by exists after|done].
  - rewrite orb_true_iff, prefix_iff, IH. split.
    + intros [(after & ->) | (before & after & ->)].
      * by exists "", after.
      * by exists (String b before), after.
    + intros ([|c before] & after & H).
      * left. by exists after.
      * right. injection H as -> ->. by exists before, after.
Qed.

Lemma matches_iff (keywords : list string) (s : string) :
  matches keywords s = true ↔ in_family keywords s.
Proof.
  unfold matches, in_family. rewrite existsb_exists. split.
  - intros (kw & Hin & Hinc). exists kw. split; [by apply list_elem_of_In|].
    by apply includes_iff.
  - intros (kw & Hin & Hocc). exists kw. split; [by apply list_elem_of_In|].
    by apply includes_iff.
Qed.

Lemma matches_false (keywords : list string) (s : string) :
  ¬ in_family keywords s → matches keywords s = false.
Proof.
  intros Hn. destruct (matches keywords s) eqn:E; [|done].
  by apply matches_iff in E.
Qed.

(** C9.  The analyzer looks at the lowercased text and tries the four
    keyword families in the order duty, caution, refusal, agreement; the
    result is the triple of the first family one of whose keywords occurs in
    the text: a text with a duty keyword gives the duty triple whatever else
    it holds, a caution keyword too; a text with no keyword of any family
    gives tone neutral, no themes, sentiment neutral. *)
Theorem analyzePlayerResponse_first_family (playerText : string) :
  let lowerText := toLowerCase playerText in
  let result := analyzePlayerResponse toLowerCase playerText in
  (in_family duty_terms lowerText →
     result = {| tone := "loyal"; themes := ["duty"]; sentiment := "positive" |})
  ∧ (¬ in_family duty_terms lowerText →
     in_family caution_terms lowerText →
     result = {| tone := "concerned"; themes := ["caution"]; sentiment := "neutral" |})
  ∧ (¬ in_family duty_terms lowerText →
     ¬ in_family caution_terms lowerText →
     in_family refusal_terms lowerText →
     result = {| tone := "defiant"; themes := ["resistance"]; sentiment := "negative" |})
  ∧ (¬ in_family duty_terms lowerText →
     ¬ in_family caution_terms lowerText →
     ¬ in_family refusal_terms lowerText →
     in_family agreement_terms lowerText →
     result = {| tone := "cooperative"; themes := ["agreement"];
                 sentiment := "positive" |})
  ∧ (¬ in_family duty_terms lowerText →
     ¬ in_family caution_terms lowerText →
     ¬ in_family refusal_terms lowerText →
     ¬ in_family agreement_terms lowerText →
     result = {| tone := "neutral"; themes := []; sentiment := "neutral" |})
  ∧ (in_family duty_terms lowerText →
     in_family caution_terms lowerText →
     result = {| tone := "loyal"; themes := ["duty"]; sentiment := "positive" |}).
Proof.
  cbv zeta. unfold analyzePlayerResponse.
  repeat split; intros;
    repeat match goal with
    | H : in_family _ _ |- _ => apply matches_iff in H; rewrite H
    | H : ¬ in_family _ _ |- _ => apply matches_false in H; rewrite H
    end; reflexivity.
Qed.
End heuristic_analysis.

Lemma analyzePlayerResponse_first_family_witness :
  AIWorkerSafe.analyzePlayerResponse AIWorkerSafe.lower_ascii
    "Velvollisuus on RISKI, mutta palvelen."
  = {| AIWorkerSafe.tone := "loyal"; AIWorkerSafe.themes := ["duty"];
       AIWorkerSafe.sentiment := "positive" |}.
Proof.
  refine (proj2 (proj2 (proj2 (proj2 (proj2
    (analyzePlayerResponse_first_family AIWorkerSafe.lower_ascii
       "Velvollisuus on RISKI, mutta palvelen."))))) _ _).
  - apply matches_iff. vm_compute. reflexivity.
  - apply matches_iff. vm_compute. reflexivity.
Defined.

(** * Further properties of the engine *)

(** ** Diplomacy state *)

Section diplomacy_state.
Import DiplomacyEngine AIWorker DiplomacyRules.

Lemma foldl_zero_lookup (ids : list string) (m : gmap string Z) (k : string) :
  foldl (λ m id, <[id := 0]> m) m ids !! k
    = if decide (k ∈ ids) then Some 0 else m !! k.
Proof.
  revert m. induction ids as [|id ids IH]; intros m; cbn [foldl].
  - by rewrite decide_False by apply not_elem_of_nil.
  - rewrite IH. destruct (decide (k ∈ ids)) as [Hin|Hnin].
    + by rewrite decide_True by (by right).
    + destruct (decide (k = id)) as [->|Hne].
      * rewrite decide_True by left. apply lookup_insert_eq.
      * rewrite decide_False by (by intros [?|?]%elem_of_cons).
        by apply lookup_insert_ne.
Qed.


Lemma foldl_add_clamped_keyed (l : list (string * Z)) (m : gmap string Z) :
  foldl add_clamped m l = foldl (keyed_step (λ o x, clamp100 (or0 o + x))) m l.
Proof.
  revert m. induction l as [|kv l IH]; intros m; [done|].
  cbn [foldl]. by rewrite add_clamped_keyed, IH.
Qed.

(** The loop over the entries gives the same values in whatever order the
    entries come. *)
Lemma foldl_add_clamped_any_order (d m : gmap string Z) (l : list (string * Z))
    (k : string) :
  l ≡ₚ entries d →
  foldl add_clamped m l !! k =
    match d !! k with
    | Some x => Some (clamp100 (or0 (m !! k) + x))
    | None => m !! k
    end.
Proof.
  intros Hp. unfold entries in Hp.
  assert (NoDup l.*1) as Hnd.
  { rewrite Hp. apply NoDup_fst_map_to_list. }
  rewrite foldl_add_clamped_keyed, foldl_keyed_lookup by done.
  assert ((list_to_map l : gmap string Z) = d) as ->; [|done].
  rewrite <- (list_to_map_to_list d). by apply list_to_map_proper.
Qed.

(** X2.  After [applyEffects], a faction or an opinion named by the effects
    holds what was read for its old value (the number, 0 when missing or NaN)
    plus the delta, clamped to [-100, 100]; under an inherited name that the
    state did not hold it is NaN, and under [__proto__] nothing is stored.
    One that the effects do not name keeps what it had, and no key is ever
    removed.  Under a name that is not inherited the values are those of
    [DiplomacyEngine.applyEffects], whatever else the effects name.  The loop
    over the entries of a sub-map gives these values in whatever order the
    entries are visited. *)
Theorem applyEffects_lookup (gs : Prototype.GameState) (effects : Effects) (k : string) :
  let after := Prototype.applyEffects gs effects in
  let clamped_sum (old : gmap string Prototype.value) (delta : option (gmap string Z)) :=
    match default ∅ delta !! k with
    | Some x =>
        Prototype.assigned k (old !! k)
          (Prototype.clamp (Prototype.plus (Prototype.operand_of k (old !! k)) x))
    | None => old !! k
    end in
  Prototype.factions after !! k
    = clamped_sum (Prototype.factions gs) (eff_factions effects)
  ∧ Prototype.npc_opinions after !! k
      = clamped_sum (Prototype.npc_opinions gs) (eff_npc_opinions effects)
  ∧ (is_inherited k = false →
     ∀ numbers, gs = Prototype.of_state numbers →
       Prototype.factions after !! k
         = Prototype.Num <$> factions (applyEffects numbers effects) !! k
       ∧ Prototype.npc_opinions after !! k
           = Prototype.Num <$> npc_opinions (applyEffects numbers effects) !! k)
  ∧ (is_Some (Prototype.factions gs !! k) → is_Some (Prototype.factions after !! k))
  ∧ (is_Some (Prototype.npc_opinions gs !! k) →
      is_Some (Prototype.npc_opinions after !! k))
  ∧ (is_Some (Prototype.player_traits gs !! k) →
      is_Some (Prototype.player_traits after !! k))
  ∧ (is_Some (Prototype.flags gs !! k) → is_Some (Prototype.flags after !! k))
  ∧ (∀ (d : gmap string Z) (m : gmap string Prototype.value) (l : list (string * Z)),
      l ≡ₚ entries d →
      foldl Prototype.add_clamped m l !! k
        = foldl Prototype.add_clamped m (entries d) !! k).
Proof.
  cbv zeta.
  assert (∀ (old : gmap string Prototype.value) (delta : option (gmap string Z)),
            match delta with
            | Some d => foldl Prototype.add_clamped old (entries d)
            | None => old
            end !! k
            = match default ∅ delta !! k with
              | Some x =>
                  Prototype.assigned k (old !! k)
                    (Prototype.clamp (Prototype.plus (Prototype.operand_of k (old !! k)) x))
              | None => old !! k
              end) as Hloop.
  { intros old [d|]; simpl; [apply foldl_add_clamped_own_key|by rewrite lookup_empty]. }
  assert (∀ (old : gmap string Z) (delta : option (gmap string Z)),
            is_inherited k = false →
            match delta with
            | Some d => foldl Prototype.add_clamped (Prototype.Num <$> old) (entries d)
            | None => Prototype.Num <$> old
            end !! k
            = Prototype.Num <$>
                match delta with
                | Some d => foldl add_clamped old (entries d)
                | None => old
                end !! k) as Hplain.
  { intros old delta Hk. rewrite Hloop. destruct delta as [d|]; simpl.
    - rewrite foldl_add_clamped_lookup, lookup_fmap.
      destruct (d !! k) as [x|]; [|done].
      rewrite (assigned_plain _ _ _ Hk). unfold Prototype.operand_of.
      destruct (old !! k); simpl; by rewrite ?Hk.
    - by rewrite lookup_empty, lookup_fmap. }
  split; [apply Hloop|]. split; [apply Hloop|].
  split; [|split; [|split; [|split; [|split]]]].
  - intros Hk numbers ->. split; apply (Hplain _ _ Hk).
  - intros Hs. simpl. rewrite Hloop. destruct (default ∅ (eff_factions effects) !! k);
      [by rewrite assigned_own|done].
  - intros Hs. simpl. rewrite Hloop. destruct (default ∅ (eff_npc_opinions effects) !! k);
      [by rewrite assigned_own|done].
  - intros Hs. simpl. destruct (eff_player_traits effects) as [d|]; [|done].
    rewrite foldl_add_plain_own_key. destruct (d !! k); [by rewrite assigned_own|done].
  - intros Hs. simpl. destruct (eff_flags effects) as [d|]; [|done].
    rewrite object_assign_own_key. destruct (d !! k); [by rewrite assigned_own|done].
  - intros d m l Hp.
    rewrite (foldl_add_clamped_own_key_any_order d m l k Hp).
    by rewrite foldl_add_clamped_own_key.
Qed.

Lemma applyEffects_with_defaults (gs : GameState) (e : Effects) :
  applyEffects gs (with_defaults e) = applyEffects gs e.
Proof.
  unfold applyEffects, with_defaults. simpl.
  destruct e as [[f|] [t|] [o|] [fl|]]; simpl; unfold entries, object_assign;
    rewrite ?map_to_list_empty, ?(left_id_L ∅ (∪)); simpl; reflexivity.
Qed.

Lemma applyEffects_getDefaultEffects (gs : GameState) :
  applyEffects gs getDefaultEffects = gs.
Proof.
  unfold applyEffects, getDefaultEffects, entries, object_assign. simpl.
  rewrite map_to_list_empty, (left_id_L ∅ (∪)). by destruct gs.
Qed.

(** X3.  Reading a missing sub-map as an empty one changes nothing in what
    [applyEffects] does, and the neutral default effect leaves the game state
    as it is. *)
Theorem applyEffects_neutral (gs : GameState) (e : Effects) :
  applyEffects gs (with_defaults e) = applyEffects gs e
  ∧ applyEffects gs getDefaultEffects = gs.
Proof.
  split; [apply applyEffects_with_defaults|apply applyEffects_getDefaultEffects].
Qed.
End diplomacy_state.

(** ** The scene tables *)

Section scene_tables.
Import DiplomacyEngine AIWorker DiplomacyRules.

(** X4.  [applyChoice] changes nothing when the scene is unknown; when the
    scene has a [choices] array the choice is looked up there and nowhere
    else, so an id that only [linear_choices] carries changes nothing;
    [linear_choices] is read only when the scene has no [choices] at all. *)
Theorem applyChoice_lookup (acts : list SceneEntry) (sceneId choiceId : string)
    (gs : GameState) :
  (find_scene acts sceneId = None → applyChoice acts sceneId choiceId gs = Returned gs)
  ∧ (∀ sc cs,
      find_scene acts sceneId = Some sc →
      se_choices sc = Some cs →
      find_choice cs choiceId = None →
      applyChoice acts sceneId choiceId gs = Returned gs)
  ∧ (∀ sc ls c e,
      find_scene acts sceneId = Some sc →
      se_choices sc = None →
      se_linear_choices sc = Some ls →
      find_choice ls choiceId = Some c →
      ce_effects c = Some e →
      applyChoice acts sceneId choiceId gs = Returned (applyEffects gs e)).
Proof.
  unfold applyChoice. split; [|split].
  - by intros ->.
  - intros sc cs -> -> Hc. by rewrite Hc.
  - intros sc ls c e -> -> -> Hc He. by rewrite Hc, He.
Qed.

Lemma applyChoice_lookup_witness :
  applyChoice [SampleRules.shadowed_scene] "3_orders" "a" (initializeGameState ["RUS"])
    = Returned (initializeGameState ["RUS"])
  ∧ applyChoice [SampleRules.linear_scene] "4_departure" "a" (initializeGameState ["RUS"])
    = Returned (applyEffects (initializeGameState ["RUS"]) Samples.big_push).
Proof.
  split.
  - exact (proj1 (proj2 (applyChoice_lookup [SampleRules.shadowed_scene] "3_orders" "a"
             (initializeGameState ["RUS"]))) SampleRules.shadowed_scene [] eq_refl eq_refl
             eq_refl).
  - exact (proj2 (proj2 (applyChoice_lookup [SampleRules.linear_scene] "4_departure" "a"
             (initializeGameState ["RUS"]))) SampleRules.linear_scene _ _ _ eq_refl eq_refl
             eq_refl eq_refl eq_refl).
Defined.

Lemma apply_first_match_settled (mappings : list Mapping)
    (analysis : gmap string actual) (gs : Prototype.GameState) :
  Prototype.settled_state gs →
  Prototype.settled_state (PrototypeRules.apply_first_match mappings analysis gs).
Proof.
  intros Hgs. induction mappings as [|m ms IH]; simpl; [done|].
  destruct (matchesCondition _ _); [by apply applyEffects_settled|done].
Qed.

Lemma after_call_settled (acts : list SceneEntry) (gs : Prototype.GameState) (c : call) :
  Prototype.settled_state gs → Prototype.settled_state (PrototypeRules.after_call acts gs c).
Proof.
  intros Hgs. destruct c as [sceneId choiceId|sceneId analysis|e]; simpl.
  - unfold PrototypeRules.applyChoice. destruct (find_scene _ _) as [sc|]; [|done].
    destruct (match se_choices sc with Some _ => _ | None => _ end) as [c|]; [|done].
    destruct (ce_effects c); [by apply applyEffects_settled|done].
  - unfold PrototypeRules.applyAIDialogue. destruct (find_scene _ _) as [sc|]; [|done].
    destruct (se_ai_dialogue sc); [by apply apply_first_match_settled|done].
  - by apply applyEffects_settled.
Qed.

(** X5.  Whatever the scene tables hold, after any sequence of
    [applyChoice], [applyAIDialogue] and [applyEffects] calls on the
    initialized state every faction value and every NPC opinion value is a
    number of [-100, 100], or NaN under a name that object literals inherit;
    so under every other name it is a number of [-100, 100]. *)
Theorem engine_calls_stay_in_bounds (acts : list SceneEntry) (factionIds : list string)
    (calls : list call) :
  let gs := foldl (PrototypeRules.after_call acts)
              (Prototype.initializeGameState factionIds) calls in
  (∀ k v, Prototype.factions gs !! k = Some v ∨ Prototype.npc_opinions gs !! k = Some v →
     match v with
     | Prototype.Num z => -100 ≤ z ≤ 100
     | Prototype.NaN => is_inherited k = true
     | Prototype.Text => False
     end)
  ∧ (∀ k v, is_inherited k = false →
       Prototype.factions gs !! k = Some v ∨ Prototype.npc_opinions gs !! k = Some v →
       ∃ z, v = Prototype.Num z ∧ -100 ≤ z ≤ 100).
Proof.
  cbv zeta.
  assert (Prototype.settled_state
            (foldl (PrototypeRules.after_call acts)
               (Prototype.initializeGameState factionIds) calls)) as [Hf Ho].
  { generalize (initializeGameState_settled factionIds).
    generalize (Prototype.initializeGameState factionIds).
    induction calls as [|c calls IH]; intros gs Hgs; [done|].
    cbn [foldl]. by apply IH, after_call_settled. }
  assert (∀ k v,
            Prototype.factions
              (foldl (PrototypeRules.after_call acts)
                 (Prototype.initializeGameState factionIds) calls) !! k = Some v
            ∨ Prototype.npc_opinions
                (foldl (PrototypeRules.after_call acts)
                   (Prototype.initializeGameState factionIds) calls) !! k = Some v →
            Prototype.number_or_NaN k v) as Hall.
  { intros k v [H|H]; [by apply Hf|by apply Ho]. }
  split; [exact Hall|].
  intros k v Hk Hv. specialize (Hall k v Hv). destruct v as [z| |]; simpl in Hall.
  - by exists z.
  - congruence.
  - done.
Qed.

Lemma find_as_act (acts : list SceneEntry) (sceneId : string) :
  find (λ a, String.eqb (scene a) sceneId) (as_act <$> acts)
    = as_act <$> find_scene acts sceneId.
Proof.
  unfold find_scene. induction acts as [|a acts IH]; [done|].
  cbn [fmap list_fmap find]. simpl scene. by destruct (String.eqb (se_scene a) sceneId).
Qed.

(** X6.  The engine's own [applyAIDialogue] and the worker's route, the
    delta of [calculateDiplomacyEffects] handed to [applyEffects], leave the
    same game state. *)
Theorem applyAIDialogue_agrees_with_worker (acts : list SceneEntry)
    (npcId sceneId : string) (analysis : gmap string actual) (gs : GameState) :
  applyAIDialogue acts sceneId analysis gs
    = applyEffects gs
        (calculateDiplomacyEffects (as_act <$> acts) npcId sceneId analysis gs).
Proof.
  unfold applyAIDialogue, calculateDiplomacyEffects. rewrite find_as_act.
  pose proof (applyEffects_getDefaultEffects gs) as Hneutral.
  destruct (find_scene acts sceneId) as [sc|]; simpl; [|done].
  destruct (se_ai_dialogue sc) as [ad|]; [|done].
  induction (effects_mapping ad) as [|m ms IH]; simpl; [done|].
  destruct (matchesCondition _ _); [|exact IH].
  by rewrite applyEffects_with_defaults.
Qed.

(** X7.  The relationship tier never goes down when the opinion goes up,
    as long as both opinions read as numbers.  A character without a recorded
    opinion is rated like one at 0, NEUTRAL, unless its id names an inherited
    property: the opinion read is then no number and the tier is ALLY. *)
Theorem getRelationshipTier_monotone (gs gs' : GameState) (npcId : string) :
  (∀ o o',
      number_or0 (npc_opinions gs) npcId = Some o →
      number_or0 (npc_opinions gs') npcId = Some o' →
      o ≤ o' →
      (tier_rank (getRelationshipTier gs npcId)
         ≤ tier_rank (getRelationshipTier gs' npcId))%nat)
  ∧ (npc_opinions gs !! npcId = None →
      getRelationshipTier gs npcId = if is_inherited npcId then "ALLY" else "NEUTRAL").
Proof.
  unfold getRelationshipTier. split.
  - intros o o' -> -> Hle.
    repeat match goal with
    | |- context [ (?a <=? ?b) ] => destruct (Z.leb_spec a b)
    end; cbn; lia.
  - intros Hnone. unfold number_or0. rewrite Hnone.
    by destruct (is_inherited npcId).
Qed.

Lemma getRelationshipTier_monotone_witness :
  (tier_rank (getRelationshipTier (Samples.opinion_state "kf" (-60)) "kf")
     ≤ tier_rank (getRelationshipTier (Samples.opinion_state "kf" 20) "kf"))%nat
  ∧ getRelationshipTier (Samples.opinion_state "kf" 20) "trepov" = "NEUTRAL"
  ∧ getRelationshipTier (Samples.opinion_state "kf" 20) "constructor" = "ALLY".
Proof.
  split; [|split].
  - apply (proj1 (getRelationshipTier_monotone (Samples.opinion_state "kf" (-60))
                    (Samples.opinion_state "kf" 20) "kf") (-60) 20).
    + reflexivity.
    + reflexivity.
    + lia.
  - exact (proj2 (getRelationshipTier_monotone (Samples.opinion_state "kf" 20)
                    (Samples.opinion_state "kf" 20) "trepov") eq_refl).
  - exact (proj2 (getRelationshipTier_monotone (Samples.opinion_state "kf" 20)
                    (Samples.opinion_state "kf" 20) "constructor") eq_refl).
Defined.
End scene_tables.

(** ** Character profiles *)

Section profiles.
Import DiplomacyEngine AIWorker Dialogue.
Context {value : Type} (truthy_value : value → bool).

Local Abbreviation getNPCProfile := (Dialogue.getNPCProfile truthy_value).
Local Abbreviation fullProfile := (Dialogue.fullProfile value truthy_value).
Local Abbreviation prefer := (Dialogue.prefer value truthy_value).

Lemma set_field_lookup (k k' : string) (v : option value) (o : gmap string value) :
  set_field value k v o !! k' = if decide (k = k') then v else o !! k'.
Proof.
  destruct v as [x|]; simpl; case_decide as Hk; subst.
  - apply lookup_insert_eq.
  - by apply lookup_insert_ne.
  - apply lookup_delete_eq.
  - by apply lookup_delete_ne.
Qed.

(** X8.  In the merged profile a property of the AI profile overrides the
    base record's, except that for persona, alignment_behavior and
    dialogue_output_rules a falsy value in the AI profile gives way to the
    base record's; without an AI profile every property reads as in the base
    record. *)
Theorem fullProfile_lookup (baseProfile : Npc value) (aiProfile : option (Npc value)) (k : string) :
  npc_fields (fullProfile baseProfile aiProfile) !! k =
    (if decide (k ∈ ["persona"; "alignment_behavior"; "dialogue_output_rules"])
     then prefer aiProfile baseProfile k
     else match aiProfile ≫= (λ a, npc_fields a !! k) with
          | Some v => Some v
          | None => npc_fields baseProfile !! k
          end)
  ∧ npc_fields (fullProfile baseProfile None) !! k = npc_fields baseProfile !! k.
Proof.
  assert (∀ ai, npc_fields (fullProfile baseProfile ai) !! k =
    (if decide (k ∈ ["persona"; "alignment_behavior"; "dialogue_output_rules"])
     then prefer ai baseProfile k
     else match ai ≫= (λ a, npc_fields a !! k) with
          | Some v => Some v
          | None => npc_fields baseProfile !! k
          end)) as H.
  { intros ai. unfold Dialogue.fullProfile. cbn [npc_fields].
    rewrite !set_field_lookup.
    destruct (decide ("dialogue_output_rules" = k)) as [<-|H1]; [done|].
    destruct (decide ("alignment_behavior" = k)) as [<-|H2]; [done|].
    destruct (decide ("persona" = k)) as [<-|H3]; [done|].
    rewrite decide_False.
    2:{ intros Hin. repeat (apply elem_of_cons in Hin as [->|Hin]; [done|]).
        by apply elem_of_nil in Hin. }
    destruct ai as [a|]; simpl; [|done].
    rewrite lookup_union. by destruct (npc_fields a !! k), (npc_fields baseProfile !! k). }
  split; [apply H|]. rewrite H. unfold Dialogue.prefer. simpl. by case_decide.
Qed.

Lemma getNPCProfile_inv (w w' : Worker value) (npcId : string) (r : attempt (Npc value)) :
  getNPCProfile w npcId = (r, w') →
  npcs w' = npcs w ∧ aiProfiles w' = aiProfiles w
  ∧ npc_rules w' = npc_rules w ∧ acts w' = acts w
  ∧ match r with
    | Done p => npcCache w' = <[npcId := p]> (npcCache w)
    | Failed _ => w' = w
    end.
Proof.
  unfold Dialogue.getNPCProfile.
  destruct (npcCache w !! npcId) as [cached|] eqn:Hc.
  { intros [= <- <-]. repeat split. symmetry. by apply insert_id. }
  destruct (npcs w) as [src|] eqn:Hn; [|by intros [= <- <-]].
  destruct (array_of src) as [l|]; [|by intros [= <- <-]].
  destruct (find_npc l npcId) as [b|]; [|by intros [= <- <-]].
  by intros [= <- <-].
Qed.

(** X9.  Once [getNPCProfile] has returned a profile for an id, every later
    call for that id returns the same profile and changes nothing, whatever
    the data documents hold by then (even none); a call that throws leaves
    the cache as it was. *)
Theorem getNPCProfile_cached (w w' : Worker value) (npcId : string) (r : attempt (Npc value)) :
  getNPCProfile w npcId = (r, w') →
  match r with
  | Done p =>
      ∀ npcs2 aiProfiles2 rules2 acts2,
        let later := {| npcs := npcs2; aiProfiles := aiProfiles2; npc_rules := rules2;
                        acts := acts2; npcCache := npcCache w' |} in
        getNPCProfile later npcId = (Done p, later)
  | Failed _ => w' = w
  end.
Proof.
  intros H. apply getNPCProfile_inv in H as (_ & _ & _ & _ & H).
  destruct r as [p|e]; [|done]. intros npcs2 aiProfiles2 rules2 acts2. cbv zeta.
  unfold Dialogue.getNPCProfile. cbn [npcCache]. by rewrite H, lookup_insert_eq.
Qed.
End profiles.

Lemma getNPCProfile_cached_witness :
  let later :=
    {| Dialogue.npcs := None; Dialogue.aiProfiles := None;
       Dialogue.npc_rules := ∅; Dialogue.acts := [];
       Dialogue.npcCache :=
         Dialogue.npcCache
           (Dialogue.getNPCProfile SampleCast.text_truthy SampleCast.worker "trepov").2 |} in
  Dialogue.getNPCProfile SampleCast.text_truthy later "trepov"
    = (Dialogue.Done
         (Dialogue.fullProfile string SampleCast.text_truthy SampleCast.trepov_base
            (Some SampleCast.trepov_ai)), later).
Proof.
  exact (getNPCProfile_cached SampleCast.text_truthy SampleCast.worker _ "trepov" _ eq_refl
           None None ∅ []).
Defined.

(** ** The dialogue turn *)

Section dialogue_turn.
Import DiplomacyEngine AIWorker Stated Dialogue.
Context {value : Type} (truthy_value : value → bool).

Local Abbreviation getNPCProfile := (Dialogue.getNPCProfile truthy_value).
Local Abbreviation startDialogue := (Dialogue.startDialogue truthy_value).
Local Abbreviation dialogue_turn := (Dialogue.dialogue_turn truthy_value).

(** What has happened when [startDialogue] returns. *)
Lemma startDialogue_Done (w w' : Worker value) (npcId sceneId : string)
    (aiResult : option (string * gmap string actual)) (gs : GameState)
    (r : DialogueResult value) :
  startDialogue w npcId sceneId aiResult gs = (Done r, w') →
  ∃ p w1,
    getNPCProfile w npcId = (Done p, w1)
    ∧ isNPCAllowedInScene w1 npcId sceneId = Done true
    ∧ aiResult = Some (npcResponse r, analysis r)
    ∧ applyFallbackProtections (npc_rules w1) npcId
        (calculateDiplomacyEffects (acts w1) npcId sceneId (analysis r) gs) gs
      = Returned (diplomacyEffects r)
    ∧ w' = with_acts w1
             (store_opinions (acts w1) sceneId (analysis r)
                (default ∅ (eff_npc_opinions (diplomacyEffects r)))).
Proof.
  unfold Dialogue.startDialogue.
  destruct (getNPCProfile w npcId) as [[p|e] w1] eqn:Hp; [|done].
  destruct (isNPCAllowedInScene w1 npcId sceneId) as [[|]|e] eqn:Ha; [|done|done].
  destruct aiResult as [[response an]|]; [|done].
  destruct (applyFallbackProtections _ _ _ _) as [g|e] eqn:Hg; [|done].
  intros [= <- <-]. by exists p, w1.
Qed.

(** X10.  [startDialogue] returns only for a character listed in the AI
    profiles given as an object with an [npcs] array, with the scene in that
    character's [scene_scope], and only when the AI call gave a reply; with
    AI profiles given as a bare array, which [getNPCProfile] accepts,
    [startDialogue] always throws. *)
Theorem startDialogue_requires_scope (w : Worker value) (npcId sceneId : string)
    (aiResult : option (string * gmap string actual)) (gs : GameState)
    (r : DialogueResult value) :
  (startDialogue w npcId sceneId aiResult gs).1 = Done r →
  ∃ items aiProfile scope,
    aiProfiles w = Some (Wrapped items)
    ∧ find_npc items npcId = Some aiProfile
    ∧ scene_scope aiProfile = Some scope
    ∧ sceneId ∈ scope
    ∧ aiResult = Some (npcResponse r, analysis r).
Proof.
  destruct (startDialogue w npcId sceneId aiResult gs) as [r' w'] eqn:Hs.
  simpl. intros ->. apply startDialogue_Done in Hs as (p & w1 & Hp & Ha & Hai & _ & _).
  apply getNPCProfile_inv in Hp as (_ & Hprofiles & _).
  unfold Dialogue.isNPCAllowedInScene in Ha. rewrite Hprofiles in Ha.
  destruct (aiProfiles w) as [[items|items|]|]; try done.
  destruct (find_npc items npcId) as [a|] eqn:Hf; [|done].
  destruct (scene_scope a) as [scope|] eqn:Hsc; [|done].
  injection Ha as Ha. exists items, a, scope. repeat split; try done.
  apply existsb_exists in Ha as (s & Hin & Heq). apply String.eqb_eq in Heq as ->.
  by apply list_elem_of_In.
Qed.

(** The opinion of the character after a guarded delta is applied. *)
Lemma guarded_opinion_after (rules : gmap string NpcRules) (npcId : string)
    (r : NpcRules) (e : Effects) (gs : GameState) (o : gmap string Z) :
  rules !! npcId = Some r →
  eff_npc_opinions e = Some o →
  ∃ g,
    applyFallbackProtections rules npcId e gs = Returned g
    ∧ or0 (opinion_after gs g npcId) =
        match o !! npcId with
        | Some d =>
            clamp100 (or0 (npc_opinions gs !! npcId)
                      + guarded_component (or0 (npc_opinions gs !! npcId)) d)
        | None => or0 (npc_opinions gs !! npcId)
        end.
Proof.
  intros Hr He. destruct (o !! npcId) as [d|] eqn:Ho.
  - eexists. split; [by apply (guard_with_rules _ _ r _ _ o d)|].
    erewrite opinion_after_spec; [done|done|apply lookup_insert_eq].
  - exists e. split; [by apply (guard_without_component _ _ _ _ o)|].
    unfold opinion_after. simpl. rewrite He.
    by rewrite foldl_add_clamped_lookup, Ho.
Qed.

Lemma guarded_component_floor (cur d : Z) :
  let new := clamp100 (cur + guarded_component cur d) in
  (-80 ≤ cur → -80 ≤ new) ∧ (new < -40 → cur - 3 ≤ new).
Proof.
  unfold guarded_component, clamp100. cbv zeta.
  destruct (Z.ltb_spec (cur + d) (-40)); destruct (Z.ltb_spec d 0);
    destruct (Z.ltb_spec (cur + d) (-80)); simpl andb; cbv iota;
    try destruct (Z.ltb_spec (Z.max d (-3)) 0);
    try destruct (Z.ltb_spec d 0); simpl andb; cbv iota; lia.
Qed.

Lemma dialogue_turn_step (w : Worker value) (gs : GameState)
    (npcId sceneId : string) (aiResult : option (string * gmap string actual))
    (rules : NpcRules) :
  npc_rules w !! npcId = Some rules →
  let after := dialogue_turn npcId sceneId (w, gs) aiResult in
  let cur := or0 (npc_opinions gs !! npcId) in
  let new := or0 (npc_opinions after.2 !! npcId) in
  (-80 ≤ cur → -80 ≤ new)
  ∧ (new < -40 → cur - 3 ≤ new)
  ∧ npc_rules after.1 = npc_rules w.
Proof.
  intros Hr. cbv zeta. unfold Dialogue.dialogue_turn. cbn [fst snd].
  destruct (startDialogue w npcId sceneId aiResult gs) as [[r|e] w'] eqn:Hs; cbn [fst snd].
  - apply startDialogue_Done in Hs as (p & w1 & Hp & _ & _ & Hg & ->).
    apply getNPCProfile_inv in Hp as (_ & _ & Hrules & _).
    destruct (calculateDiplomacyEffects_complete (acts w1) npcId sceneId (analysis r) gs)
      as (f & t & o & fl & Hc).
    rewrite Hrules in Hg.
    destruct (guarded_opinion_after (npc_rules w) npcId rules
                (calculateDiplomacyEffects (acts w1) npcId sceneId (analysis r) gs) gs o Hr)
      as (g & Hg' & Hnew).
    { by rewrite Hc. }
    rewrite Hg in Hg'. injection Hg' as <-.
    unfold opinion_after in Hnew. rewrite Hnew. split; [|split; [|done]].
    + destruct (o !! npcId); [apply guarded_component_floor|done].
    + destruct (o !! npcId); [apply guarded_component_floor|lia].
  - split; [done|]. split; [lia|].
    unfold Dialogue.startDialogue in Hs.
    destruct (getNPCProfile w npcId) as [[p|e'] w1] eqn:Hp.
    + apply getNPCProfile_inv in Hp as (_ & _ & Hrules & _).
      destruct (isNPCAllowedInScene w1 npcId sceneId) as [[|]|?];
        [destruct aiResult as [[? ?]|];
         [destruct (applyFallbackProtections _ _ _ _)|]|..];
        by injection Hs as _ <-.
    + apply getNPCProfile_inv in Hp as (_ & _ & Hrules & _). by injection Hs as _ <-.
Qed.

(** X11.  For a character with a rules entry, one turn of free dialogue
    never takes the opinion below -80 when it was at -80 or above, and
    whenever the opinion after the turn is below -40 the turn has lowered it
    by 3 at most; the rules table is not touched. *)
Theorem dialogue_turn_floor (w : Worker value) (gs : GameState)
    (npcId sceneId : string) (aiResult : option (string * gmap string actual))
    (rules : NpcRules) :
  npc_rules w !! npcId = Some rules →
  let after := dialogue_turn npcId sceneId (w, gs) aiResult in
  let cur := or0 (npc_opinions gs !! npcId) in
  let new := or0 (npc_opinions after.2 !! npcId) in
  (-80 ≤ cur → -80 ≤ new)
  ∧ (new < -40 → cur - 3 ≤ new)
  ∧ npc_rules after.1 = npc_rules w.
Proof. apply dialogue_turn_step. Qed.

(** X12.  Through any number of turns of free dialogue with one character
    that has a rules entry (and an id that is no inherited name, so that its
    opinion always reads as a number), an opinion that starts at -80 or above
    never goes below -80.  Each turn reads the scene table as the guard has
    left it in the turns before. *)
Theorem dialogue_run_floor (npcId : string) (rules : NpcRules)
    (turns : list (string * option (string * gmap string actual)))
    (w : Worker value) (gs : GameState) :
  is_inherited npcId = false →
  npc_rules w !! npcId = Some rules →
  -80 ≤ or0 (npc_opinions gs !! npcId) →
  let after := foldl (λ st turn, dialogue_turn npcId turn.1 st turn.2) (w, gs) turns in
  -80 ≤ or0 (npc_opinions after.2 !! npcId).
Proof.
  intros _. cbv zeta. revert w gs. induction turns as [|[sceneId aiResult] turns IH];
    intros w gs Hr Hcur; [done|].
  cbn [foldl fst snd].
  destruct (dialogue_turn_step w gs npcId sceneId aiResult rules Hr) as (Hfloor & _ & Hrules).
  destruct (dialogue_turn npcId sceneId (w, gs) aiResult) as [w1 gs1] eqn:Hturn.
  cbn [fst snd] in *. apply IH; [by rewrite Hrules|by apply Hfloor].
Qed.
End dialogue_turn.

Lemma startDialogue_requires_scope_witness :
  ∃ items aiProfile scope,
    Dialogue.aiProfiles SampleCast.worker = Some (Dialogue.Wrapped items)
    ∧ Dialogue.find_npc items "trepov" = Some aiProfile
    ∧ Dialogue.scene_scope aiProfile = Some scope
    ∧ "2_trepov_meeting" ∈ scope
    ∧ SampleCast.critical_reply
      = Some ("Varokaa sanojanne.", Samples.analysis_of ["critical"]).
Proof.
  exact (startDialogue_requires_scope SampleCast.text_truthy SampleCast.worker "trepov"
           "2_trepov_meeting" SampleCast.critical_reply
           (Samples.opinion_state "trepov" (-75))
           {| Dialogue.npcResponse := "Varokaa sanojanne.";
              Dialogue.analysis := Samples.analysis_of ["critical"];
              Dialogue.diplomacyEffects := Samples.opinion_delta "trepov" 0;
              Dialogue.profile_id := "trepov";
              Dialogue.profile_name := Some "Dmitri Trepov" |}
           eq_refl).
Defined.

Example startDialogue_bare_profiles_throw :
  (Dialogue.startDialogue SampleCast.text_truthy SampleCast.worker_bare "trepov"
     "2_trepov_meeting" SampleCast.critical_reply (Samples.opinion_state "trepov" 0)).1
  = Dialogue.Failed (Dialogue.Js TypeError).
Proof. reflexivity. Qed.

Lemma dialogue_turn_floor_witness :
  let after :=
    Dialogue.dialogue_turn SampleCast.text_truthy "trepov" "2_trepov_meeting"
      (SampleCast.worker, Samples.opinion_state "trepov" (-38)) SampleCast.critical_reply in
  let cur :=
    or0 (DiplomacyEngine.npc_opinions (Samples.opinion_state "trepov" (-38)) !! "trepov") in
  let new := or0 (DiplomacyEngine.npc_opinions after.2 !! "trepov") in
  (-80 ≤ cur → -80 ≤ new)
  ∧ (new < -40 → cur - 3 ≤ new)
  ∧ Dialogue.npc_rules after.1 = Dialogue.npc_rules SampleCast.worker.
Proof.
  exact (dialogue_turn_floor SampleCast.text_truthy SampleCast.worker
           (Samples.opinion_state "trepov" (-38)) "trepov" "2_trepov_meeting"
           SampleCast.critical_reply {| AIWorker.fallback_rule := Some "offer_reconciliation" |}
           eq_refl).
Defined.

Example dialogue_turn_softens :
  DiplomacyEngine.npc_opinions
    (Dialogue.dialogue_turn SampleCast.text_truthy "trepov" "2_trepov_meeting"
       (SampleCast.worker, Samples.opinion_state "trepov" (-38))
       SampleCast.critical_reply).2 !! "trepov"
  = Some (-41).
Proof. vm_compute. reflexivity. Qed.

(** The delta of a later turn is the one the guard has left in the scene
    table: from -38 the opinion goes down by 3 in each of twelve turns, where
    a delta read afresh as -10 would have been set to 0 from -71 on. *)
Example dialogue_run_reads_rewritten_delta :
  DiplomacyEngine.npc_opinions
    (foldl (λ st turn,
              Dialogue.dialogue_turn SampleCast.text_truthy "trepov" turn.1 st turn.2)
       (SampleCast.worker, Samples.opinion_state "trepov" (-38))
       (replicate 12 ("2_trepov_meeting", SampleCast.critical_reply))).2 !! "trepov"
  = Some (-74).
Proof. vm_compute. reflexivity. Qed.

Lemma dialogue_run_floor_witness :
  -80 ≤ or0 (DiplomacyEngine.npc_opinions
               (foldl (λ st turn,
                         Dialogue.dialogue_turn SampleCast.text_truthy "trepov" turn.1 st turn.2)
                  (SampleCast.worker, Samples.opinion_state "trepov" (-75))
                  [ ("2_trepov_meeting", SampleCast.critical_reply);
                    ("2_trepov_meeting", None);
                    ("2_trepov_meeting", SampleCast.critical_reply) ]).2 !! "trepov").
Proof.
  apply (dialogue_run_floor SampleCast.text_truthy "trepov"
           {| AIWorker.fallback_rule := Some "offer_reconciliation" |}).
  - reflexivity.
  - reflexivity.
  - vm_compute. discriminate.
Defined.

(** ** Conditions *)

Section conditions.
Import DiplomacyEngine AIWorker Stated.

Lemma matchesCondition_empty (analysis : gmap string actual) :
  matchesCondition ∅ analysis = true.
Proof. apply matchesCondition_iff. intros key ev. by rewrite lookup_empty. Qed.

(** X13.  A condition without keys matches every analysis; a condition
    naming a field that the analysis does not have matches none, and so does
    a condition that expects an empty list of values for some field. *)
Theorem matchesCondition_edges (analysis : gmap string actual) :
  matchesCondition ∅ analysis = true
  ∧ (∀ c key ev,
      c !! key = Some ev → analysis !! key = None →
      matchesCondition c analysis = false)
  ∧ (∀ c key,
      c !! key = Some (ExpectedList []) →
      matchesCondition c analysis = false).
Proof.
  split; [|split].
  - apply matchesCondition_empty.
  - intros c key ev Hc Ha. apply matchesCondition_false. intros Hall.
    specialize (Hall key ev Hc). rewrite Ha in Hall. by destruct ev.
  - intros c key Hc. apply matchesCondition_false. intros Hall.
    specialize (Hall key _ Hc). simpl in Hall.
    destruct (analysis !! key) as [[vs|v]|]; simpl in Hall.
    + destruct Hall as (v & _ & Hv). by apply elem_of_nil in Hv.
    + by apply elem_of_nil in Hall.
    + done.
Qed.

Lemma matchesCondition_edges_witness :
  matchesCondition {[ "mood" := ExpectedValue "calm" ]} (Samples.analysis_of ["loyal"])
    = false
  ∧ matchesCondition {[ "overall_tone" := ExpectedList [] ]} (Samples.analysis_of ["loyal"])
    = false.
Proof.
  destruct (matchesCondition_edges (Samples.analysis_of ["loyal"])) as (_ & Hmissing & Hempty).
  split.
  - apply (Hmissing _ "mood" (ExpectedValue "calm")); reflexivity.
  - apply (Hempty _ "overall_tone"). reflexivity.
Defined.

Lemma scan_mappings_catch_all (pre post : list Mapping) (m : Mapping)
    (analysis : gmap string actual) :
  condition m = ∅ →
  scan_mappings (pre ++ m :: post) analysis = scan_mappings (pre ++ [m]) analysis.
Proof.
  intros Hm. induction pre as [|m' pre IH]; simpl.
  - by rewrite Hm, matchesCondition_empty.
  - by destruct (matchesCondition (condition m') analysis).
Qed.

(** X14.  A mapping with an empty condition is a catch-all: the mappings
    listed after it are never used, so two scenes whose mapping lists agree
    up to such a mapping give the same effects for every analysis. *)
Theorem calculateDiplomacyEffects_catch_all
    (acts acts' : list Act) (npcId sceneId : string) (analysis : gmap string actual)
    (gs : GameState) (sc sc' : Act) (pre post post' : list Mapping) (m : Mapping) :
  find (λ a, String.eqb (scene a) sceneId) acts = Some sc →
  find (λ a, String.eqb (scene a) sceneId) acts' = Some sc' →
  ai_dialogue sc = Some {| effects_mapping := pre ++ m :: post |} →
  ai_dialogue sc' = Some {| effects_mapping := pre ++ m :: post' |} →
  condition m = ∅ →
  calculateDiplomacyEffects acts npcId sceneId analysis gs
    = calculateDiplomacyEffects acts' npcId sceneId analysis gs.
Proof.
  intros Hsc Hsc' Had Had' Hm. unfold calculateDiplomacyEffects.
  rewrite Hsc, Hsc', Had, Had'. simpl.
  by rewrite (scan_mappings_catch_all pre post), (scan_mappings_catch_all pre post').
Qed.
End conditions.

Lemma calculateDiplomacyEffects_catch_all_witness :
  AIWorker.calculateDiplomacyEffects (SampleCast.with_catch_all []) "trepov" "5_hub"
    (Samples.analysis_of ["loyal"]) (Samples.opinion_state "trepov" 0)
  = AIWorker.calculateDiplomacyEffects
      (SampleCast.with_catch_all
         [ {| AIWorker.condition := ∅; AIWorker.effects := Samples.loyal_effects |} ])
      "trepov" "5_hub" (Samples.analysis_of ["loyal"]) (Samples.opinion_state "trepov" 0).
Proof.
  eapply (calculateDiplomacyEffects_catch_all (SampleCast.with_catch_all [])
            (SampleCast.with_catch_all
               [ {| AIWorker.condition := ∅; AIWorker.effects := Samples.loyal_effects |} ])
            "trepov" "5_hub" (Samples.analysis_of ["loyal"])
            (Samples.opinion_state "trepov" 0) _ _
            [ {| AIWorker.condition :=
                   {[ "overall_tone" := AIWorker.ExpectedList ["critical"] ]};
                 AIWorker.effects := Samples.opinion_delta "trepov" (-10) |} ]
            [] _ {| AIWorker.condition := ∅; AIWorker.effects := Samples.other_effects |});
    reflexivity.
Defined.

(** ** Transitions in general *)

Section transitions.
Import StateMachine GameEngine Play.

Lemma transition_cases (now : Z) (choiceId : option string) (sm : Machine) :
  match transition now choiceId sm with
  | (Returned node, sm') =>
      history sm' = history sm ++
        [ {| h_from := currentState sm; h_to := currentState sm';
             h_choice := choiceId; h_timestamp := now |} ]
      ∧ currentState sm' ≠ ""
      ∧ node = states sm !! currentState sm'
      ∧ states sm' = states sm
      ∧ exitState sm' = exitState sm
  | (Thrown _, sm') => sm' = sm
  end.
Proof.
  unfold transition.
  destruct (getCurrentState sm) as [st|]; [|by destruct (is_inherited _)].
  destruct (nextState_of st choiceId) as [next|e]; [|done].
  destruct next as [target|]; simpl; [|done].
  destruct (String.eqb target "") eqn:E; simpl; [done|].
  repeat split. intros ->. by rewrite String.eqb_refl in E.
Qed.

(** X15.  Whatever the node and the choice id, a [transition] that returns
    has appended exactly one record, from the node it left to the node it
    reached (whose id is not empty), carrying the choice id and the clock
    reading, has returned the node reached, and has left the graph and the
    exit node alone; a [transition] that throws has changed nothing. *)
Theorem transition_postcondition (now : Z) (choiceId : option string) (sm : Machine) :
  match transition now choiceId sm with
  | (Returned node, sm') =>
      history sm' = history sm ++
        [ {| h_from := currentState sm; h_to := currentState sm';
             h_choice := choiceId; h_timestamp := now |} ]
      ∧ currentState sm' ≠ ""
      ∧ node = states sm !! currentState sm'
      ∧ states sm' = states sm
      ∧ exitState sm' = exitState sm
  | (Thrown _, sm') => sm' = sm
  end.
Proof. apply transition_cases. Qed.

Lemma linked_snoc (start : string) (h : list HistoryRecord) (mid : string)
    (r : HistoryRecord) :
  linked start h mid → h_from r = mid → linked start (h ++ [r]) (h_to r).
Proof.
  revert start. induction h as [|r' h IH]; intros start; simpl.
  - by intros -> ->.
  - intros [-> Hl] Hr. split; [done|]. by apply IH.
Qed.

Lemma transition_linked (entry : string) (now : Z) (choiceId : option string)
    (sm : Machine) :
  linked entry (history sm) (currentState sm) →
  let sm' := (transition now choiceId sm).2 in
  linked entry (history sm') (currentState sm')
  ∧ states sm' = states sm ∧ exitState sm' = exitState sm
  ∧ (length (history sm') ≤ S (length (history sm)))%nat.
Proof.
  intros Hl. cbv zeta. pose proof (transition_cases now choiceId sm) as H.
  destruct (transition now choiceId sm) as [[node|e] sm']; cbn [snd].
  - destruct H as (Hh & _ & _ & Hs & He). rewrite Hh. repeat split; try done.
    + by apply (linked_snoc entry (history sm) (currentState sm)
                  {| h_from := currentState sm; h_to := currentState sm';
                     h_choice := choiceId; h_timestamp := now |}).
    + rewrite length_app. simpl. lia.
  - subst sm'. repeat split; try done. lia.
Qed.

(** X16.  From a fresh machine, after any series of [transition] calls,
    succeeding or throwing, the history is a chain that starts at the entry
    node and ends at the current node, each record beginning where the one
    before ended; it holds at most one record per call, and the graph and the
    exit node are those the machine was built with. *)
Theorem run_history_linked (graph : gmap string State) (entry_state exit_state : string)
    (calls : list (Z * option string)) :
  let sm := run (new graph entry_state exit_state) calls in
  linked entry_state (history sm) (currentState sm)
  ∧ (length (history sm) ≤ length calls)%nat
  ∧ states sm = graph
  ∧ exitState sm = exit_state.
Proof.
  cbv zeta. unfold run.
  assert (∀ sm,
    linked entry_state (history sm) (currentState sm) →
    let sm' := foldl (λ sm call, (transition call.1 call.2 sm).2) sm calls in
    linked entry_state (history sm') (currentState sm')
    ∧ (length (history sm') ≤ length (history sm) + length calls)%nat
    ∧ states sm' = states sm ∧ exitState sm' = exitState sm) as H.
  { induction calls as [|[now choiceId] calls IH]; intros sm Hl; cbn [foldl].
    - repeat split; [done|lia].
    - destruct (transition_linked entry_state now choiceId sm Hl) as (Hl' & Hs & He & Hn).
      destruct (IH _ Hl') as (Hl'' & Hn' & Hs' & He').
      cbn [fst snd] in *. repeat split; [done| |congruence|congruence].
      simpl. lia. }
  destruct (H (new graph entry_state exit_state) eq_refl) as (Hl & Hn & Hs & He).
  by repeat split.
Qed.

(** X17.  A hub never follows a choice: on a hub node [transition] with a
    non-empty choice id throws the no-valid-transition error and changes
    nothing, whatever the transitions of the hub. *)
Theorem transition_hub_rejects_choice (now : Z) (choiceId : string) (sm : Machine)
    (st : State) :
  getCurrentState sm = Some st →
  s_type st = "hub" →
  choiceId ≠ "" →
  transition now (Some choiceId) sm
    = (Thrown (NoValidTransition (currentState sm) (Some choiceId)), sm).
Proof.
  intros Hst Hty Hc. unfold transition, nextState_of. rewrite Hst, Hty.
  rewrite (truthy_Some _ Hc). simpl. by destruct (present (transitions st)).
Qed.

(** X18.  On a system node and on an ai_dialogue node the choice id plays
    no part in where [transition] goes: with any two choice ids the cursor
    ends on the same node and the history has the same length. *)
Theorem transition_ignores_choice (now : Z) (c1 c2 : option string) (sm : Machine)
    (st : State) :
  getCurrentState sm = Some st →
  s_type st = "system" ∨ s_type st = "ai_dialogue" →
  currentState (transition now c1 sm).2 = currentState (transition now c2 sm).2
  ∧ length (history (transition now c1 sm).2) = length (history (transition now c2 sm).2).
Proof.
  intros Hst Hty. unfold transition, nextState_of. rewrite Hst.
  destruct Hty as [-> | ->]; simpl;
    destruct (present (transitions st)); simpl;
    try destruct (first_to (transitions st)) as [next|e]; simpl; try done;
    destruct (truthy next); simpl; by rewrite ?length_app.
Qed.
End transitions.

Lemma transition_hub_rejects_choice_witness :
  StateMachine.transition 1000 (Some "talk") SampleHub.at_hub
    = (Thrown (NoValidTransition "hub_1" (Some "talk")), SampleHub.at_hub).
Proof.
  apply (transition_hub_rejects_choice 1000 "talk" SampleHub.at_hub SampleHub.trepov_hub).
  - reflexivity.
  - reflexivity.
  - discriminate.
Defined.

Lemma transition_ignores_choice_witness :
  StateMachine.currentState (StateMachine.transition 1000 (Some "a") SampleGraph.opening).2
    = StateMachine.currentState (StateMachine.transition 1000 None SampleGraph.opening).2
  ∧ length (StateMachine.history (StateMachine.transition 1000 (Some "a") SampleGraph.opening).2)
    = length (StateMachine.history (StateMachine.transition 1000 None SampleGraph.opening).2).
Proof.
  apply (transition_ignores_choice 1000 (Some "a") None SampleGraph.opening
           SampleGraph.start_node).
  - reflexivity.
  - left. reflexivity.
Defined.

(** ** Processing a node, going back, choosing *)

Section processing.
Import DiplomacyEngine DiplomacyRules StateMachine GameEngine Play.


(** X20.  Going back onto a system node does not stay there: when the last
    record was left from a system node whose first transition leads to a
    scene, [navigateBack] ends on that scene again, and the history is the one
    it started with except that the last record is a fresh one, without a
    choice id and with the new clock reading. *)
Theorem navigateBack_bounces_off_system (env : Env) (now : Z) (later : list Z)
    (sm : Machine) (rest : list HistoryRecord) (lastTransition : HistoryRecord)
    (st scene_node : State) (t : Transition) (ts : list Transition) (target : string) :
  history sm = rest ++ [lastTransition] →
  states sm !! h_from lastTransition = Some st →
  s_type st = "system" →
  transitions st = Some (t :: ts) →
  t_to t = Some target →
  target ≠ "" →
  states sm !! target = Some scene_node →
  s_type scene_node = "scene" →
  (navigateBack env (now :: later) sm).2 =
    {| states := states sm;
       currentState := target;
       exitState := exitState sm;
       history := rest ++
         [ {| h_from := h_from lastTransition; h_to := target;
              h_choice := None; h_timestamp := now |} ] |}.
Proof.
  intros Hh Hst Hty Hts Hto Htarget Hscene Hsty.
  unfold navigateBack. rewrite Hh, pop_snoc. cbn [processCurrentState].
  unfold getCurrentState at 1. cbn [states currentState]. rewrite Hst.
  assert (moves_on env st = true) as -> by (unfold moves_on; by rewrite Hty).
  unfold transition, getCurrentState. cbn [states currentState]. rewrite Hst.
  unfold nextState_of. rewrite Hty, Hts. simpl. rewrite Hto, (truthy_Some _ Htarget).
  simpl. erewrite processCurrentState_scene; [done| |exact Hsty].
  unfold getCurrentState. by cbn [states currentState].
Qed.

(** X21.  [handleChoice] applies the diplomacy effects of the choice before
    it tries the transition: when [applyChoice] returns, the game state after
    [handleChoice] is the one [applyChoice] left, whether the transition and
    the processing succeed or throw; and when the transition throws, the
    cursor and the history are as before although the effects stay applied. *)
Theorem handleChoice_effects_first (acts : list SceneEntry) (env : Env) (now : Z)
    (clock : list Z) (sceneId choiceId : string) (gs gs' : GameState) (sm : Machine) :
  applyChoice acts sceneId choiceId gs = Returned gs' →
  (handleChoice acts env now clock sceneId choiceId (gs, sm)).2.1 = gs'
  ∧ (∀ e, (transition now (Some choiceId) sm).1 = Thrown e →
       handleChoice acts env now clock sceneId choiceId (gs, sm) = (Thrown e, (gs', sm))).
Proof.
  intros Ha. unfold handleChoice. cbn [fst snd]. rewrite Ha.
  pose proof (transition_cases now (Some choiceId) sm) as Ht.
  destruct (transition now (Some choiceId) sm) as [[node|e'] sm1]; cbn [fst snd].
  - split; [|done]. by destruct (processCurrentState env clock sm1).
  - subst sm1. split; [done|]. by intros e [= ->].
Qed.
End processing.

Lemma navigateBack_bounces_off_system_witness :
  (GameEngine.navigateBack SampleGraph.no_ai [2000; 3000]
     (StateMachine.transition 1000 None SampleGraph.opening).2).2
  = {| StateMachine.states := StateMachine.states SampleGraph.opening;
       StateMachine.currentState := "scene_1";
       StateMachine.exitState := "Y";
       StateMachine.history :=
         [ {| StateMachine.h_from := "start"; StateMachine.h_to := "scene_1";
              StateMachine.h_choice := None; StateMachine.h_timestamp := 2000 |} ] |}.
Proof.
  apply (navigateBack_bounces_off_system SampleGraph.no_ai 2000 [3000]
           (StateMachine.transition 1000 None SampleGraph.opening).2 []
           {| StateMachine.h_from := "start"; StateMachine.h_to := "scene_1";
              StateMachine.h_choice := None; StateMachine.h_timestamp := 1000 |}
           SampleGraph.start_node SampleGraph.crossroads
           {| StateMachine.t_to := Some "scene_1" |} [] "scene_1");
    try reflexivity.
  discriminate.
Defined.

Lemma handleChoice_effects_first_witness :
  Play.handleChoice [SampleRules.linear_scene] SampleGraph.no_ai 1000 [] "4_departure" "a"
    (DiplomacyEngine.initializeGameState ["RUS"], SampleHub.at_dead_end)
  = (Thrown (NoValidTransition "3_orders" (Some "a")),
     (DiplomacyEngine.applyEffects (DiplomacyEngine.initializeGameState ["RUS"])
        Samples.big_push,
      SampleHub.at_dead_end)).
Proof.
  apply (proj2 (handleChoice_effects_first [SampleRules.linear_scene] SampleGraph.no_ai 1000 []
                  "4_departure" "a" (DiplomacyEngine.initializeGameState ["RUS"])
                  (DiplomacyEngine.applyEffects (DiplomacyEngine.initializeGameState ["RUS"])
                     Samples.big_push)
                  SampleHub.at_dead_end eq_refl)).
  reflexivity.
Defined.

(** ** The checks of a reply *)

Section reply_checks.
Import AIClient ReplyChecks.
Context {number : Type} (is_zero : number → bool).
Context (trim replace_json_fence replace_fence : string → string).
Context (JSON_parse : string → option (json number)).

Local Abbreviation parseResponse :=
  (AIClient.parseResponse number is_zero trim replace_json_fence replace_fence JSON_parse).
Local Abbreviation parse_and_validate :=
  (AIClient.parse_and_validate number is_zero trim replace_json_fence replace_fence
     JSON_parse).
Local Abbreviation cleanText := (AIClient.cleanText trim replace_json_fence replace_fence).
Local Abbreviation passes := (ReplyChecks.passes number is_zero).

Lemma passes_fallback : passes fallback = true.
Proof. reflexivity. Qed.

(** X22.  [parseResponse] returns the parsed value exactly when the cleaned
    text parses and [response], [analysis], [analysis.overall_tone] and
    [analysis.detected_stance_towards_russia] are all truthy (so an empty
    response string or a null analysis falls back as well), and the fallback
    otherwise; either way the value it returns passes those four tests. *)
Theorem parseResponse_decides (responseText : string) :
  parseResponse responseText =
    Returned match JSON_parse (cleanText responseText) with
             | Some parsed => if passes parsed then parsed else fallback
             | None => fallback
             end
  ∧ ∃ reply, parseResponse responseText = Returned reply ∧ passes reply = true.
Proof.
  assert (parseResponse responseText =
    Returned match JSON_parse (cleanText responseText) with
             | Some parsed => if passes parsed then parsed else fallback
             | None => fallback
             end) as H.
  { destruct (JSON_parse (cleanText responseText)) as [parsed|] eqn:Hp.
    - destruct (passes parsed) eqn:Hpass.
      + unfold ReplyChecks.passes in Hpass.
        apply andb_true_iff in Hpass as [Hr Ha].
        destruct (field parsed "analysis") as [a|] eqn:Hfa; [|done].
        apply andb_true_iff in Ha as [Ha Hs]. apply andb_true_iff in Ha as [Ha Ht].
        by apply (parseResponse_valid is_zero trim replace_json_fence replace_fence
                    JSON_parse responseText parsed a).
      + unfold AIClient.parseResponse.
        destruct parse_and_validate as [p|e] eqn:Htry; [|done].
        apply parse_and_validate_Returned in Htry
          as (Hp' & Hr & a & Ha & Hat & Ht & Hs).
        rewrite Hp in Hp'. injection Hp' as <-.
        unfold ReplyChecks.passes in Hpass. rewrite Hr, Ha, Hat, Ht, Hs in Hpass.
        discriminate.
    - unfold AIClient.parseResponse, AIClient.parse_and_validate. by rewrite Hp. }
  split; [exact H|]. eexists. split; [exact H|].
  destruct (JSON_parse (cleanText responseText)) as [parsed|]; [|done].
  by destruct (passes parsed) eqn:Hpass.
Qed.
End reply_checks.

(** ** Active alignment behaviours *)

Section alignments.
Import DiplomacyEngine Alignments.

Lemma at_least_iff (actual min : option Z) :
  at_least actual min = true ↔ ∃ v, actual = Some v ∧ or0 min ≤ v.
Proof.
  unfold at_least. destruct actual as [v|].
  - rewrite Z.leb_le. split; [by exists v|by intros (? & [= <-] & ?)].
  - split; [done|by intros (? & ? & ?)].
Qed.

Lemma check_traits_orb (gs : GameState) (reqs : list (string * option Z)) (flag : bool) :
  foldl (λ met req, if at_least (player_traits gs !! req.1) req.2 then true else met)
    flag reqs
  = flag || existsb (λ req, at_least (player_traits gs !! req.1) req.2) reqs.
Proof.
  revert flag. induction reqs as [|req reqs IH]; intros flag; cbn [foldl existsb].
  - by rewrite orb_false_r.
  - rewrite IH. destruct (at_least _ _), flag; simpl; by rewrite ?orb_true_r.
Qed.

Lemma check_entry_orb (gs : GameState) (flag : bool) (r : requirement) :
  check_entry gs flag r = flag || check_entry gs false r.
Proof.
  destruct r as [reqs|faction min]; simpl.
  - by rewrite !check_traits_orb.
  - destruct (at_least _ _), flag; done.
Qed.

Lemma conditionMet_existsb (gs : GameState) (b : Behavior) :
  conditionMet gs b = existsb (check_entry gs false) (condition b).
Proof.
  unfold conditionMet.
  assert (∀ flag, foldl (check_entry gs) flag (condition b)
                  = flag || existsb (check_entry gs false) (condition b)) as H.
  { induction (condition b) as [|r rs IH]; intros flag; cbn [foldl existsb].
    - by rewrite orb_false_r.
    - rewrite IH, (check_entry_orb gs flag r). by rewrite orb_assoc. }
  by rewrite H.
Qed.

Lemma check_entry_iff (gs : GameState) (r : requirement) :
  check_entry gs false r = true ↔ requirement_met gs r.
Proof.
  destruct r as [reqs|faction min]; simpl.
  - rewrite check_traits_orb. simpl. rewrite existsb_exists. split.
    + intros ([trait min] & Hin & Hat). apply at_least_iff in Hat as (v & Hv & Hle).
      exists trait, min, v. split; [by apply list_elem_of_In|done].
    + intros (trait & min & v & Hin & Hv & Hle). exists (trait, min).
      split; [by apply list_elem_of_In|]. apply at_least_iff. by exists v.
  - destruct (at_least (factions gs !! faction) min) eqn:E.
    + split; [|done]. intros _. by apply at_least_iff.
    + split; [done|]. intros H. apply at_least_iff in H. congruence.
Qed.

Lemma conditionMet_iff (gs : GameState) (b : Behavior) :
  conditionMet gs b = true ↔ ∃ r, r ∈ condition b ∧ requirement_met gs r.
Proof.
  rewrite conditionMet_existsb, existsb_exists. split.
  - intros (r & Hin & Hr). exists r. split; [by apply list_elem_of_In|].
    by apply check_entry_iff.
  - intros (r & Hin & Hr). exists r. split; [by apply list_elem_of_In|].
    by apply check_entry_iff.
Qed.

Lemma getActiveAlignments_filter (alignmentBehavior : list Behavior) (gs : GameState) :
  getActiveAlignments alignmentBehavior gs
    = active_item <$> filter (λ b, conditionMet gs b = true) alignmentBehavior.
Proof.
  unfold getActiveAlignments.
  assert (∀ acc,
    foldl (λ active b, if conditionMet gs b then active ++ [active_item b] else active)
      acc alignmentBehavior
    = acc ++ (active_item <$> filter (λ b, conditionMet gs b = true) alignmentBehavior))
    as H.
  { induction alignmentBehavior as [|b bs IH]; intros acc; cbn [foldl].
    - by rewrite app_nil_r.
    - rewrite IH, filter_cons. destruct (conditionMet gs b) eqn:E.
      + rewrite decide_True by done. by rewrite fmap_cons, <- app_assoc.
      + by rewrite decide_False by done. }
  apply H.
Qed.

(** X23.  [getActiveAlignments] returns, in declaration order, one item for
    each behaviour of which at least one threshold is met, on any trait or
    any faction of its condition; a threshold without [min] counts as 0, a
    threshold on a trait or faction the game state does not have is never
    met, and a behaviour with an empty condition is never active. *)
Theorem getActiveAlignments_spec (alignmentBehavior : list Behavior) (gs : GameState) :
  getActiveAlignments alignmentBehavior gs
    = active_item <$> filter (λ b, conditionMet gs b = true) alignmentBehavior
  ∧ (∀ b, conditionMet gs b = true ↔ ∃ r, r ∈ condition b ∧ requirement_met gs r)
  ∧ (∀ b, condition b = [] → conditionMet gs b = false).
Proof.
  split; [|split].
  - apply getActiveAlignments_filter.
  - apply conditionMet_iff.
  - intros b Hb. unfold conditionMet. by rewrite Hb.
Qed.

Lemma requirement_met_raised (gs gs' : GameState) (r : requirement) :
  raised (player_traits gs) (player_traits gs') →
  raised (factions gs) (factions gs') →
  requirement_met gs r → requirement_met gs' r.
Proof.
  intros Ht Hf. destruct r as [reqs|faction min]; simpl.
  - intros (trait & min & v & Hin & Hv & Hle).
    destruct (Ht _ _ Hv) as (v' & Hv' & Hle'). exists trait, min, v'.
    repeat split; [done|done|lia].
  - intros (v & Hv & Hle). destruct (Hf _ _ Hv) as (v' & Hv' & Hle').
    exists v'. split; [done|lia].
Qed.

(** X24.  Raising trait and faction values never switches a behaviour off:
    when every trait and faction value recorded in one game state is recorded
    in another and is not lower there, every behaviour active in the first is
    active in the second, and the items returned for the first are a
    sub-list, in order, of those returned for the second. *)
Theorem getActiveAlignments_monotone (alignmentBehavior : list Behavior)
    (gs gs' : GameState) :
  raised (player_traits gs) (player_traits gs') →
  raised (factions gs) (factions gs') →
  (∀ b, conditionMet gs b = true → conditionMet gs' b = true)
  ∧ getActiveAlignments alignmentBehavior gs
      `sublist_of` getActiveAlignments alignmentBehavior gs'.
Proof.
  intros Ht Hf.
  assert (∀ b, conditionMet gs b = true → conditionMet gs' b = true) as Hmono.
  { intros b Hb. apply conditionMet_iff in Hb as (r & Hin & Hr).
    apply conditionMet_iff. exists r. split; [done|].
    by apply (requirement_met_raised gs gs'). }
  split; [exact Hmono|].
  rewrite !getActiveAlignments_filter. apply fmap_sublist.
  induction alignmentBehavior as [|b bs IH]; [done|].
  rewrite !filter_cons. destruct (conditionMet gs b) eqn:E.
  - rewrite decide_True by done. rewrite decide_True by (by apply Hmono).
    by apply sublist_skip.
  - rewrite decide_False by done. case_decide; [by apply sublist_cons|done].
Qed.
End alignments.

(** ** Effects of an utterance, safe worker *)

Section safe_effects.
Import DiplomacyEngine AIWorkerSafe SafeEffects.
Context (toLowerCase : string → string).

Local Abbreviation effects_of_utterance := (SafeEffects.effects_of_utterance toLowerCase).
Local Abbreviation safe_turn := (SafeEffects.safe_turn toLowerCase).

(** X25.  For every utterance, and every character id other than
    [__proto__] (an assignment under that name leaves no property), the safe
    worker computes an effects object with exactly one opinion component, for
    the character spoken to, and no flags: a duty keyword gives opinion +5 and RUS +3; otherwise a caution
    keyword gives opinion 0 and NEUTRALITY +2; otherwise a refusal keyword
    gives opinion -5 and INDEPENDENCE +3; otherwise an agreement keyword gives
    opinion +5 and nothing else; no keyword gives opinion 0 and nothing
    else. *)
Theorem effects_of_utterance_table (npcId sceneId playerText : string) :
  npcId ≠ "__proto__" →
  let lowerText := toLowerCase playerText in
  ∃ d f t,
    effects_of_utterance npcId sceneId playerText =
      Some {| eff_factions := Some f; eff_player_traits := Some t;
              eff_npc_opinions := Some {[ npcId := d ]}; eff_flags := None |}
    ∧ (in_family duty_terms lowerText → d = 5 ∧ f = {[ "RUS" := 3 ]} ∧ t = ∅)
    ∧ (¬ in_family duty_terms lowerText → f = ∅)
    ∧ (¬ in_family duty_terms lowerText →
       in_family caution_terms lowerText → d = 0 ∧ t = {[ "NEUTRALITY" := 2 ]})
    ∧ (refuses lowerText → d = -5 ∧ t = {[ "INDEPENDENCE" := 3 ]})
    ∧ (¬ in_family duty_terms lowerText →
       ¬ in_family caution_terms lowerText →
       ¬ in_family refusal_terms lowerText →
       t = ∅ ∧ (in_family agreement_terms lowerText → d = 5)
             ∧ (¬ in_family agreement_terms lowerText → d = 0)).
Proof.
  intros _.
  cbv zeta. unfold SafeEffects.effects_of_utterance, analyzePlayerResponse, refuses.
  destruct (matches duty_terms (toLowerCase playerText)) eqn:Hd;
    [|destruct (matches caution_terms (toLowerCase playerText)) eqn:Hc;
      [|destruct (matches refusal_terms (toLowerCase playerText)) eqn:Hr;
        [|destruct (matches agreement_terms (toLowerCase playerText)) eqn:Ha]]];
    (eexists _, _, _; split; [reflexivity|]);
    rewrite <- ?matches_iff, ?Hd, ?Hc, ?Hr, ?Ha;
    repeat split; try done; try (by intros []); try (by intros [] _);
    intuition congruence.
Qed.

Lemma safe_turn_refusal (npcId sceneId : string) (gs : GameState) (playerText : string) :
  refuses (toLowerCase playerText) →
  npc_opinions (safe_turn npcId sceneId gs playerText) !! npcId
    = Some (clamp100 (or0 (npc_opinions gs !! npcId) - 5)).
Proof.
  intros (Hd & Hc & Hr). unfold SafeEffects.safe_turn, SafeEffects.effects_of_utterance,
    analyzePlayerResponse.
  rewrite (matches_false _ _ Hd), (matches_false _ _ Hc), (proj2 (matches_iff _ _) Hr).
  simpl. unfold entries. rewrite map_to_list_singleton. simpl.
  rewrite add_clamped_keyed. unfold keyed_step. simpl. by rewrite lookup_insert_eq.
Qed.

End safe_effects.


Lemma applyEffects_lookup_witness :
  Prototype.factions
    (Prototype.applyEffects (Prototype.initializeGameState ["RUS"; "BRIT"])
       Samples.big_push) !! "RUS" = Some (Prototype.Num 100)
  ∧ Prototype.factions
      (Prototype.applyEffects
         (Prototype.of_state (DiplomacyEngine.initializeGameState ["RUS"; "BRIT"]))
         Samples.big_push) !! "RUS"
    = Prototype.Num <$>
        DiplomacyEngine.factions
          (DiplomacyEngine.applyEffects (DiplomacyEngine.initializeGameState ["RUS"; "BRIT"])
             Samples.big_push) !! "RUS"
  ∧ is_Some (Prototype.factions
               (Prototype.applyEffects (Prototype.initializeGameState ["RUS"; "BRIT"])
                  Samples.big_push) !! "BRIT").
Proof.
  split; [|split].
  - pose proof (applyEffects_lookup (Prototype.initializeGameState ["RUS"; "BRIT"])
                  Samples.big_push "RUS") as H.
    cbv zeta in H. destruct H as (H & _). rewrite H. reflexivity.
  - pose proof (applyEffects_lookup
                  (Prototype.of_state (DiplomacyEngine.initializeGameState ["RUS"; "BRIT"]))
                  Samples.big_push "RUS") as H.
    cbv zeta in H. destruct H as (_ & _ & H & _).
    exact (proj1 (H eq_refl _ eq_refl)).
  - pose proof (applyEffects_lookup (Prototype.initializeGameState ["RUS"; "BRIT"])
                  Samples.big_push "BRIT") as H.
    cbv zeta in H. destruct H as (_ & _ & _ & H & _). apply H. by eexists.
Defined.

Lemma engine_calls_stay_in_bounds_witness :
  ∃ z, Prototype.Num 100 = Prototype.Num z ∧ -100 ≤ z ≤ 100.
Proof.
  refine (proj2 (engine_calls_stay_in_bounds [SampleRules.linear_scene] ["RUS"]
                   [DiplomacyRules.CallChoice "4_departure" "a";
                    DiplomacyRules.CallEffects Samples.constructor_push])
            "RUS" (Prototype.Num 100) _ _).
  - reflexivity.
  - left. vm_compute. reflexivity.
Defined.


Example processCurrentState_opening :
  GameEngine.processCurrentState SampleGraph.no_ai [1000] SampleGraph.opening
  = (Returned tt, (StateMachine.transition 1000 None SampleGraph.opening).2).
Proof. reflexivity. Qed.

Lemma getActiveAlignments_spec_witness :
  Alignments.bias <$>
    Alignments.getActiveAlignments SampleAlignments.behaviours SampleAlignments.well_regarded
  = [["Puhu lämpimämmin."]]
  ∧ Alignments.conditionMet SampleAlignments.well_regarded
      {| Alignments.condition := [Alignments.FactionThreshold "RUS" (Some 5)];
         Alignments.effect_on_tone := [];
         Alignments.dialogue_bias := [] |} = true.
Proof.
  destruct (getActiveAlignments_spec SampleAlignments.behaviours SampleAlignments.well_regarded)
    as (Hlist & Hmet & _).
  split.
  - rewrite Hlist. reflexivity.
  - apply Hmet. exists (Alignments.FactionThreshold "RUS" (Some 5)).
    split; [by apply list_elem_of_singleton|]. exists 7. split; [reflexivity|simpl; lia].
Defined.

Lemma getActiveAlignments_monotone_witness :
  Alignments.conditionMet SampleAlignments.held_in_esteem
    {| Alignments.condition := [Alignments.FactionThreshold "RUS" (Some 5)];
       Alignments.effect_on_tone := [("warmth", "warmer")];
       Alignments.dialogue_bias := ["Puhu lämpimämmin."] |} = true
  ∧ Alignments.getActiveAlignments SampleAlignments.behaviours SampleAlignments.well_regarded
      `sublist_of`
    Alignments.getActiveAlignments SampleAlignments.behaviours SampleAlignments.held_in_esteem.
Proof.
  destruct (getActiveAlignments_monotone SampleAlignments.behaviours
              SampleAlignments.well_regarded SampleAlignments.held_in_esteem)
    as [Hmono Hsub].
  - intros k v H. simpl in H. apply lookup_singleton_Some in H as [<- <-].
    exists 3. split; [reflexivity|lia].
  - intros k v H. simpl in H. apply lookup_singleton_Some in H as [<- <-].
    exists 9. split; [reflexivity|lia].
  - split; [|exact Hsub]. apply Hmono. reflexivity.
Defined.

Example getActiveAlignments_more_after_raise :
  length (Alignments.getActiveAlignments SampleAlignments.behaviours
            SampleAlignments.well_regarded) = 1%nat
  ∧ length (Alignments.getActiveAlignments SampleAlignments.behaviours
              SampleAlignments.held_in_esteem) = 2%nat.
Proof. vm_compute. done. Qed.

Lemma effects_of_utterance_table_witness :
  ∃ d f t,
    SafeEffects.effects_of_utterance AIWorkerSafe.lower_ascii "kf" "2_meeting" "Palvelen."
      = Some {| DiplomacyEngine.eff_factions := Some f;
                DiplomacyEngine.eff_player_traits := Some t;
                DiplomacyEngine.eff_npc_opinions := Some {[ "kf" := d ]};
                DiplomacyEngine.eff_flags := None |}
    ∧ d = 5 ∧ f = {[ "RUS" := 3 ]} ∧ t = ∅.
Proof.
  destruct (effects_of_utterance_table AIWorkerSafe.lower_ascii "kf" "2_meeting" "Palvelen.")
    as (d & f & t & He & Hduty & _); [discriminate|].
  exists d, f, t. split; [exact He|]. apply Hduty.
  apply matches_iff. vm_compute. reflexivity.
Defined.

(** ** The profile resolver, safe worker *)

Section safe_profiles.
Import SafeProfiles.
Context (toLowerCase toUpperCase : string → string).
Context {value : Type} (truthy_value : value → bool).

Local Abbreviation getNPCProfile :=
  (SafeProfiles.getNPCProfile toLowerCase toUpperCase value truthy_value).
Local Abbreviation resolve := (SafeProfiles.resolve toLowerCase value truthy_value).
Local Abbreviation getNPCName := (SafeProfiles.getNPCName toUpperCase).
Local Abbreviation fallbackProfile := (SafeProfiles.fallbackProfile value).
Local Abbreviation baseProfile := (SafeProfiles.baseProfile value).
Local Abbreviation with_personality := (SafeProfiles.with_personality value truthy_value).
Local Abbreviation ai_personality := (SafeProfiles.ai_personality value).

Lemma fallbackProfile_personality (npcId name : string) :
  fallbackProfile npcId name !! "personality" = Some (Text "formal, diplomatic").
Proof.
  unfold SafeProfiles.fallbackProfile.
  rewrite !lookup_insert_ne by done. apply lookup_insert_eq.
Qed.

Lemma baseProfile_personality (npcId : string) (d : NpcData) :
  baseProfile npcId d !! "personality" = None.
Proof.
  unfold SafeProfiles.baseProfile. rewrite !lookup_insert_ne by done. apply lookup_empty.
Qed.

Lemma with_personality_kept (profile : gmap string (field value)) (s : string) :
  profile !! "personality" = Some (Text s) → s ≠ "" →
  with_personality profile = profile.
Proof.
  intros Hp Hs. unfold SafeProfiles.with_personality. rewrite Hp. simpl.
  destruct (String.eqb s "") eqn:E; [by apply String.eqb_eq in E|done].
Qed.

(** X27.  When the AI profiles give no personality for the character, the
    profile resolved on a cache miss has the personality "formal, diplomatic"
    of the fallback profile, whatever speech style the record of npcs.json
    holds: the speech style is copied into the personality only over a falsy
    personality, which only an AI profile can bring. *)
Theorem getNPCProfile_personality (npcs : option (option (list NpcData)))
    (aiProfiles : option (option (list (AiProfile value))))
    (npcCache : gmap string (gmap string (field value))) (npcId : string)
    (profile : gmap string (field value))
    (npcCache' : gmap string (gmap string (field value))) :
  npcCache !! npcId = None →
  getNPCProfile npcs aiProfiles npcCache npcId = Some (profile, npcCache') →
  ai_personality aiProfiles npcId = None →
  profile !! "personality" = Some (Text "formal, diplomatic").
Proof.
  intros Hc. unfold SafeProfiles.getNPCProfile. rewrite Hc.
  destruct (getNPCName npcId) as [name|]; [|done]. intros [= <- _] Hai.
  destruct (resolve npcs aiProfiles npcId name) as [p|] eqn:Hres;
    [|apply fallbackProfile_personality].
  unfold SafeProfiles.resolve in Hres.
  assert (∀ (ai : option (gmap string (field value))) base,
            ai ≫= (λ a, a !! "personality") = None →
            (default ∅ ai ∪ (default ∅ (baseProfile npcId <$> base)
                             ∪ fallbackProfile npcId name)) !! "personality"
            = Some (Text "formal, diplomatic")) as Hmerge.
  { intros ai base Hnone. rewrite !lookup_union.
    assert (default ∅ ai !! "personality" = None) as ->.
    { destruct ai; [done|apply lookup_empty]. }
    assert (default ∅ (baseProfile npcId <$> base) !! "personality" = None) as ->.
    { destruct base; simpl; [apply baseProfile_personality|apply lookup_empty]. }
    by rewrite fallbackProfile_personality. }
  assert (∀ ai base, ai ≫= (λ a, a !! "personality") = None →
            with_personality
              (default ∅ ai ∪ (default ∅ (baseProfile npcId <$> base)
                               ∪ fallbackProfile npcId name)) !! "personality"
            = Some (Text "formal, diplomatic")) as Hfinal.
  { intros ai base Hnone. erewrite with_personality_kept; [by apply Hmerge|by apply Hmerge|done]. }
  destruct npcs as [[npcList|]|]; [|done|];
    destruct aiProfiles as [[aiList|]|]; try done; injection Hres as <-.
  - apply (Hfinal _ (find _ npcList)). simpl in Hai.
    by destruct (find (λ n, String.eqb (ai_id n) npcId) aiList).
  - by apply (Hfinal None (find _ npcList)).
  - apply (Hfinal _ None). simpl in Hai.
    by destruct (find (λ n, String.eqb (ai_id n) npcId) aiList).
  - by apply (Hfinal None None).
Qed.

(** X28.  The safe resolver never fails on bad documents: when the list of
    either document is not an array, a cache miss returns the bare fallback
    profile and caches it, and a record of npcs.json that was found is
    dropped with the rest. *)
Theorem getNPCProfile_falls_back (npcs : option (option (list NpcData)))
    (aiProfiles : option (option (list (AiProfile value))))
    (npcCache : gmap string (gmap string (field value))) (npcId name : string) :
  npcCache !! npcId = None →
  getNPCName npcId = Some name →
  npcs = Some None ∨ aiProfiles = Some None →
  getNPCProfile npcs aiProfiles npcCache npcId
    = Some (fallbackProfile npcId name, <[npcId := fallbackProfile npcId name]> npcCache).
Proof.
  intros Hc Hn Hbad. unfold SafeProfiles.getNPCProfile. rewrite Hc, Hn.
  assert (resolve npcs aiProfiles npcId name = None) as ->; [|done].
  unfold SafeProfiles.resolve. destruct Hbad as [-> | ->]; [done|].
  by destruct npcs as [[?|]|].
Qed.
End safe_profiles.

Lemma getNPCProfile_personality_witness :
  ∃ profile cache,
    SafeProfiles.getNPCProfile AIWorkerSafe.lower_ascii SampleResolver.same unit
      SampleResolver.any_value (Some (Some [SampleResolver.trepov_data])) None ∅ "trepov"
    = Some (profile, cache)
    ∧ profile !! "speech_style" = Some (SafeProfiles.Text "lyhytsanainen")
    ∧ profile !! "personality" = Some (SafeProfiles.Text "formal, diplomatic").
Proof.
  eexists _, _. split; [reflexivity|]. split; [by vm_compute|].
  eapply (getNPCProfile_personality AIWorkerSafe.lower_ascii SampleResolver.same
            SampleResolver.any_value (Some (Some [SampleResolver.trepov_data])) None ∅
            "trepov"); reflexivity.
Defined.

Lemma getNPCProfile_falls_back_witness :
  SafeProfiles.getNPCProfile AIWorkerSafe.lower_ascii SampleResolver.same unit
    SampleResolver.any_value (Some (Some [SampleResolver.trepov_data])) (Some None) ∅ "trepov"
  = Some (SafeProfiles.fallbackProfile unit "trepov" "Dmitri Trepov",
          {[ "trepov" := SafeProfiles.fallbackProfile unit "trepov" "Dmitri Trepov" ]}).
Proof.
  apply (getNPCProfile_falls_back AIWorkerSafe.lower_ascii SampleResolver.same
           SampleResolver.any_value (Some (Some [SampleResolver.trepov_data])) (Some None) ∅
           "trepov" "Dmitri Trepov").
  - reflexivity.
  - reflexivity.
  - by right.
Defined.
